(** * PokerStars hand-history parser: a shallow embedding of
      [poker/room/pokerstars.py] and the properties of its parse.

    Text is modelled as [string]: a sequence of 8-bit characters read as
    code points 0..255 (ASCII and Latin-1).  Python's [re] patterns are
    transcribed into a small regular-expression syntax whose matcher
    backtracks in the order of Python's engine (alternatives left to
    right, greedy repetition longest first, lazy repetition shortest
    first), so that capture groups come out as [re] computes them. *)

From Stdlib Require Import String Ascii ZArith NArith List Bool Lia.
From stdpp Require Import base option list gmap strings.

Local Open Scope string_scope.
Local Open Scope list_scope.

(** ** Characters *)

Module Chars.

Definition code (c : ascii) : N := N_of_ascii c.

Definition between (lo hi : N) (c : ascii) : bool :=
  ((lo <=? code c) && (code c <=? hi))%N.

(** [\d]: the decimal digits (below 256 these are 0-9 only). *)
Definition is_digit (c : ascii) : bool := between 48 57 c.

(** [\s], and the characters [str.strip()] and [str.split()] remove:
    tab, newline, vertical tab, form feed, carriage return, the four
    separators 0x1c-0x1f, space, NEL and the no-break space. *)
Definition is_space (c : ascii) : bool :=
  between 9 13 c || between 28 32 c || (code c =? 133)%N || (code c =? 160)%N.

Definition is_upper (c : ascii) : bool := between 65 90 c.
Definition is_lower (c : ascii) : bool := between 97 122 c.

(** [\w]: letters, digits and the underscore; in the Latin-1 range also
    the letters and numerics of [str.isalnum]. *)
Definition is_word (c : ascii) : bool :=
  is_digit c || is_upper c || is_lower c || (code c =? 95)%N
  || (code c =? 170)%N || between 178 179 c || (code c =? 181)%N
  || between 185 186 c || between 188 190 c
  || between 192 214 c || between 216 246 c || between 248 255 c.

(** [.] without DOTALL: anything but a newline. *)
Definition is_dot (c : ascii) : bool := negb (code c =? 10)%N.

Definition not_space (c : ascii) : bool := negb (is_space c).
Definition not_rbracket (c : ascii) : bool := negb (Ascii.eqb c "]").

Definition newline : ascii := "010"%char.
Definition dquote : ascii := "034"%char.

(** [str.upper()] on the ASCII letters; the letters above 127 are left
    as they are, and none of them upper-cases into a keyword. *)
Definition upper_char (c : ascii) : ascii :=
  if is_lower c then ascii_of_N (code c - 32) else c.

Definition lower_char (c : ascii) : ascii :=
  if is_upper c then ascii_of_N (code c + 32) else c.

End Chars.
Import Chars.

(** ** Python's [str] methods *)

Module Str.

Definition len (s : string) : nat := String.length s.

Fixpoint all (p : ascii -> bool) (s : string) : bool :=
  match s with
  | EmptyString => true
  | String c s' => p c && all p s'
  end.

Definition is_empty (s : string) : bool :=
  match s with EmptyString => true | _ => false end.

Fixpoint lstrip (s : string) : string :=
  match s with
  | String c s' => if is_space c then lstrip s' else s
  | EmptyString => EmptyString
  end.

Fixpoint rstrip (s : string) : string :=
  match s with
  | EmptyString => EmptyString
  | String c s' =>
      let r := rstrip s' in
      if is_space c && is_empty r then EmptyString else String c r
  end.

(** [s.strip()] *)
Definition strip (s : string) : string := lstrip (rstrip s).

(** [s.startswith(p)], as the remainder after [p] when it is a prefix. *)
Fixpoint drop_prefix (p s : string) : option string :=
  match p with
  | EmptyString => Some s
  | String a p' =>
      match s with
      | String b s' => if Ascii.eqb a b then drop_prefix p' s' else None
      | EmptyString => None
      end
  end.

Definition startswith (p s : string) : bool :=
  match drop_prefix p s with Some _ => true | None => false end.

(** [sub in s] *)
Fixpoint contains (sub s : string) : bool :=
  startswith sub s ||
  match s with
  | String _ s' => contains sub s'
  | EmptyString => false
  end.

(** [s.split(sep)] for a one-character separator: never an empty list. *)
Fixpoint split_on (sep : ascii) (s : string) : list string :=
  match s with
  | EmptyString => [EmptyString]
  | String c s' =>
      if Ascii.eqb c sep then EmptyString :: split_on sep s'
      else match split_on sep s' with
           | w :: ws => String c w :: ws
           | [] => [String c EmptyString]
           end
  end.

Definition lines (s : string) : list string := split_on newline s.

(** [s.split()]: the maximal runs of non-whitespace characters. *)
Fixpoint split_ws_aux (cur : option string) (s : string) : list string :=
  match s with
  | EmptyString => match cur with Some w => [w] | None => [] end
  | String c s' =>
      if is_space c then
        match cur with
        | Some w => w :: split_ws_aux None s'
        | None => split_ws_aux None s'
        end
      else
        split_ws_aux (Some (match cur with
                            | Some w => w +:+ String c EmptyString
                            | None => String c EmptyString
                            end)) s'
  end.

Definition split_ws (s : string) : list string := split_ws_aux None s.

(** [s.partition(sep)] *)
Fixpoint partition (sep s : string) : string * string * string :=
  match drop_prefix sep s with
  | Some rest => (EmptyString, sep, rest)
  | None =>
      match s with
      | EmptyString => (EmptyString, EmptyString, EmptyString)
      | String c s' =>
          match partition sep s' with
          | (a, EmptyString, _) => (String c s', EmptyString, EmptyString)
          | (a, sp, b) => (String c a, sp, b)
          end
      end
  end.

(** [s.replace(c, '')] for a one-character [c]. *)
Fixpoint remove_char (c : ascii) (s : string) : string :=
  match s with
  | EmptyString => EmptyString
  | String a s' =>
      if Ascii.eqb a c then remove_char c s' else String a (remove_char c s')
  end.

(** [s.replace(a, b)] for one-character [a] and [b]. *)
Fixpoint replace_char (a b : ascii) (s : string) : string :=
  match s with
  | EmptyString => EmptyString
  | String x s' =>
      String (if Ascii.eqb x a then b else x) (replace_char a b s')
  end.

Fixpoint map_chars (f : ascii -> ascii) (s : string) : string :=
  match s with
  | EmptyString => EmptyString
  | String c s' => String (f c) (map_chars f s')
  end.

(** [s.upper()] *)
Definition upper (s : string) : string := map_chars upper_char s.
Definition lower (s : string) : string := map_chars lower_char s.

(** The first [n] characters. *)
Fixpoint take (n : nat) (s : string) : string :=
  match n, s with
  | S n', String c s' => String c (take n' s')
  | _, _ => EmptyString
  end.

(** The longest prefix of characters in [p], and what follows it. *)
Fixpoint span (p : ascii -> bool) (s : string) : string * string :=
  match s with
  | String c s' =>
      if p c then let '(w, r) := span p s' in (String c w, r)
      else (EmptyString, s)
  | EmptyString => (EmptyString, EmptyString)
  end.

(** [int(s)] on a string of decimal digits. *)
Fixpoint digits_value (acc : N) (s : string) : N :=
  match s with
  | EmptyString => acc
  | String c s' => digits_value (10 * acc + (code c - 48))%N s'
  end.

Definition to_N (s : string) : N := digits_value 0 s.

(** [str(n)] for a natural number. *)
Definition digit_char (n : N) : ascii := ascii_of_N (48 + n).

Fixpoint of_N_aux (fuel : nat) (n : N) (acc : string) : string :=
  match fuel with
  | O => acc
  | S f =>
      let acc' := String (digit_char (n mod 10)) acc in
      if (n <? 10)%N then acc' else of_N_aux f (n / 10)%N acc'
  end.

Definition of_N (n : N) : string :=
  of_N_aux (S (N.to_nat (N.log2 n))) n EmptyString.

(** [str(z)] for an integer. *)
Definition of_Z (z : Z) : string :=
  if (z <? 0)%Z then String "-" (of_N (Z.abs_N z)) else of_N (Z.abs_N z).

(** [int(s)] for a string of decimal digits. *)
Definition to_Z (s : string) : Z := Z.of_N (to_N s).

(** [pattern.split(s)] for a pattern that is the literal [sep]: the
    pieces between its occurrences, found left to right. *)
Fixpoint split_str (sep : string) (skip : nat) (s : string) : list string :=
  match s with
  | EmptyString => [EmptyString]
  | String c s' =>
      match skip with
      | S k => split_str sep k s'
      | O =>
          if startswith sep s
          then EmptyString :: split_str sep (len sep - 1) s'
          else match split_str sep 0 s' with
               | w :: ws => String c w :: ws
               | [] => [String c EmptyString]
               end
      end
  end.

(** Truthiness of an optional string, as in [a or b]: [None] and the
    empty string are both false. *)
Definition truthy (o : option string) : bool :=
  match o with
  | Some (String _ _) => true
  | _ => false
  end.

Definition or_else (o : option string) (d : option string) : option string :=
  if truthy o then o else d.

End Str.


(** ** Regular expressions with Python's backtracking order *)

Module Re.

(** The patterns of the module only repeat single-character classes, so
    repetition is over a class: [Rep greedy lo p] is [p{lo,}], lazy when
    [greedy] is false.  [Grp] is a capturing group, named by its name or,
    for an unnamed group, by its number. *)
Inductive regex : Type :=
| Eps
| Chr (c : ascii)
| Lit (w : string)
| Cls (p : ascii -> bool)
| Cat (r1 r2 : regex)
| Alt (r1 r2 : regex)
| Rep (greedy : bool) (lo : nat) (p : ascii -> bool)
| Grp (name : string) (r : regex)
| Bol
| Eol.

(** The groups of a match: the text each participating group matched. *)
Definition caps : Type := list (string * string).

Fixpoint group (c : caps) (name : string) : option string :=
  match c with
  | [] => None
  | (n, v) :: c' => if String.eqb n name then Some v else group c' name
  end.

Definition first_of {A} (a : option A) (b : unit -> option A) : option A :=
  match a with
  | Some x => Some x
  | None => b tt
  end.

Fixpoint rep_match (greedy : bool) (p : ascii -> bool) (lo : nat) (i : nat)
    (s : string) (k : nat -> string -> option caps) : option caps :=
  let stop := fun _ : unit => match lo with O => k i s | S _ => None end in
  let more := fun _ : unit =>
    match s with
    | String a s' =>
        if p a then rep_match greedy p (Nat.pred lo) (S i) s' k else None
    | EmptyString => None
    end in
  if greedy then first_of (more tt) stop else first_of (stop tt) more.

(** [rmatch r i s c k]: match [r] at offset [i], where [s] is the text
    from [i] on, then continue with [k]; the first success in Python's
    search order is returned. *)
Fixpoint rmatch (r : regex) (i : nat) (s : string) (c : caps)
    (k : nat -> string -> caps -> option caps) : option caps :=
  match r with
  | Eps => k i s c
  | Chr a =>
      match s with
      | String b s' => if Ascii.eqb a b then k (S i) s' c else None
      | EmptyString => None
      end
  | Lit w =>
      match Str.drop_prefix w s with
      | Some s' => k (i + Str.len w) s' c
      | None => None
      end
  | Cls p =>
      match s with
      | String b s' => if p b then k (S i) s' c else None
      | EmptyString => None
      end
  | Cat r1 r2 => rmatch r1 i s c (fun j s' c' => rmatch r2 j s' c' k)
  | Alt r1 r2 => first_of (rmatch r1 i s c k) (fun _ => rmatch r2 i s c k)
  | Rep g lo p => rep_match g p lo i s (fun j s' => k j s' c)
  | Grp n r1 =>
      rmatch r1 i s c (fun j s' c' => k j s' ((n, Str.take (j - i) s) :: c'))
  | Bol => if Nat.eqb i 0 then k i s c else None
  | Eol =>
      match s with
      | EmptyString => k i s c
      | String b EmptyString => if Ascii.eqb b newline then k i s c else None
      | _ => None
      end
  end.

(** The text of a group that takes part in every match of its pattern. *)
Definition grp (c : caps) (n : string) : string :=
  match group c n with Some v => v | None => EmptyString end.

Definition accept : nat -> string -> caps -> option caps :=
  fun _ _ c => Some c.

(** [pattern.match(s)]: a match starting at offset 0. *)
Definition match_ (r : regex) (s : string) : option caps :=
  rmatch r 0 s [] accept.

(** [pattern.search(s)]: the match at the leftmost offset that has one. *)
Fixpoint search_from (r : regex) (i : nat) (s : string) : option caps :=
  first_of (rmatch r i s [] accept)
    (fun _ => match s with
              | String _ s' => search_from r (S i) s'
              | EmptyString => None
              end).

Definition search (r : regex) (s : string) : option caps := search_from r 0 s.

(** Derived forms. *)
Definition opt (r : regex) : regex := Alt r Eps.            (* r?  *)
Definition plus (p : ascii -> bool) : regex := Rep true 1 p.    (* p+  *)
Definition plus_lazy (p : ascii -> bool) : regex := Rep false 1 p. (* p+? *)
Definition star (p : ascii -> bool) : regex := Rep true 0 p.    (* p*  *)

Fixpoint times (n : nat) (p : ascii -> bool) : regex :=       (* p{n} *)
  match n with
  | O => Eps
  | S n' => Cat (Cls p) (times n' p)
  end.

Fixpoint cats (rs : list regex) : regex :=
  match rs with
  | [] => Eps
  | [r] => r
  | r :: rs' => Cat r (cats rs')
  end.

(** [\d+(?:\.\d+)?], the amount shape used throughout. *)
Definition number : regex :=
  Cat (plus is_digit) (opt (Cat (Chr ".") (plus is_digit))).

End Re.
Import Re.


(** ** Exact decimals *)

Module Dec.

(** A [decimal.Decimal]: sign, coefficient and exponent are kept as read,
    so 0.10 (coefficient 10, exponent -2) is told apart from 0.1. *)
Inductive Decimal : Type :=
| Fin (neg : bool) (coef : N) (exp : Z)
| Inf (neg : bool)
| NaN (neg : bool) (signaling : bool) (diag : N).

Definition parse_sign (s : string) : bool * string :=
  match s with
  | String "-" r => (true, r)
  | String "+" r => (false, r)
  | _ => (false, s)
  end.

Definition all_digits (s : string) : bool := Str.all is_digit s.

(** What may follow the mantissa: nothing, or [E], an optional sign and
    at least one digit. *)
Definition parse_exponent (s : string) : option Z :=
  match s with
  | EmptyString => Some 0%Z
  | String e r =>
      if Ascii.eqb (lower_char e) "e" then
        let '(neg, d) := parse_sign r in
        if negb (Str.is_empty d) && all_digits d then
          Some (if neg then (- Z.of_N (Str.to_N d))%Z else Z.of_N (Str.to_N d))
        else None
      else None
  end.

(** The exponents of the largest context, [MAX_EMAX] and [MIN_ETINY]
    of the 64-bit build. *)
Definition max_emax : Z := 999999999999999999.
Definition min_etiny : Z := -1999999999999999997.

Fixpoint skip_zeros (s : string) : string :=
  match s with
  | String "0" r => skip_zeros r
  | _ => s
  end.

(** The number of digits of a coefficient: its leading zeros do not
    count, and zero has one digit. *)
Definition coef_digits (ds : string) : Z :=
  Z.max 1 (Z.of_nat (Str.len (skip_zeros ds))).

(** [Decimal(text)] is exact: a value whose exponent is below the
    smallest one, or whose leading digit is above the largest one, is
    refused with InvalidOperation, not rounded. *)
Definition in_range (ds : string) (exp : Z) : bool :=
  ((min_etiny <=? exp) && (exp + coef_digits ds - 1 <=? max_emax))%Z.

(** A numeral without an exponent part leaves the range only with more
    than 10^18 digits, which no text has: the range is looked at where
    an exponent is written. *)
Definition parse_finite (neg : bool) (body : string) : option Decimal :=
  let '(ip, r1) := Str.span is_digit body in
  let '(fp, r2) :=
    match r1 with
    | String "." r => Str.span is_digit r
    | _ => (EmptyString, r1)
    end in
  if Str.is_empty ip && Str.is_empty fp then None
  else match parse_exponent r2 with
       | Some e =>
           let exp := (e - Z.of_nat (Str.len fp))%Z in
           if Str.is_empty r2 || in_range (ip +:+ fp) exp
           then Some (Fin neg (Str.to_N (ip +:+ fp)) exp)
           else None
       | None => None
       end.

(** [Decimal(text)]; [None] stands for the InvalidOperation it raises on
    text that is not a numeric string or whose value is out of range. *)
Definition of_string (text : string) : option Decimal :=
  let s := Str.remove_char "_" (Str.strip text) in
  let '(neg, body) := parse_sign s in
  let low := Str.lower body in
  if String.eqb low "inf" || String.eqb low "infinity" then Some (Inf neg)
  else
    match Str.drop_prefix "nan" low with
    | Some d => if all_digits d then Some (NaN neg false (Str.to_N d)) else None
    | None =>
        match Str.drop_prefix "snan" low with
        | Some d => if all_digits d then Some (NaN neg true (Str.to_N d)) else None
        | None => parse_finite neg body
        end
    end.

(** [Decimal('0.00')] *)
Definition zero2 : Decimal := Fin false 0 (-2).

End Dec.
Import Dec.


(** ** Exceptions, the log, and the monad of the parse steps *)

Inductive exn : Type :=
| RuntimeError (message : string)
| AttributeError (message : string)
| IndexError (message : string)
| ValueError (message : string)
| InvalidOperation (message : string).

(** [str(e)] *)
Definition exn_str (e : exn) : string :=
  match e with
  | RuntimeError m | AttributeError m | IndexError m
  | ValueError m | InvalidOperation m => m
  end.

(** The calls made on the [logging] module, oldest first. *)
Inductive severity : Type := ERROR | WARNING | INFO.
Definition Log : Type := list (severity * string).

Inductive outcome (S A : Type) : Type :=
| Ok (a : A) (s : S) (l : Log)
| Raise (e : exn) (s : S) (l : Log).
Arguments Ok {S A} a s l.
Arguments Raise {S A} e s l.

(** A step over an object of type [S]: it returns or raises, and in both
    cases leaves the object and the log as they were at that point. *)
Definition M (S A : Type) : Type := S -> Log -> outcome S A.

Definition ret {S A} (a : A) : M S A := fun s l => Ok a s l.

Definition bind {S A B} (m : M S A) (f : A -> M S B) : M S B :=
  fun s l =>
    match m s l with
    | Ok a s' l' => f a s' l'
    | Raise e s' l' => Raise e s' l'
    end.

Definition raise {S A} (e : exn) : M S A := fun s l => Raise e s l.

(** [try: body except Exception as e: handler e] *)
Definition try_ {S A} (body : M S A) (handler : exn -> M S A) : M S A :=
  fun s l =>
    match body s l with
    | Ok a s' l' => Ok a s' l'
    | Raise e s' l' => handler e s' l'
    end.

Definition get {S} : M S S := fun s l => Ok s s l.
Definition modify {S} (f : S -> S) : M S unit := fun s l => Ok tt (f s) l.
Definition logging {S} (sev : severity) (msg : string) : M S unit :=
  fun s l => Ok tt s (l ++ [(sev, msg)]).

(** A value that may be missing, where its absence raises [e]. *)
Definition expect {S A} (o : option A) (e : exn) : M S A :=
  match o with
  | Some a => ret a
  | None => raise e
  end.

Definition of_result {S A} (r : exn + A) : M S A :=
  match r with
  | inr a => ret a
  | inl e => raise e
  end.

Declare Scope py_scope.
Delimit Scope py_scope with py.
Notation "x <- c1 ;; c2" := (bind c1 (fun x => c2))
  (at level 100, c1 at next level, c2 at level 200,
   right associativity) : py_scope.
Notation "c1 ;; c2" := (bind c1 (fun _ => c2))
  (at level 100, c2 at level 200, right associativity) : py_scope.
Local Open Scope py_scope.

(** [Decimal(text)] as a step. *)
Definition Decimal_ {S} (text : string) : M S Decimal :=
  expect (Dec.of_string text)
         (InvalidOperation "[<class 'decimal.ConversionSyntax'>]").

Fixpoint mapM {S A B} (f : A -> M S B) (xs : list A) : M S (list B) :=
  match xs with
  | [] => ret []
  | x :: xs' => y <- f x ;; ys <- mapM f xs' ;; ret (y :: ys)
  end.

(** ** Lists indexed as Python indexes them *)

(** An index is turned into a machine-sized integer before the list is
    looked at ([sys.maxsize] is 2^63 - 1 on the 64-bit build); an
    integer that does not fit raises an IndexError of its own. *)
Definition fits_index (i : Z) : bool :=
  ((- 2 ^ 63 <=? i) && (i <? 2 ^ 63))%Z.

(** [l[i]]: a negative index counts from the end; out of range raises. *)
Definition py_index (len : nat) (i : Z) : option nat :=
  if negb (fits_index i) then None
  else if ((0 <=? i) && (i <? Z.of_nat len))%Z then Some (Z.to_nat i)
  else if ((- Z.of_nat len <=? i) && (i <? 0))%Z
       then Some (Z.to_nat (Z.of_nat len + i))
       else None.

Definition py_get {A} (l : list A) (i : Z) : option A :=
  match py_index (length l) i with
  | Some n => l !! n
  | None => None
  end.

Definition list_index_error : exn := IndexError "list index out of range".
Definition list_assign_error : exn :=
  IndexError "list assignment index out of range".
Definition index_size_error : exn :=
  IndexError "cannot fit 'int' into an index-sized integer".

(** What [l[i]] and [l[i] = x] raise when [i] is no position of [l]. *)
Definition index_error (i : Z) : exn :=
  if fits_index i then list_index_error else index_size_error.
Definition assign_error (i : Z) : exn :=
  if fits_index i then list_assign_error else index_size_error.

(** ** The vocabularies the parser consumes *)

(** Cards, hole-card pairs, the currency, game and limit enumerations and
    time stamps come from other modules of the package.  Their
    constructors either return a value or raise; the enumerations raise
    ValueError on a token they do not know, which is [None] here. *)
Class Vocabulary : Type := {
  card_t : Type;
  Card : string -> exn + card_t;
  combo_t : Type;
  Combo : string -> exn + combo_t;
  currency_t : Type;
  Currency : string -> option currency_t;
  game_t : Type;
  Game : string -> option game_t;
  Game_UNKNOWN : game_t;
  limit_t : Type;
  Limit : string -> option limit_t;
  Limit_UNKNOWN : limit_t;
  datetime_t : Type;
  parse_date : string -> exn + datetime_t
}.

(** [constants.Action], the members this module produces. *)
Inductive Action : Type :=
| BET | CALL | CHECK | FOLD | RAISE | POSTS
| ALL_IN | RETURN | WIN | MUCK.

Inductive GameType : Type := TOUR | CASH.
Inductive MoneyType : Type := REAL | PLAY.

(** [hh._PlayerAction(name, action, amount)] *)
Record PlayerAction : Type := mkAction {
  pa_name : string;
  pa_action : Action;
  pa_amount : option Decimal
}.

(** ** Players and the roster *)

Section Players.
Context `{V : Vocabulary}.

(** [hh._Player(name, stack, seat, combo)] *)
Record Player : Type := mkPlayer {
  name : string;
  stack : Decimal;
  seat : Z;
  combo : option combo_t
}.

(** ["Empty Seat {}".format(seat)] *)
Definition empty_seat_name (n : Z) : string := "Empty Seat " +:+ Str.of_Z n.

(** Modelled from the spec: [_init_seats] of the base hand history, which
    is not part of this module.  It "builds a fixed-length roster
    pre-filled with empty-seat placeholders"; the placeholder of seat [k]
    carries the name [_handle_player_join] tests for, no chips and no
    cards. *)
Definition _init_seats (player_num : Z) : list Player :=
  map (fun k : nat =>
         mkPlayer (empty_seat_name (Z.of_nat k)) (Fin false 0 0)
                  (Z.of_nat k) None)
      (List.seq 1 (Z.to_nat player_num)).

(** [players[i] = p] *)
Definition assign {S} (l : list Player) (i : Z) (p : Player)
    : M S (list Player) :=
  match py_index (length l) i with
  | Some n => ret (<[n := p]> l)
  | None => raise (assign_error i)
  end.

End Players.

(** ** A street: its cards and its actions *)

Module Street.
Section Street.
Context `{V : Vocabulary}.

(** The attributes of a [_Street] object; [None] is Python's None.
    [players] is the list [_handle_player_join] reads through
    [self.players]; [None] when the object has no such attribute. *)
Record _Street : Type := mk {
  cards : option (list card_t);
  turn : option card_t;
  river : option card_t;
  actions : option (list PlayerAction);
  pot : option Decimal;
  players : option (list Player)
}.

Definition set_cards v (s : _Street) : _Street :=
  mk v (turn s) (river s) (actions s) (pot s) (players s).
Definition set_turn v (s : _Street) : _Street :=
  mk (cards s) v (river s) (actions s) (pot s) (players s).
Definition set_river v (s : _Street) : _Street :=
  mk (cards s) (turn s) v (actions s) (pot s) (players s).
Definition set_actions v (s : _Street) : _Street :=
  mk (cards s) (turn s) (river s) v (pot s) (players s).
Definition set_pot v (s : _Street) : _Street :=
  mk (cards s) (turn s) (river s) (actions s) v (players s).
Definition set_players v (s : _Street) : _Street :=
  mk (cards s) (turn s) (river s) (actions s) (pot s) v.

Definition action_tuple : Type := string * Action * option Decimal.

(** [\[([^\]]+)\]] *)
Definition board_re : regex :=
  cats [Chr "["; Grp "1" (plus not_rbracket); Chr "]"].

(** [\((\$?\d+(?:\.\d+)?)\)] *)
Definition uncalled_amount_re : regex :=
  cats [Chr "("; Grp "1" (Cat (opt (Chr "$")) number); Chr ")"].

(** [to (\w+)] *)
Definition uncalled_name_re : regex :=
  Cat (Lit "to ") (Grp "1" (plus is_word)).

(** [^(?P<name>\w+) collected \$(?P<amount>\d+(?:\.\d+)?) from pot] *)
Definition collected_re : regex :=
  cats [Bol; Grp "name" (plus is_word); Lit " collected $";
        Grp "amount" number; Lit " from pot"].

(** [^(?P<name>\w+): (doesn't show hand|mucks)] *)
Definition muck_re : regex :=
  cats [Bol; Grp "name" (plus is_word); Lit ": ";
        Grp "2" (Alt (Lit "doesn't show hand") (Lit "mucks"))].

(** [^(?P<name>.+?) joins the table at seat #(?P<seat>\d+)$] *)
Definition join_re : regex :=
  cats [Bol; Grp "name" (plus_lazy is_dot); Lit " joins the table at seat #";
        Grp "seat" (plus is_digit); Eol].

Definition _parse_cards (boardline : string) : M _Street unit :=
  match Re.search board_re boardline with
  | Some m =>
      let card_str := Str.split_ws (grp m "1") in
      flop <- mapM (fun cs => of_result (Card cs)) (take 3 card_str) ;;
      modify (set_cards (Some flop)) ;;
      (match card_str !! 3%nat with
       | Some cs => c <- of_result (Card cs) ;; modify (set_turn (Some c))
       | None => modify (set_turn None)
       end) ;;
      (match card_str !! 4%nat with
       | Some cs => c <- of_result (Card cs) ;; modify (set_river (Some c))
       | None => modify (set_river None)
       end)
  | None =>
      modify (set_cards (Some [])) ;;
      modify (set_turn None) ;;
      modify (set_river None)
  end.

Definition _parse_uncalled (line : string) : M _Street (option action_tuple) :=
  try_
    (let amount_match := Re.search uncalled_amount_re line in
     let name_match := Re.search uncalled_name_re line in
     match amount_match, name_match with
     | Some am, Some nm =>
         amount <- Decimal_ (Str.remove_char "$" (grp am "1")) ;;
         ret (Some (grp nm "1", RETURN, Some amount))
     | _, _ =>
         logging ERROR ("Failed to parse Uncalled bet line: " +:+ line) ;;
         ret None
     end)
    (fun e =>
       logging ERROR ("Error parsing Uncalled bet: " +:+ exn_str e
                      +:+ ", Line: " +:+ line) ;;
       ret None).

Definition _parse_collected (line : string) : M _Street (option action_tuple) :=
  try_
    (match Re.match_ collected_re line with
     | Some m =>
         amount <- Decimal_ (grp m "amount") ;;
         modify (set_pot (Some amount)) ;;
         s <- get ;;
         ret (Some (grp m "name", WIN, pot s))
     | None =>
         logging ERROR ("Failed to parse collected line: " +:+ line) ;;
         ret None
     end)
    (fun e =>
       logging ERROR ("Error parsing collected line: " +:+ exn_str e
                      +:+ ", Line: " +:+ line) ;;
       ret None).

Definition _parse_muck (line : string) : M _Street (option action_tuple) :=
  try_
    (match Re.match_ muck_re line with
     | Some m => ret (Some (grp m "name", MUCK, None))
     | None =>
         logging ERROR ("Failed to parse muck line: " +:+ line) ;;
         ret None
     end)
    (fun e =>
       logging ERROR ("Error parsing muck line: " +:+ exn_str e
                      +:+ ", Line: " +:+ line) ;;
       ret None).

(** [Action[action]] for [action in ["BET", "CALL", "CHECK", "FOLD",
    "RAISE", "POSTS"]]; [None] for a token outside that list. *)
Definition Action_by_name (action : string) : option Action :=
  if String.eqb action "BET" then Some BET
  else if String.eqb action "CALL" then Some CALL
  else if String.eqb action "CHECK" then Some CHECK
  else if String.eqb action "FOLD" then Some FOLD
  else if String.eqb action "RAISE" then Some RAISE
  else if String.eqb action "POSTS" then Some POSTS
  else None.

Definition _parse_player_action (line : string)
    : M _Street (option action_tuple) :=
  try_
    (let '(name, _, action_part) := Str.partition ": " line in
     let action_parts := Str.split_ws action_part in
     first <- expect (action_parts !! 0%nat) list_index_error ;;
     let action := Str.upper first in
     if String.eqb action "ALL-IN" then ret (Some (name, ALL_IN, None))
     else
       match Action_by_name action with
       | Some mapped_action =>
           let amount :=
             match action_parts !! 1%nat with
             | Some tok =>
                 Dec.of_string (Str.remove_char "," (Str.remove_char "$" tok))
             | None => None
             end in
           ret (Some (name, mapped_action, amount))
       | None =>
           logging ERROR ("Unknown action type: " +:+ action
                          +:+ " in line: " +:+ line) ;;
           ret None
       end)
    (fun e =>
       logging ERROR ("Error parsing player action: " +:+ exn_str e
                      +:+ ", Line: " +:+ line) ;;
       ret None).

Definition no_players_error : exn :=
  AttributeError "'_Street' object has no attribute 'players'".

Definition _handle_player_join (line : string) : M _Street unit :=
  try_
    (match Re.match_ join_re line with
     | Some m =>
         let name_ := grp m "name" in
         let seat_ := Str.to_Z (grp m "seat") in
         s <- get ;;
         roster <- expect (players s) no_players_error ;;
         p <- expect (py_get roster (seat_ - 1)) (index_error (seat_ - 1)) ;;
         if negb (Str.is_empty (name p))
            && negb (String.eqb (name p) (empty_seat_name seat_))
         then
           logging WARNING ("Seat " +:+ Str.of_Z seat_
                            +:+ " already occupied. Player " +:+ name_
                            +:+ " cannot join.")
         else
           roster' <- assign roster (seat_ - 1)
                        (mkPlayer name_ zero2 seat_ None) ;;
           modify (set_players (Some roster')) ;;
           logging INFO ("Player " +:+ name_ +:+ " joined at seat "
                         +:+ Str.of_Z seat_ +:+ ".")
     | None =>
         logging ERROR ("Failed to parse player join line: " +:+ line)
     end)
    (fun e =>
       logging ERROR ("Error handling player join: " +:+ exn_str e
                      +:+ ", Line: " +:+ line)).

(** One turn of the loop of [_parse_actions]: the action of the line, or
    [None] where the loop continues without one. *)
Definition parse_action_line (line : string)
    : M _Street (option action_tuple) :=
  if Str.startswith "Uncalled bet" line then _parse_uncalled line
  else if Str.contains "collected" line then _parse_collected line
  else if Str.contains "doesn't show hand" line || Str.contains "mucks" line
  then _parse_muck line
  else if Str.contains "joins the table" line
  then _handle_player_join line ;; ret None
  else if Str.contains (" said, " +:+ String dquote EmptyString) line
  then ret None
  else if Str.contains ":" line then _parse_player_action line
  else logging ERROR ("Bad action line: " +:+ line) ;; ret None.

Definition to_action (a : action_tuple) : PlayerAction :=
  let '(n, act, amt) := a in mkAction n act amt.

Fixpoint actions_loop (actionlines : list string) (acc : list PlayerAction)
    : M _Street (list PlayerAction) :=
  match actionlines with
  | [] => ret acc
  | line :: rest =>
      action <- parse_action_line line ;;
      match action with
      | Some a => actions_loop rest (acc ++ [to_action a])
      | None => actions_loop rest acc
      end
  end.

Definition _parse_actions (actionlines : list string) : M _Street unit :=
  acts <- actions_loop actionlines [] ;;
  modify (set_actions (match acts with [] => None | _ => Some acts end)).

(** Modelled from the spec: the constructor of the base street, which is
    not part of this module.  "Given a block of lines for one street",
    the first line goes to [_parse_cards] and the remaining lines to
    [_parse_actions]; the object starts without cards, actions or pot.
    [roster] is what the object holds as [self.players]. *)
Definition init (roster : option (list Player)) : _Street :=
  mk None None None None None roster.

Definition new (roster : option (list Player)) (section_lines : list string)
    (l : Log) : outcome _Street unit :=
  (first <- expect (section_lines !! 0%nat) list_index_error ;;
   _parse_cards first ;;
   _parse_actions (drop 1 section_lines)) (init roster) l.

End Street.
End Street.


(** ** The hand history *)

Module Hand.
Section Hand.
Context `{V : Vocabulary}.

(** The attributes of a [PokerStarsHandHistory] object.  An optional
    attribute is [None] while it is unassigned and when it holds Python's
    None.  [button] and [hero] refer to a player object of the roster and
    are kept as its index in [players].  [sections] is the map from
    section name to section text that the parse steps read through
    [self.sections]; it is built outside this module and given with the
    raw text. *)
Record PokerStarsHandHistory : Type := mk {
  raw : string;
  sections : gmap string string;
  _splitted : option (list string);
  header_parsed : bool;
  parsed : bool;
  extra : option (gmap string MoneyType);
  ident : option string;
  sb : option Decimal;
  bb : option Decimal;
  game_type : option GameType;
  tournament_ident : option string;
  tournament_level : option string;
  buyin : option Decimal;
  rake : option Decimal;
  currency : option currency_t;
  game : option game_t;
  limit : option limit_t;
  date : option datetime_t;
  table_name : option string;
  max_players : option Z;
  _table_match : option caps;
  players : option (list Player);
  button : option nat;
  hero : option nat;
  preflop_actions : option (list string);
  flop : option Street._Street;
  turn_actions : option (list PlayerAction);
  river_actions : option (list PlayerAction);
  show_down : option bool;
  total_pot : option Decimal;
  board : option (list card_t);
  winners : option (list string)
}.

Definition set__splitted (v : option (list string)) (h : PokerStarsHandHistory)
  : PokerStarsHandHistory :=
  mk
    (raw h) (sections h) v (header_parsed h) (parsed h) (extra h) (ident h)
    (sb h) (bb h) (game_type h) (tournament_ident h) (tournament_level h)
    (buyin h) (rake h) (currency h) (game h) (limit h) (date h)
    (table_name h) (max_players h) (_table_match h) (players h) (button h)
    (hero h) (preflop_actions h) (flop h) (turn_actions h)
    (river_actions h) (show_down h) (total_pot h) (board h) (winners h).

Definition set_header_parsed (v : bool) (h : PokerStarsHandHistory)
  : PokerStarsHandHistory :=
  mk
    (raw h) (sections h) (_splitted h) v (parsed h) (extra h) (ident h)
    (sb h) (bb h) (game_type h) (tournament_ident h) (tournament_level h)
    (buyin h) (rake h) (currency h) (game h) (limit h) (date h)
    (table_name h) (max_players h) (_table_match h) (players h) (button h)
    (hero h) (preflop_actions h) (flop h) (turn_actions h)
    (river_actions h) (show_down h) (total_pot h) (board h) (winners h).

Definition set_parsed (v : bool) (h : PokerStarsHandHistory)
  : PokerStarsHandHistory :=
  mk
    (raw h) (sections h) (_splitted h) (header_parsed h) v (extra h)
    (ident h) (sb h) (bb h) (game_type h) (tournament_ident h)
    (tournament_level h) (buyin h) (rake h) (currency h) (game h) (limit h)
    (date h) (table_name h) (max_players h) (_table_match h) (players h)
    (button h) (hero h) (preflop_actions h) (flop h) (turn_actions h)
    (river_actions h) (show_down h) (total_pot h) (board h) (winners h).

Definition set_extra (v : option (gmap string MoneyType)) (h : PokerStarsHandHistory)
  : PokerStarsHandHistory :=
  mk
    (raw h) (sections h) (_splitted h) (header_parsed h) (parsed h) v
    (ident h) (sb h) (bb h) (game_type h) (tournament_ident h)
    (tournament_level h) (buyin h) (rake h) (currency h) (game h) (limit h)
    (date h) (table_name h) (max_players h) (_table_match h) (players h)
    (button h) (hero h) (preflop_actions h) (flop h) (turn_actions h)
    (river_actions h) (show_down h) (total_pot h) (board h) (winners h).

Definition set_ident (v : option string) (h : PokerStarsHandHistory)
  : PokerStarsHandHistory :=
  mk
    (raw h) (sections h) (_splitted h) (header_parsed h) (parsed h)
    (extra h) v (sb h) (bb h) (game_type h) (tournament_ident h)
    (tournament_level h) (buyin h) (rake h) (currency h) (game h) (limit h)
    (date h) (table_name h) (max_players h) (_table_match h) (players h)
    (button h) (hero h) (preflop_actions h) (flop h) (turn_actions h)
    (river_actions h) (show_down h) (total_pot h) (board h) (winners h).

Definition set_sb (v : option Decimal) (h : PokerStarsHandHistory)
  : PokerStarsHandHistory :=
  mk
    (raw h) (sections h) (_splitted h) (header_parsed h) (parsed h)
    (extra h) (ident h) v (bb h) (game_type h) (tournament_ident h)
    (tournament_level h) (buyin h) (rake h) (currency h) (game h) (limit h)
    (date h) (table_name h) (max_players h) (_table_match h) (players h)
    (button h) (hero h) (preflop_actions h) (flop h) (turn_actions h)
    (river_actions h) (show_down h) (total_pot h) (board h) (winners h).

Definition set_bb (v : option Decimal) (h : PokerStarsHandHistory)
  : PokerStarsHandHistory :=
  mk
    (raw h) (sections h) (_splitted h) (header_parsed h) (parsed h)
    (extra h) (ident h) (sb h) v (game_type h) (tournament_ident h)
    (tournament_level h) (buyin h) (rake h) (currency h) (game h) (limit h)
    (date h) (table_name h) (max_players h) (_table_match h) (players h)
    (button h) (hero h) (preflop_actions h) (flop h) (turn_actions h)
    (river_actions h) (show_down h) (total_pot h) (board h) (winners h).

Definition set_game_type (v : option GameType) (h : PokerStarsHandHistory)
  : PokerStarsHandHistory :=
  mk
    (raw h) (sections h) (_splitted h) (header_parsed h) (parsed h)
    (extra h) (ident h) (sb h) (bb h) v (tournament_ident h)
    (tournament_level h) (buyin h) (rake h) (currency h) (game h) (limit h)
    (date h) (table_name h) (max_players h) (_table_match h) (players h)
    (button h) (hero h) (preflop_actions h) (flop h) (turn_actions h)
    (river_actions h) (show_down h) (total_pot h) (board h) (winners h).

Definition set_tournament_ident (v : option string) (h : PokerStarsHandHistory)
  : PokerStarsHandHistory :=
  mk
    (raw h) (sections h) (_splitted h) (header_parsed h) (parsed h)
    (extra h) (ident h) (sb h) (bb h) (game_type h) v (tournament_level h)
    (buyin h) (rake h) (currency h) (game h) (limit h) (date h)
    (table_name h) (max_players h) (_table_match h) (players h) (button h)
    (hero h) (preflop_actions h) (flop h) (turn_actions h)
    (river_actions h) (show_down h) (total_pot h) (board h) (winners h).

Definition set_tournament_level (v : option string) (h : PokerStarsHandHistory)
  : PokerStarsHandHistory :=
  mk
    (raw h) (sections h) (_splitted h) (header_parsed h) (parsed h)
    (extra h) (ident h) (sb h) (bb h) (game_type h) (tournament_ident h) v
    (buyin h) (rake h) (currency h) (game h) (limit h) (date h)
    (table_name h) (max_players h) (_table_match h) (players h) (button h)
    (hero h) (preflop_actions h) (flop h) (turn_actions h)
    (river_actions h) (show_down h) (total_pot h) (board h) (winners h).

Definition set_buyin (v : option Decimal) (h : PokerStarsHandHistory)
  : PokerStarsHandHistory :=
  mk
    (raw h) (sections h) (_splitted h) (header_parsed h) (parsed h)
    (extra h) (ident h) (sb h) (bb h) (game_type h) (tournament_ident h)
    (tournament_level h) v (rake h) (currency h) (game h) (limit h)
    (date h) (table_name h) (max_players h) (_table_match h) (players h)
    (button h) (hero h) (preflop_actions h) (flop h) (turn_actions h)
    (river_actions h) (show_down h) (total_pot h) (board h) (winners h).

Definition set_rake (v : option Decimal) (h : PokerStarsHandHistory)
  : PokerStarsHandHistory :=
  mk
    (raw h) (sections h) (_splitted h) (header_parsed h) (parsed h)
    (extra h) (ident h) (sb h) (bb h) (game_type h) (tournament_ident h)
    (tournament_level h) (buyin h) v (currency h) (game h) (limit h)
    (date h) (table_name h) (max_players h) (_table_match h) (players h)
    (button h) (hero h) (preflop_actions h) (flop h) (turn_actions h)
    (river_actions h) (show_down h) (total_pot h) (board h) (winners h).

Definition set_currency (v : option currency_t) (h : PokerStarsHandHistory)
  : PokerStarsHandHistory :=
  mk
    (raw h) (sections h) (_splitted h) (header_parsed h) (parsed h)
    (extra h) (ident h) (sb h) (bb h) (game_type h) (tournament_ident h)
    (tournament_level h) (buyin h) (rake h) v (game h) (limit h) (date h)
    (table_name h) (max_players h) (_table_match h) (players h) (button h)
    (hero h) (preflop_actions h) (flop h) (turn_actions h)
    (river_actions h) (show_down h) (total_pot h) (board h) (winners h).

Definition set_game (v : option game_t) (h : PokerStarsHandHistory)
  : PokerStarsHandHistory :=
  mk
    (raw h) (sections h) (_splitted h) (header_parsed h) (parsed h)
    (extra h) (ident h) (sb h) (bb h) (game_type h) (tournament_ident h)
    (tournament_level h) (buyin h) (rake h) (currency h) v (limit h)
    (date h) (table_name h) (max_players h) (_table_match h) (players h)
    (button h) (hero h) (preflop_actions h) (flop h) (turn_actions h)
    (river_actions h) (show_down h) (total_pot h) (board h) (winners h).

Definition set_limit (v : option limit_t) (h : PokerStarsHandHistory)
  : PokerStarsHandHistory :=
  mk
    (raw h) (sections h) (_splitted h) (header_parsed h) (parsed h)
    (extra h) (ident h) (sb h) (bb h) (game_type h) (tournament_ident h)
    (tournament_level h) (buyin h) (rake h) (currency h) (game h) v
    (date h) (table_name h) (max_players h) (_table_match h) (players h)
    (button h) (hero h) (preflop_actions h) (flop h) (turn_actions h)
    (river_actions h) (show_down h) (total_pot h) (board h) (winners h).

Definition set_date (v : option datetime_t) (h : PokerStarsHandHistory)
  : PokerStarsHandHistory :=
  mk
    (raw h) (sections h) (_splitted h) (header_parsed h) (parsed h)
    (extra h) (ident h) (sb h) (bb h) (game_type h) (tournament_ident h)
    (tournament_level h) (buyin h) (rake h) (currency h) (game h) (limit h)
    v (table_name h) (max_players h) (_table_match h) (players h)
    (button h) (hero h) (preflop_actions h) (flop h) (turn_actions h)
    (river_actions h) (show_down h) (total_pot h) (board h) (winners h).

Definition set_table_name (v : option string) (h : PokerStarsHandHistory)
  : PokerStarsHandHistory :=
  mk
    (raw h) (sections h) (_splitted h) (header_parsed h) (parsed h)
    (extra h) (ident h) (sb h) (bb h) (game_type h) (tournament_ident h)
    (tournament_level h) (buyin h) (rake h) (currency h) (game h) (limit h)
    (date h) v (max_players h) (_table_match h) (players h) (button h)
    (hero h) (preflop_actions h) (flop h) (turn_actions h)
    (river_actions h) (show_down h) (total_pot h) (board h) (winners h).

Definition set_max_players (v : option Z) (h : PokerStarsHandHistory)
  : PokerStarsHandHistory :=
  mk
    (raw h) (sections h) (_splitted h) (header_parsed h) (parsed h)
    (extra h) (ident h) (sb h) (bb h) (game_type h) (tournament_ident h)
    (tournament_level h) (buyin h) (rake h) (currency h) (game h) (limit h)
    (date h) (table_name h) v (_table_match h) (players h) (button h)
    (hero h) (preflop_actions h) (flop h) (turn_actions h)
    (river_actions h) (show_down h) (total_pot h) (board h) (winners h).

Definition set_players (v : option (list Player)) (h : PokerStarsHandHistory)
  : PokerStarsHandHistory :=
  mk
    (raw h) (sections h) (_splitted h) (header_parsed h) (parsed h)
    (extra h) (ident h) (sb h) (bb h) (game_type h) (tournament_ident h)
    (tournament_level h) (buyin h) (rake h) (currency h) (game h) (limit h)
    (date h) (table_name h) (max_players h) (_table_match h) v (button h)
    (hero h) (preflop_actions h) (flop h) (turn_actions h)
    (river_actions h) (show_down h) (total_pot h) (board h) (winners h).

Definition set_button (v : option nat) (h : PokerStarsHandHistory)
  : PokerStarsHandHistory :=
  mk
    (raw h) (sections h) (_splitted h) (header_parsed h) (parsed h)
    (extra h) (ident h) (sb h) (bb h) (game_type h) (tournament_ident h)
    (tournament_level h) (buyin h) (rake h) (currency h) (game h) (limit h)
    (date h) (table_name h) (max_players h) (_table_match h) (players h) v
    (hero h) (preflop_actions h) (flop h) (turn_actions h)
    (river_actions h) (show_down h) (total_pot h) (board h) (winners h).

Definition set_hero (v : option nat) (h : PokerStarsHandHistory)
  : PokerStarsHandHistory :=
  mk
    (raw h) (sections h) (_splitted h) (header_parsed h) (parsed h)
    (extra h) (ident h) (sb h) (bb h) (game_type h) (tournament_ident h)
    (tournament_level h) (buyin h) (rake h) (currency h) (game h) (limit h)
    (date h) (table_name h) (max_players h) (_table_match h) (players h)
    (button h) v (preflop_actions h) (flop h) (turn_actions h)
    (river_actions h) (show_down h) (total_pot h) (board h) (winners h).

Definition set_preflop_actions (v : option (list string)) (h : PokerStarsHandHistory)
  : PokerStarsHandHistory :=
  mk
    (raw h) (sections h) (_splitted h) (header_parsed h) (parsed h)
    (extra h) (ident h) (sb h) (bb h) (game_type h) (tournament_ident h)
    (tournament_level h) (buyin h) (rake h) (currency h) (game h) (limit h)
    (date h) (table_name h) (max_players h) (_table_match h) (players h)
    (button h) (hero h) v (flop h) (turn_actions h) (river_actions h)
    (show_down h) (total_pot h) (board h) (winners h).

Definition set_flop (v : option Street._Street) (h : PokerStarsHandHistory)
  : PokerStarsHandHistory :=
  mk
    (raw h) (sections h) (_splitted h) (header_parsed h) (parsed h)
    (extra h) (ident h) (sb h) (bb h) (game_type h) (tournament_ident h)
    (tournament_level h) (buyin h) (rake h) (currency h) (game h) (limit h)
    (date h) (table_name h) (max_players h) (_table_match h) (players h)
    (button h) (hero h) (preflop_actions h) v (turn_actions h)
    (river_actions h) (show_down h) (total_pot h) (board h) (winners h).

Definition set_turn_actions (v : option (list PlayerAction)) (h : PokerStarsHandHistory)
  : PokerStarsHandHistory :=
  mk
    (raw h) (sections h) (_splitted h) (header_parsed h) (parsed h)
    (extra h) (ident h) (sb h) (bb h) (game_type h) (tournament_ident h)
    (tournament_level h) (buyin h) (rake h) (currency h) (game h) (limit h)
    (date h) (table_name h) (max_players h) (_table_match h) (players h)
    (button h) (hero h) (preflop_actions h) (flop h) v (river_actions h)
    (show_down h) (total_pot h) (board h) (winners h).

Definition set_river_actions (v : option (list PlayerAction)) (h : PokerStarsHandHistory)
  : PokerStarsHandHistory :=
  mk
    (raw h) (sections h) (_splitted h) (header_parsed h) (parsed h)
    (extra h) (ident h) (sb h) (bb h) (game_type h) (tournament_ident h)
    (tournament_level h) (buyin h) (rake h) (currency h) (game h) (limit h)
    (date h) (table_name h) (max_players h) (_table_match h) (players h)
    (button h) (hero h) (preflop_actions h) (flop h) (turn_actions h) v
    (show_down h) (total_pot h) (board h) (winners h).

Definition set_show_down (v : option bool) (h : PokerStarsHandHistory)
  : PokerStarsHandHistory :=
  mk
    (raw h) (sections h) (_splitted h) (header_parsed h) (parsed h)
    (extra h) (ident h) (sb h) (bb h) (game_type h) (tournament_ident h)
    (tournament_level h) (buyin h) (rake h) (currency h) (game h) (limit h)
    (date h) (table_name h) (max_players h) (_table_match h) (players h)
    (button h) (hero h) (preflop_actions h) (flop h) (turn_actions h)
    (river_actions h) v (total_pot h) (board h) (winners h).

Definition set_total_pot (v : option Decimal) (h : PokerStarsHandHistory)
  : PokerStarsHandHistory :=
  mk
    (raw h) (sections h) (_splitted h) (header_parsed h) (parsed h)
    (extra h) (ident h) (sb h) (bb h) (game_type h) (tournament_ident h)
    (tournament_level h) (buyin h) (rake h) (currency h) (game h) (limit h)
    (date h) (table_name h) (max_players h) (_table_match h) (players h)
    (button h) (hero h) (preflop_actions h) (flop h) (turn_actions h)
    (river_actions h) (show_down h) v (board h) (winners h).

Definition set_board (v : option (list card_t)) (h : PokerStarsHandHistory)
  : PokerStarsHandHistory :=
  mk
    (raw h) (sections h) (_splitted h) (header_parsed h) (parsed h)
    (extra h) (ident h) (sb h) (bb h) (game_type h) (tournament_ident h)
    (tournament_level h) (buyin h) (rake h) (currency h) (game h) (limit h)
    (date h) (table_name h) (max_players h) (_table_match h) (players h)
    (button h) (hero h) (preflop_actions h) (flop h) (turn_actions h)
    (river_actions h) (show_down h) (total_pot h) v (winners h).

Definition set_winners (v : option (list string)) (h : PokerStarsHandHistory)
  : PokerStarsHandHistory :=
  mk
    (raw h) (sections h) (_splitted h) (header_parsed h) (parsed h)
    (extra h) (ident h) (sb h) (bb h) (game_type h) (tournament_ident h)
    (tournament_level h) (buyin h) (rake h) (currency h) (game h) (limit h)
    (date h) (table_name h) (max_players h) (_table_match h) (players h)
    (button h) (hero h) (preflop_actions h) (flop h) (turn_actions h)
    (river_actions h) (show_down h) (total_pot h) (board h) v.

(** The patterns of the class.  [_header_re] is compiled with re.VERBOSE:
    white space in the pattern, the blanks written inside the date group
    included, and the comments are not part of it. *)
Definition _header_re : regex :=
  cats
    [Bol; Lit "PokerStars"; plus is_space;
     Lit "Hand"; plus is_space; Chr "#"; Grp "ident" (plus is_digit);
     Chr ":"; plus is_space;
     opt (Grp "2"
       (cats
          [Lit "Tournament"; plus is_space; Chr "#";
           Grp "tournament_ident" (plus is_digit); Chr ","; plus is_space;
           Alt (Grp "freeroll" (Lit "Freeroll"))
               (cats
                  [Chr "$"; Grp "buyin" number;
                   cats [Chr "+"; Chr "$"; opt (Grp "rake" number)];
                   opt (Cat (plus is_space) (Grp "currency" (plus is_upper)))]);
           plus is_space]));
     Grp "game" (plus_lazy is_dot); plus is_space;
     Grp "limit"
       (Cat (Alt (Cat (Lit "Pot") (plus is_space))
                 (Alt (Cat (Lit "No") (plus is_space)) Eps))
            (Lit "Limit"));
     plus is_space;
     opt (cats
            [Chr "-"; plus is_space; Lit "Level"; plus is_space;
             Grp "tournament_level" (plus not_space); plus is_space]);
     Chr "(";
     Alt (cats [Grp "sb" (plus is_digit); Chr "/"; Grp "bb" (plus is_digit)])
         (cats
            [Chr "$"; Grp "cash_sb" number; Chr "/"; opt (Chr "$");
             Grp "cash_bb" number;
             opt (Cat (plus is_space) (Grp "cash_currency" (plus not_space)))]);
     Chr ")"; plus is_space;
     Chr "-"; plus is_space;
     Grp "date"
       (cats
          [times 4 is_digit; Chr "/"; times 2 is_digit; Chr "/";
           times 2 is_digit; times 2 is_digit; Chr ":"; times 2 is_digit;
           Chr ":"; times 2 is_digit; times 2 is_word])].

(** [^Table '(?P<table_name>.+)' (?P<max_players>\d+)-max
     Seat #(?P<button>\d+) is the button$] *)
Definition _table_re : regex :=
  cats
    [Bol; Lit "Table '"; Grp "table_name" (plus is_dot); Lit "' ";
     Grp "max_players" (plus is_digit); Lit "-max Seat #";
     Grp "button" (plus is_digit); Lit " is the button"; Eol].

(** [^Seat (?P<seat>\d+): (?P<name>.+?)
     \(\$?(?P<stack>\d+(?:\.\d+)?) in chips\)$] *)
Definition _seat_re : regex :=
  cats
    [Bol; Lit "Seat "; Grp "seat" (plus is_digit); Lit ": ";
     Grp "name" (plus_lazy is_dot); Lit " ("; opt (Chr "$");
     Grp "stack" number; Lit " in chips)"; Eol].

(** [^Dealt to (?P<hero_name>.+?) \[(?P<card1>.{2}) (?P<card2>.{2})\]$] *)
Definition _hero_re : regex :=
  cats
    [Bol; Lit "Dealt to "; Grp "hero_name" (plus_lazy is_dot); Lit " [";
     Grp "card1" (times 2 is_dot); Chr " "; Grp "card2" (times 2 is_dot);
     Chr "]"; Eol].

(** [^Total pot \$?(?P<pot>\d+(?:\.\d+)?) \| Rake
     \$?(?P<rake>\d+(?:\.\d+)?)$] *)
Definition _pot_re : regex :=
  cats
    [Bol; Lit "Total pot "; opt (Chr "$"); Grp "pot" number; Lit " | Rake ";
     opt (Chr "$"); Grp "rake" number; Eol].

(** [^Seat \d+: (?P<name>.+?) collected
     \(\$?(?P<amount>\d+(?:\.\d+)?)\)$] *)
Definition _winner_re : regex :=
  cats
    [Bol; Lit "Seat "; plus is_digit; Lit ": "; Grp "name" (plus_lazy is_dot);
     Lit " collected ("; opt (Chr "$"); Grp "amount" number; Chr ")"; Eol].

(** [^Seat \d+: (?P<name>.+?) showed \[.+?\] and won$] *)
Definition _showdown_re : regex :=
  cats
    [Bol; Lit "Seat "; plus is_digit; Lit ": "; Grp "name" (plus_lazy is_dot);
     Lit " showed ["; plus_lazy is_dot; Lit "] and won"; Eol].

(** [\[([^\]]+)\]] *)
Definition _board_re : regex := Street.board_re.

Definition no_attribute (attr : string) : exn :=
  AttributeError ("'PokerStarsHandHistory' object has no attribute '"
                  +:+ attr +:+ "'").

(** [self.sections.get(key, "").strip().split('\n')] *)
Definition section_lines (h : PokerStarsHandHistory) (key : string)
    : list string :=
  Str.lines (Str.strip (default EmptyString (sections h !! key))).

(** Modelled from the spec: [_split_raw] of the splitting mixin, which is
    not part of this module.  It splits the raw text at [_split_re], the
    literal [***], so that "any text before the first marker" is the
    first piece. *)
Definition _split_raw : M PokerStarsHandHistory unit :=
  modify (fun h => set__splitted (Some (Str.split_str "***" 0 (raw h))) h).

(** Modelled from the spec: [_del_split_vars] of the same mixin:
    "Finalize discards any intermediate working buffers". *)
Definition _del_split_vars : M PokerStarsHandHistory unit :=
  modify (set__splitted None).

Definition header_error : string := "Header does not match expected format.".
Definition table_error : string :=
  "Table section does not match expected format.".

Definition parse_header : M PokerStarsHandHistory unit :=
  _split_raw ;;
  h <- get ;;
  splitted <- expect (_splitted h) (no_attribute "_splitted") ;;
  first <- expect (splitted !! 0%nat) list_index_error ;;
  header_section <-
    expect (Str.lines (Str.strip first) !! 0%nat) list_index_error ;;
  match Re.match_ _header_re header_section with
  | None =>
      logging ERROR header_error ;;
      raise (RuntimeError header_error)
  | Some m =>
      modify (set_extra (Some ∅)) ;;
      modify (set_ident (group m "ident")) ;;
      (* Blinds *)
      sb_ <- Decimal_ (default "0.00"
               (Str.or_else (group m "sb") (group m "cash_sb"))) ;;
      modify (set_sb (Some sb_)) ;;
      bb_ <- Decimal_ (default "0.00"
               (Str.or_else (group m "bb") (group m "cash_bb"))) ;;
      modify (set_bb (Some bb_)) ;;
      (* Tournament or cash game *)
      currency0 <-
        (if Str.truthy (group m "tournament_ident") then
           modify (set_game_type (Some TOUR)) ;;
           modify (set_tournament_ident (group m "tournament_ident")) ;;
           modify (set_tournament_level (group m "tournament_level")) ;;
           buyin_ <- Decimal_ (default "0.00"
                       (Str.or_else (group m "buyin") None)) ;;
           modify (set_buyin (Some buyin_)) ;;
           rake_ <- Decimal_ (default "0.00"
                      (Str.or_else (group m "rake") None)) ;;
           modify (set_rake (Some rake_)) ;;
           ret (group m "currency")
         else
           modify (set_game_type (Some CASH)) ;;
           modify (set_tournament_ident None) ;;
           modify (set_tournament_level None) ;;
           modify (set_buyin None) ;;
           modify (set_rake None) ;;
           ret (group m "cash_currency")) ;;
      (* Currency and money type *)
      let currency1 :=
        if Str.truthy (group m "freeroll") && negb (Str.truthy currency0)
        then Some "USD" else currency0 in
      (if negb (Str.truthy currency1) then
         modify (set_extra (Some {["money_type" := PLAY]})) ;;
         modify (set_currency None)
       else
         modify (set_extra (Some {["money_type" := REAL]})) ;;
         match Currency (default EmptyString currency1) with
         | Some c => modify (set_currency (Some c))
         | None =>
             logging ERROR ("Unknown currency: "
                            +:+ default EmptyString currency1) ;;
             modify (set_currency None)
         end) ;;
      (* Game and limit *)
      let game_str := Str.upper (grp m "game") in
      (match Game game_str with
       | Some g => modify (set_game (Some g))
       | None =>
           logging ERROR ("Unknown game type: " +:+ game_str) ;;
           modify (set_game (Some Game_UNKNOWN))
       end) ;;
      let limit_str := Str.upper (grp m "limit") in
      (match Limit (Str.replace_char " " "_" limit_str) with
       | Some g => modify (set_limit (Some g))
       | None =>
           logging ERROR ("Unknown limit type: " +:+ limit_str) ;;
           modify (set_limit (Some Limit_UNKNOWN))
       end) ;;
      (* Date *)
      let date_str := grp m "date" in
      (match parse_date date_str with
       | inr d => modify (set_date (Some d))
       | inl e =>
           logging ERROR ("Error parsing date: " +:+ exn_str e
                          +:+ ", Date String: " +:+ date_str) ;;
           modify (set_date None)
       end) ;;
      modify (set_header_parsed true)
  end.

Definition _parse_table : M PokerStarsHandHistory unit :=
  try_
    (h <- get ;;
     table_section <-
       expect (section_lines h "HEADER" !! 0%nat) list_index_error ;;
     match Re.match_ _table_re table_section with
     | None =>
         logging ERROR table_error ;;
         raise (RuntimeError table_error)
     | Some m =>
         modify (set_table_name (Some (grp m "table_name"))) ;;
         modify (set_max_players (Some (Str.to_Z (grp m "max_players"))))
     end)
    (fun e =>
       logging ERROR ("Error parsing table section: " +:+ exn_str e) ;;
       raise e).

Definition get_players : M PokerStarsHandHistory (list Player) :=
  h <- get ;; expect (players h) (no_attribute "players").

Fixpoint seat_loop (players_section : list string)
    : M PokerStarsHandHistory unit :=
  match players_section with
  | [] => ret tt
  | line :: rest =>
      match Re.match_ _seat_re (Str.strip line) with
      | None => ret tt  (* break: end of players section *)
      | Some m =>
          let seat_ := Str.to_Z (grp m "seat") in
          let name_ := grp m "name" in
          stack_ <- Decimal_ (grp m "stack") ;;
          roster <- get_players ;;
          roster' <- assign roster (seat_ - 1)
                       (mkPlayer name_ stack_ seat_ None) ;;
          modify (set_players (Some roster')) ;;
          seat_loop rest
      end
  end.

Definition _parse_players : M PokerStarsHandHistory unit :=
  try_
    (h <- get ;;
     let players_section := drop 1 (section_lines h "HEADER") in
     n <- expect (max_players h) (no_attribute "max_players") ;;
     modify (set_players (Some (_init_seats n))) ;;
     seat_loop players_section)
    (fun e =>
       logging ERROR ("Error parsing players section: " +:+ exn_str e) ;;
       raise e).

Definition _parse_button : M PokerStarsHandHistory unit :=
  try_
    (h <- get ;;
     tm <- expect (_table_match h) (no_attribute "_table_match") ;;
     let button_seat := Str.to_Z (grp tm "button") in
     roster <- get_players ;;
     i <- expect (py_index (length roster) (button_seat - 1))
            (index_error (button_seat - 1)) ;;
     modify (set_button (Some i)))
    (fun e =>
       logging ERROR ("Error identifying button: " +:+ exn_str e) ;;
       modify (set_button None)).

(** Position of the first element satisfying [p] ([list.index]). *)
Fixpoint index_where {A} (p : A -> bool) (l : list A) : option nat :=
  match l with
  | [] => None
  | x :: l' => if p x then Some 0%nat else S <$> index_where p l'
  end.

(** Modelled from the spec: [_get_hero_from_players] of the base hand
    history, which is not part of this module: "the named player is
    located in the roster by name". *)
Definition _get_hero_from_players (hero_name : string)
    : M PokerStarsHandHistory (Player * nat) :=
  roster <- get_players ;;
  i <- expect (index_where (fun p => String.eqb (name p) hero_name) roster)
         (ValueError ("'" +:+ hero_name +:+ "' is not in list")) ;;
  p <- expect (roster !! i) list_index_error ;;
  ret (p, i).

Definition none_has_no_name : exn :=
  AttributeError "'NoneType' object has no attribute 'name'".

Fixpoint hero_loop (header_lines : list string)
    : M PokerStarsHandHistory unit :=
  match header_lines with
  | [] => modify (set_hero None)  (* no "Dealt to" line *)
  | line :: rest =>
      match Re.match_ _hero_re (Str.strip line) with
      | Some m =>
          let hero_name := grp m "hero_name" in
          let card1 := grp m "card1" in
          let card2 := grp m "card2" in
          hi <- _get_hero_from_players hero_name ;;
          let '(hero_, hero_index) := hi in
          c <- of_result (Combo (card1 +:+ card2)) ;;
          (* hero.combo = c, on the player object of the roster *)
          roster <- get_players ;;
          let hero' := mkPlayer (name hero_) (stack hero_) (seat hero_)
                                (Some c) in
          modify (set_players (Some (<[hero_index := hero']> roster))) ;;
          modify (set_hero (Some hero_index)) ;;
          h <- get ;;
          b <- expect (button h) none_has_no_name ;;
          bp <- expect (<[hero_index := hero']> roster !! b)
                  list_index_error ;;
          if String.eqb (name bp) (name hero')
          then modify (set_button (Some hero_index))
          else ret tt
      | None => hero_loop rest
      end
  end.

Definition _parse_hero : M PokerStarsHandHistory unit :=
  try_
    (h <- get ;; hero_loop (section_lines h "HEADER"))
    (fun e =>
       logging ERROR ("Error parsing hero information: " +:+ exn_str e) ;;
       modify (set_hero None)).

Fixpoint preflop_loop (preflop_section : list string) : list string :=
  match preflop_section with
  | [] => []
  | line :: rest =>
      if Str.startswith "***" (Str.upper line) then []
      else Str.strip line :: preflop_loop rest
  end.

Definition _parse_preflop : M PokerStarsHandHistory unit :=
  try_
    (h <- get ;;
     let preflop_section := drop 1 (section_lines h "HOLE_CARDS") in
     let preflop_actions_ := preflop_loop preflop_section in
     modify (set_preflop_actions
               (match preflop_actions_ with
                | [] => None
                | _ => Some preflop_actions_
                end)))
    (fun e =>
       logging ERROR ("Error parsing preflop actions: " +:+ exn_str e) ;;
       modify (set_preflop_actions None)).

(** [_Street(section_lines)]: the street is given the lines and nothing
    else, so it has no [players] of its own. *)
Definition new_street (section_lines : list string)
    : M PokerStarsHandHistory Street._Street :=
  fun h l =>
    match Street.new None section_lines l with
    | Ok _ s l' => Ok s h l'
    | Raise e _ l' => Raise e h l'
    end.

Definition _parse_flop : M PokerStarsHandHistory unit :=
  try_
    (h <- get ;;
     match sections h !! "FLOP" with
     | None => modify (set_flop None)
     | Some flop_section =>
         street <- new_street (Str.lines (Str.strip flop_section)) ;;
         modify (set_flop (Some street))
     end)
    (fun e =>
       logging ERROR ("Error parsing flop section: " +:+ exn_str e) ;;
       modify (set_flop None)).

(** [setattr(self, f"{street.lower()}_actions", v)] for the two streets
    [parse] names. *)
Definition set_street_actions (street : string)
    (v : option (list PlayerAction)) : M PokerStarsHandHistory unit :=
  if String.eqb (Str.lower street) "turn" then modify (set_turn_actions v)
  else if String.eqb (Str.lower street) "river"
       then modify (set_river_actions v)
       else ret tt.

Definition _parse_street (street : string) : M PokerStarsHandHistory unit :=
  try_
    (h <- get ;;
     let street_key := Str.upper street in
     match sections h !! street_key with
     | None => set_street_actions street None
     | Some sec =>
         street_obj <- new_street (Str.lines (Str.strip sec)) ;;
         set_street_actions street (Street.actions street_obj)
     end)
    (fun e =>
       logging ERROR ("Error parsing " +:+ street +:+ " section: "
                      +:+ exn_str e) ;;
       set_street_actions street None).

Definition _parse_showdown : M PokerStarsHandHistory unit :=
  try_
    (h <- get ;;
     modify (set_show_down
               (Some (bool_decide (is_Some (sections h !! "SHOW_DOWN"))))))
    (fun e =>
       logging ERROR ("Error parsing showdown: " +:+ exn_str e) ;;
       modify (set_show_down (Some false))).

Definition set_pot_and_rake (p r : Decimal) : M PokerStarsHandHistory unit :=
  modify (set_total_pot (Some p)) ;; modify (set_rake (Some r)).

Fixpoint pot_loop (summary_section : list string)
    : M PokerStarsHandHistory unit :=
  match summary_section with
  | [] => set_pot_and_rake zero2 zero2  (* no pot line *)
  | line :: rest =>
      match Re.match_ _pot_re (Str.strip line) with
      | Some m =>
          p <- Decimal_ (grp m "pot") ;;
          modify (set_total_pot (Some p)) ;;
          r <- Decimal_ (grp m "rake") ;;
          modify (set_rake (Some r))
      | None => pot_loop rest
      end
  end.

Definition _parse_pot : M PokerStarsHandHistory unit :=
  try_
    (h <- get ;;
     match sections h !! "SUMMARY" with
     | None => set_pot_and_rake zero2 zero2
     | Some sec => pot_loop (Str.lines (Str.strip sec))
     end)
    (fun e =>
       logging ERROR ("Error parsing pot information: " +:+ exn_str e) ;;
       set_pot_and_rake zero2 zero2).

Fixpoint board_loop (summary_section : list string)
    : M PokerStarsHandHistory unit :=
  match summary_section with
  | [] => modify (set_board None)
  | line :: rest =>
      match Re.search _board_re line with
      | Some m =>
          cs <- mapM (fun c => of_result (Card c))
                  (Str.split_ws (grp m "1")) ;;
          modify (set_board (Some cs))
      | None => board_loop rest
      end
  end.

Definition _parse_board : M PokerStarsHandHistory unit :=
  try_
    (h <- get ;;
     match sections h !! "SUMMARY" with
     | None => modify (set_board None)
     | Some sec => board_loop (Str.lines (Str.strip sec))
     end)
    (fun e =>
       logging ERROR ("Error parsing board cards: " +:+ exn_str e) ;;
       modify (set_board None)).

(** The name a summary line adds to the winners, if any. *)
Definition winner_of_line (line : string) : option string :=
  match Re.match_ _winner_re (Str.strip line) with
  | Some m => Some (grp m "name")
  | None =>
      match Re.match_ _showdown_re (Str.strip line) with
      | Some m => Some (grp m "name")
      | None => None
      end
  end.

Fixpoint winners_loop (summary_section : list string) (winners_ : gset string)
    : gset string :=
  match summary_section with
  | [] => winners_
  | line :: rest =>
      match winner_of_line line with
      | Some n => winners_loop rest ({[n]} ∪ winners_)
      | None => winners_loop rest winners_
      end
  end.

(** [tuple(winners)]: the names of the set, each once.  Python leaves the
    order of a set unspecified; the list is in the order of [elements]. *)
Definition _parse_winners : M PokerStarsHandHistory unit :=
  try_
    (h <- get ;;
     match sections h !! "SUMMARY" with
     | None => modify (set_winners (Some []))
     | Some sec =>
         let winners_ := winners_loop (Str.lines (Str.strip sec)) ∅ in
         modify (set_winners (Some (elements winners_)))
     end)
    (fun e =>
       logging ERROR ("Error parsing winners: " +:+ exn_str e) ;;
       modify (set_winners (Some []))).

Definition parse : M PokerStarsHandHistory unit :=
  h <- get ;;
  (if header_parsed h then ret tt else parse_header) ;;
  _parse_table ;;
  _parse_players ;;
  _parse_button ;;
  _parse_hero ;;
  _parse_preflop ;;
  _parse_flop ;;
  _parse_street "turn" ;;
  _parse_street "river" ;;
  _parse_showdown ;;
  _parse_pot ;;
  _parse_board ;;
  _parse_winners ;;
  _del_split_vars ;;
  modify (set_parsed true).

(** Modelled from the spec: the constructor of the base hand history,
    which is not part of this module.  A fresh object holds the raw text
    and the section map, and neither stage has run. *)
Definition new (hand_text : string) (sections_ : gmap string string)
    : PokerStarsHandHistory :=
  mk hand_text sections_ None false false None None None None
     None None None None None None None None None None None None None None
     None None None None None None None None None.

(** A parse from a fresh object and an empty log. *)
Definition run (hand_text : string) (sections_ : gmap string string)
    : outcome PokerStarsHandHistory unit :=
  parse (new hand_text sections_) [].

End Hand.
End Hand.

(** A vocabulary to run the parser on: every value is the text it was
    read from; a card is two characters and a combination four. *)
#[local] Instance text_vocabulary : Vocabulary := {|
  card_t := string;
  Card := fun s => if Nat.eqb (Str.len s) 2 then inr s else inl (ValueError s);
  combo_t := string;
  Combo := fun s => if Nat.eqb (Str.len s) 4 then inr s else inl (ValueError s);
  currency_t := string;
  Currency := fun s => Some s;
  game_t := string;
  Game := fun s => Some s;
  Game_UNKNOWN := "UNKNOWN";
  limit_t := string;
  Limit := fun s => Some s;
  Limit_UNKNOWN := "UNKNOWN";
  datetime_t := string;
  parse_date := fun s => inr s
|}.


(** The transcript of the cash-game scenario: header, table and one seat
    line. *)
Definition nl : string := String newline EmptyString.
Definition scenario_header : string :=
  "PokerStars Hand #1: Hold'em No Limit ($0.01/$0.02) - 2020/01/01 12:00:00 ET".
Definition scenario_table : string := "Table 'T1' 6-max Seat #1 is the button".
Definition scenario_seat : string := "Seat 1: A ($2.00 in chips)".
Definition scenario_transcript : string :=
  scenario_header +:+ nl +:+ scenario_table +:+ nl +:+ scenario_seat.

(** The same header with the date written as the pattern takes it. *)
Definition packed_header : string :=
  "PokerStars Hand #1: Hold'em No Limit ($0.01/$0.02) - 2020/01/0112:00:00ET".

(** * Notions used in the statements *)

(** ** What a pattern can consume and bind *)

Module ReLang.

(** The texts a pattern can consume, looked at without their context
    (the anchors consume nothing). *)
Fixpoint lang (r : regex) (v : string) : Prop :=
  match r with
  | Eps | Bol | Eol => v = EmptyString
  | Chr a => v = String a EmptyString
  | Lit w => v = w
  | Cls p => exists a, v = String a EmptyString /\ p a = true
  | Cat r1 r2 => exists v1 v2, v = v1 +:+ v2 /\ lang r1 v1 /\ lang r2 v2
  | Alt r1 r2 => lang r1 v \/ lang r2 v
  | Rep _ lo p => Str.all p v = true /\ (lo <= Str.len v)%nat
  | Grp _ r1 => lang r1 v
  end.

(** The sub-patterns of the groups called [n]. *)
Fixpoint groups_named (n : string) (r : regex) : list regex :=
  match r with
  | Grp m r1 => (if String.eqb m n then [r1] else []) ++ groups_named n r1
  | Cat r1 r2 | Alt r1 r2 => groups_named n r1 ++ groups_named n r2
  | _ => []
  end.

(** The groups every match of a pattern binds: those not under an
    alternative. *)
Fixpoint must_bind (r : regex) : list string :=
  match r with
  | Grp n r1 => n :: must_bind r1
  | Cat r1 r2 => must_bind r1 ++ must_bind r2
  | _ => []
  end.

(** [n] is bound to a text one of its groups can consume. *)
Definition binds (r : regex) (n v : string) : Prop :=
  exists g, In g (groups_named n r) /\ lang g v.

End ReLang.

(** ** Steps: returning, and keeping an invariant *)

Section StepNotions.
Context {S : Type}.

(** A step that always returns. *)
Definition total {A} (m : M S A) : Prop :=
  forall s l, exists a s' l', m s l = Ok a s' l'.

(** [P] before; [Q] on return, [R] on raise. *)
Definition triple {A} (P : S -> Prop) (m : M S A)
    (Q : A -> S -> Prop) (R : S -> Prop) : Prop :=
  forall s l, P s ->
    match m s l with
    | Ok a s' _ => Q a s'
    | Raise _ s' _ => R s'
    end.

(** A step that keeps an invariant, however it ends. *)
Definition keeps {A} (P : S -> Prop) (m : M S A) : Prop :=
  triple P m (fun _ => P) P.

(** Stages run one after the other. *)
Fixpoint run_stages (ms : list (M S unit)) : M S unit :=
  match ms with
  | [] => ret tt
  | m :: ms' => m ;; run_stages ms'
  end.

End StepNotions.

(** The object and the log an outcome leaves. *)
Definition state_of {S A} (o : outcome S A) : S :=
  match o with Ok _ s _ | Raise _ s _ => s end.
Definition log_of {S A} (o : outcome S A) : Log :=
  match o with Ok _ _ l | Raise _ _ l => l end.

(** ** Amounts and uncalled-bet lines *)

(** The fraction of an amount as it is written. *)
Definition frac_text (fp : option string) : string :=
  match fp with
  | Some f => String "." f
  | None => EmptyString
  end.

Definition frac_digits (fp : option string) : string := default EmptyString fp.

(** A non-empty run of digits. *)
Definition digit_run (s : string) : Prop :=
  s <> EmptyString /\ Str.all is_digit s = true.

(** The characters of an amount without its dollar sign. *)
Definition is_numchar (c : ascii) : bool := is_digit c || Ascii.eqb c ".".

(** An amount as a transcript writes it: an optional dollar sign, digits
    and an optional fraction. *)
Definition amount_text (dollar : bool) (ip : string) (fp : option string)
    : string :=
  (if dollar then "$" else EmptyString) +:+ ip +:+ frac_text fp.

(** Where a text ends for the class [p]: at its end or at a character
    outside [p]. *)
Definition stops (p : ascii -> bool) (r : string) : Prop :=
  match r with
  | String c _ => p c = false
  | EmptyString => True
  end.

(** The line of an uncalled bet returned to [recipient]. *)
Definition uncalled_line (amount recipient : string) : string :=
  "Uncalled bet (" +:+ amount +:+ ") returned to " +:+ recipient.

Definition esayy_line : string := "Uncalled bet ($0.40) returned to EsAyy".

Definition esayy_return : PlayerAction :=
  mkAction "EsAyy" RETURN (Some (Fin false 40 (-2))).

(** ** The lines and the stages of a hand *)

Section HandNotions.
Context `{V : Vocabulary}.

Import Hand.

(** The line [parse_header] matches: the first line of the text before
    the first [***]. *)
Definition header_line (hand_text : string) : string :=
  default EmptyString
    (Str.lines
       (Str.strip
          (default EmptyString
             (Str.split_str "***" 0 hand_text !! 0%nat)))
     !! 0%nat).

(** The line [_parse_table] matches: the first line of the HEADER
    section. *)
Definition table_line (sections_ : gmap string string) : string :=
  default EmptyString
    (Str.lines (Str.strip (default EmptyString (sections_ !! "HEADER")))
     !! 0%nat).

(** Whether a line carries the hand identity the way the header grammar
    wants it: [PokerStars], blanks, [Hand], blanks, [#], at least one
    digit and a colon. *)
Definition has_hand_ident (line : string) : bool :=
  match Str.drop_prefix "PokerStars" line with
  | None => false
  | Some r1 =>
      let '(ws1, r2) := Str.span is_space r1 in
      match Str.drop_prefix "Hand" r2 with
      | None => false
      | Some r3 =>
          let '(ws2, r4) := Str.span is_space r3 in
          match r4 with
          | String "#" r5 =>
              let '(ident_, r6) := Str.span is_digit r5 in
              negb (Str.is_empty ws1) && negb (Str.is_empty ws2)
              && negb (Str.is_empty ident_) && Str.startswith ":" r6
          | _ => false
          end
      end
  end.

(** What the stages after the header rely on: the section map, and that
    nothing has stored a table match. *)
Definition header_done (sections_ : gmap string string)
    (h : PokerStarsHandHistory) : Prop :=
  sections h = sections_ /\ _table_match h = None /\ header_parsed h = true.

(** The roster has as many seats as the table line announced. *)
Definition roster_ok (n : Z) (h : PokerStarsHandHistory) : Prop :=
  max_players h = Some n
  /\ exists r, players h = Some r /\ length r = Z.to_nat n.

(** The state the stages after the roster work on. *)
Definition seated (sections_ : gmap string string) (n : Z)
    (h : PokerStarsHandHistory) : Prop :=
  header_done sections_ h /\ roster_ok n h.

(** The state after the button stage: the seats and who sits in them
    are settled, and the button is unresolved. *)
Definition settled (sections_ : gmap string string) (n : Z)
    (names : list string) (h : PokerStarsHandHistory) : Prop :=
  header_done sections_ h /\ max_players h = Some n
  /\ (exists r, players h = Some r /\ name <$> r = names)
  /\ button h = None.

(** The stages from the hero on, in the order [parse] runs them. *)
Definition street_stages : list (M PokerStarsHandHistory unit) :=
  [_parse_hero; _parse_preflop; _parse_flop; _parse_street "turn";
   _parse_street "river"; _parse_showdown].

Definition summary_stages : list (M PokerStarsHandHistory unit) :=
  [_parse_pot; _parse_board; _parse_winners].

Definition final_stages : list (M PokerStarsHandHistory unit) :=
  [_del_split_vars; modify (set_parsed true)].

Definition late_stages : list (M PokerStarsHandHistory unit) :=
  street_stages ++ summary_stages ++ final_stages.

(** [parse] cut after the roster and button stages and [k] of the later
    ones. *)
Definition parse_upto (k : nat) : M PokerStarsHandHistory unit :=
  parse_header ;; _parse_table ;; _parse_players ;; _parse_button ;;
  run_stages (take k late_stages).

(** The object the roster stage works on, after a matching table line. *)
Definition with_table (mt : caps) (h : PokerStarsHandHistory)
    : PokerStarsHandHistory :=
  set_max_players (Some (Str.to_Z (grp mt "max_players")))
    (set_table_name (Some (grp mt "table_name")) h).

Definition table_log (l : Log) : Log :=
  (l ++ [(ERROR, table_error)])
  ++ [(ERROR, "Error parsing table section: " +:+ table_error)].

(** What the summary stages leave when there is no SUMMARY section. *)
Definition summary_defaults (h : PokerStarsHandHistory) : Prop :=
  total_pot h = Some zero2 /\ rake h = Some zero2
  /\ board h = None /\ winners h = Some [].

End HandNotions.

(** ** Transcripts to run the parser on *)

Section ExampleTexts.

Import Hand.

(** A transcript whose header matches and whose table line is
    misspelled, with the HEADER section first as the lines after the
    header line and then as all the text before the first marker. *)
Definition bad_table : string := "Tabel 'T1' 6-max Seat #1 is the button".

Definition bad_table_text : string :=
  packed_header +:+ nl +:+ bad_table +:+ nl +:+ scenario_seat.

Definition bad_table_sections : gmap string string :=
  {["HEADER" := bad_table +:+ nl +:+ scenario_seat]}.


(** A transcript that parses: header, table line and one seat line. *)
Definition good_text : string :=
  packed_header +:+ nl +:+ scenario_table +:+ nl +:+ scenario_seat.

Definition good_sections : gmap string string :=
  {["HEADER" := scenario_table +:+ nl +:+ scenario_seat]}.

(** A header line without the digits of the hand identity. *)
Definition no_ident_text : string :=
  "PokerStars Hand #: Hold'em No Limit ($0.01/$0.02) - 2020/01/0112:00:00ET".

(** A summary that names A as winner twice, once in each shape. *)
Definition twice_summary : string :=
  "Seat 1: A collected ($1.00)" +:+ nl +:+ "Seat 1: A showed [Ah Kd] and won".

Definition twice_hand : PokerStarsHandHistory :=
  new EmptyString {["SUMMARY" := twice_summary]}.

(** A street that holds a roster of three empty seats. *)
Definition three_seats : Street._Street :=
  Street.init (Some (_init_seats 3)).

(** A transcript in which Bob joins the empty second seat of a table of
    two during the flop. *)
Definition join_table : string := "Table 'T1' 2-max Seat #1 is the button".
Definition join_line : string := "Bob joins the table at seat #2".
Definition join_flop : string :=
  "*** FLOP *** [4c Js 7c]" +:+ nl +:+ join_line +:+ nl +:+ "A: bet $0.10".

Definition join_sections : gmap string string :=
  {["HEADER" := join_table +:+ nl +:+ scenario_seat; "FLOP" := join_flop]}.

Definition join_text : string :=
  packed_header +:+ nl +:+ join_table +:+ nl +:+ scenario_seat +:+ nl
  +:+ join_flop.

(** The entry a join line leaves in the log when handling it fails with
    the exception whose text is [e]. *)
Definition join_error_entry (e line : string) : severity * string :=
  (ERROR, "Error handling player join: " +:+ e +:+ ", Line: " +:+ line).

(** The outcome of the whole chain of stages on the transcript that
    parses. *)
Definition good_outcome : outcome PokerStarsHandHistory unit :=
  parse_upto 11 (new good_text good_sections) [].

End ExampleTexts.

(** ** Patterns without groups, and the lines of a street *)

Module ReShape.

(** A pattern with no capturing group in it. *)
Fixpoint groupless (r : regex) : bool :=
  match r with
  | Grp _ _ => false
  | Cat r1 r2 | Alt r1 r2 => groupless r1 && groupless r2
  | _ => true
  end.

End ReShape.

(** A line with a bracket group: [pre], [body] in brackets, [post]. *)
Definition board_line (pre body post : string) : string :=
  pre +:+ "[" +:+ body +:+ "]" +:+ post.

(** The cards a street holds after [_parse_cards] read the tokens that
    [cs] are the cards of. *)
Definition with_cards `{V : Vocabulary} (cs : list card_t)
    (s : Street._Street) : Street._Street :=
  Street.set_river (cs !! 4%nat)
    (Street.set_turn (cs !! 3%nat) (Street.set_cards (Some (take 3 cs)) s)).

(** A non-empty run of word characters, the texts of [\w+]. *)
Definition word_run (s : string) : Prop :=
  s <> EmptyString /\ Str.all is_word s = true.

(** [name collected $amount from pot], and whatever follows. *)
Definition collected_line (name amount tail : string) : string :=
  name +:+ " collected $" +:+ amount +:+ " from pot" +:+ tail.

(** [name: way], and whatever follows; [way] is one of the two ways a
    hand is not shown. *)
Definition muck_line (name way tail : string) : string :=
  name +:+ ": " +:+ way +:+ tail.

Definition muck_way (way : string) : Prop :=
  way = "doesn't show hand" \/ way = "mucks".

(** The decimal an amount text stands for. *)
Definition amount_value (ip : string) (fp : option string) : Decimal :=
  Fin false (Str.to_N (ip +:+ frac_digits fp))
            (- Z.of_nat (Str.len (frac_digits fp))).

(** A token of [str.split()]: a non-empty run without white space. *)
Definition token (t : string) : Prop :=
  t <> EmptyString /\ Str.all not_space t = true.

(** The amount [_parse_player_action] reads from a token: its decimal
    once [$] and [,] are taken out, or nothing when that is no number. *)
Definition token_amount (tok : string) : option Decimal :=
  Dec.of_string (Str.remove_char "," (Str.remove_char "$" tok)).

(** The actions [_parse_player_action] can give. *)
Definition keyword_actions : list Action :=
  [ALL_IN; BET; CALL; CHECK; FOLD; RAISE; POSTS].

Definition index_error_entry (line : string) : severity * string :=
  (ERROR, "Error parsing player action: list index out of range, Line: "
          +:+ line).

(** Two states of a street with the same cards. *)
Definition same_cards `{V : Vocabulary} (s s' : Street._Street) : Prop :=
  Street.cards s' = Street.cards s /\ Street.turn s' = Street.turn s
  /\ Street.river s' = Street.river s.

(** ** The header and the later stages *)

Section MoreHandNotions.
Context `{V : Vocabulary}.

Import Hand.

(** What the header stage leaves on return: the identity, the blinds,
    game and limit are there; a tournament has its number, buy-in and
    rake, a cash game has none of them; and play money has no
    currency. *)
Definition header_consistent (h : PokerStarsHandHistory) : Prop :=
  header_parsed h = true
  /\ (exists ds, ident h = Some ds /\ digit_run ds)
  /\ is_Some (sb h) /\ is_Some (bb h)
  /\ is_Some (game h) /\ is_Some (limit h)
  /\ match game_type h with
     | Some TOUR =>
         (exists ds, tournament_ident h = Some ds /\ digit_run ds)
         /\ is_Some (buyin h) /\ is_Some (rake h)
     | Some CASH =>
         tournament_ident h = None /\ tournament_level h = None
         /\ buyin h = None /\ rake h = None
     | None => False
     end
  /\ match extra h with
     | Some e =>
         (e = {["money_type" := PLAY]} /\ currency h = None)
         \/ e = {["money_type" := REAL]}
     | None => False
     end.

(** The seat numbers of the seat run: those of the lines up to the
    first one that is no seat line. *)
Fixpoint seat_numbers (players_section : list string) : list Z :=
  match players_section with
  | [] => []
  | line :: rest =>
      match Re.match_ _seat_re (Str.strip line) with
      | None => []
      | Some m => Str.to_Z (grp m "seat") :: seat_numbers rest
      end
  end.

(** A seat number a roster of [n] seats has a place for: 1 to [n], and
    0, which counts from the end and is the last seat.  Its position
    must be a machine-sized index too, which below 2^63 seats every
    position of the roster is. *)
Definition seat_in_range (n : nat) (k : Z) : Prop :=
  ((1 <= k <= Z.of_nat n)%Z \/ (k = 0%Z /\ (0 < n)%nat))
  /\ (k <= 2 ^ 63)%Z.

(** The IndexError of a seat number without a place: the assignment is
    out of range, or the position is no machine-sized index at all. *)
Definition seat_error (k : Z) : exn :=
  if (k <=? 2 ^ 63)%Z then list_assign_error else index_size_error.

(** Every player sits at the position of the seat number it records;
    seat number 0 sits at the last position. *)
Definition seats_aligned (r : list Player) : Prop :=
  forall i p, r !! i = Some p ->
    seat p = (Z.of_nat i + 1)%Z \/ (seat p = 0%Z /\ S i = length r).




(** A predicate on the hand that the stages after the hero stage cannot
    change: it does not look at what they assign. *)
Definition stable_after_hero (P : PokerStarsHandHistory -> Prop) : Prop :=
  forall h, P h ->
    (forall v, P (set_preflop_actions v h))
    /\ (forall v, P (set_flop v h))
    /\ (forall v, P (set_turn_actions v h))
    /\ (forall v, P (set_river_actions v h))
    /\ (forall v, P (set_show_down v h))
    /\ (forall v, P (set_total_pot v h))
    /\ (forall v, P (set_rake v h))
    /\ (forall v, P (set_board v h))
    /\ (forall v, P (set_winners v h))
    /\ (forall v, P (set__splitted v h))
    /\ (forall v, P (set_parsed v h)).

(** A table line: name, number of seats and button seat. *)
Definition table_text (name seats button_ : string) : string :=
  "Table '" +:+ name +:+ "' " +:+ seats +:+ "-max Seat #" +:+ button_
  +:+ " is the button".

(** A seat line: seat number, name and stack. *)
Definition seat_text (seat_ name stack_ : string) : string :=
  "Seat " +:+ seat_ +:+ ": " +:+ name +:+ " (" +:+ stack_ +:+ " in chips)".

(** The two lines of a summary that name a winner. *)
Definition collected_summary (seat_ name amount : string) : string :=
  "Seat " +:+ seat_ +:+ ": " +:+ name +:+ " collected (" +:+ amount +:+ ")".

Definition showed_summary (seat_ name cards_ : string) : string :=
  "Seat " +:+ seat_ +:+ ": " +:+ name +:+ " showed [" +:+ cards_
  +:+ "] and won".

(** What the header stage reads and no later stage assigns. *)
Definition header_view (h : PokerStarsHandHistory) :=
  (ident h, sb h, bb h, game_type h, tournament_ident h, tournament_level h,
   buyin h, currency h, game h, limit h, date h, extra h).

(** What [_parse_preflop] stores for the lines it has collected. *)
Definition stored_lines (xs : list string) : option (list string) :=
  match xs with
  | [] => None
  | _ => Some xs
  end.

(** What [parse] runs once the header is read. *)
Definition after_header : M PokerStarsHandHistory unit :=
  _parse_table ;; _parse_players ;; _parse_button ;; run_stages late_stages.

End MoreHandNotions.

(** [Total pot <pot> | Rake <rake>], the pot line of a summary. *)
Definition pot_line (pot_ rake_ : string) : string :=
  "Total pot " +:+ pot_ +:+ " | Rake " +:+ rake_.

(** A complete pot line: the two amounts, and nothing before or after. *)
Definition is_pot_line (x : string) : Prop :=
  exists d1 ip1 fp1 d2 ip2 fp2,
    digit_run ip1 /\ (forall f, fp1 = Some f -> digit_run f)
    /\ digit_run ip2 /\ (forall f, fp2 = Some f -> digit_run f)
    /\ x = pot_line (amount_text d1 ip1 fp1) (amount_text d2 ip2 fp2).

(** A line with a bracket group: an opening bracket, at least one
    character that is no closing bracket, and the closing bracket. *)
Definition has_bracket_group (x : string) : Prop :=
  exists p body q,
    x = board_line p body q /\ body <> EmptyString
    /\ Str.contains "]" body = false.

(** A text in which no bracket group can start: each of its opening
    brackets is closed at once. *)
Definition opens_no_group (p : string) : Prop :=
  forall a b, p = a +:+ "[" +:+ b -> Str.startswith "]" b = true.

(** After [pre], the line goes on with an amount in parentheses. *)
Definition paren_amount_at (pre line : string) : Prop :=
  exists dollar ip fp post,
    digit_run ip /\ (forall f, fp = Some f -> digit_run f)
    /\ line = pre +:+ "(" +:+ amount_text dollar ip fp +:+ ")" +:+ post.

(** After [pre], the line goes on with [to], a blank and a word
    character. *)
Definition recipient_at (pre line : string) : Prop :=
  exists c post,
    is_word c = true /\ line = pre +:+ "to " +:+ String c post.

(** A step that only ever adds to the log. *)
Definition grows {S A} (m : M S A) : Prop :=
  forall s l, exists l'', log_of (m s l) = l ++ l''.

(** The entry the button stage leaves in the log. *)
Definition button_error_entry : severity * string :=
  (ERROR, "Error identifying button: "
          +:+ exn_str (Hand.no_attribute "_table_match")).

(** Digits written in groups: digits and commas. *)
Definition is_groupchar (c : ascii) : bool := is_digit c || Ascii.eqb c ",".

(** ** More transcripts to run the parser on *)

Section MoreExampleTexts.

Import Hand.

(** A street without a list of players. *)
Definition bare_street : Street._Street := Street.init None.

(** A turn line as the room writes it, the turn card in a group of its
    own, and a line with all five cards in one group. *)
Definition turn_line : string := "*** TURN *** [4c Js 7c] [Kd]".
Definition five_card_line : string := "*** RIVER *** [4c Js 7c Kd 2h]".

(** A hand with a roster of three empty seats. *)
Definition three_seat_hand : PokerStarsHandHistory :=
  set_players (Some (_init_seats 3)) (new EmptyString ∅).


(** A hand with a summary: pot line, board and one winner. *)
Definition summary_text : string :=
  "*** SUMMARY ***" +:+ nl +:+ "Total pot $0.37 | Rake $0.02" +:+ nl
  +:+ "Board [4c Js 7c]" +:+ nl +:+ "Seat 1: A collected ($0.35)".

Definition summary_hand : PokerStarsHandHistory :=
  new EmptyString {["SUMMARY" := summary_text]}.

(** A summary whose pot line lists a main and a side pot, and in which
    a bracket is opened and never closed before the board line. *)
Definition side_pot_text : string :=
  "*** SUMMARY ***" +:+ nl
  +:+ "Total pot $0.37 Main pot $0.20. Side pot $0.17. | Rake $0.02" +:+ nl
  +:+ "Seat 1: A [button" +:+ nl +:+ "Board [4c Js 7c]".

Definition side_pot_hand : PokerStarsHandHistory :=
  new EmptyString {["SUMMARY" := side_pot_text]}.

(** A hand whose HOLE_CARDS section runs on into the flop. *)
Definition preflop_hand : PokerStarsHandHistory :=
  new EmptyString
    {["HOLE_CARDS" := "*** HOLE CARDS ***" +:+ nl
                      +:+ "Dealt to Hero [Ah Kd]" +:+ nl
                      +:+ "  P1: folds " +:+ nl
                      +:+ "*** FLOP *** [4c Js 7c]"]}.

(** The hand with a HEADER section only, fresh and parsed. *)
Definition fresh_hand : PokerStarsHandHistory := new good_text good_sections.

Definition parsed_outcome : outcome PokerStarsHandHistory unit :=
  run good_text good_sections.

End MoreExampleTexts.

(** * Properties *)

(** ** The street parser on the scenarios of the specification *)

(** C1: on the FLOP section [*** FLOP *** [4c Js 7c]], [P1: bets $0.10],
    [P2: folds] the flop cards are (4c, Js, 7c) and turn and river are
    absent, but both action lines are rejected: upper-cased, their
    keywords are BETS and FOLDS, which are not in the list the parser
    accepts, so the action sequence is absent instead of
    [(P1, BET, 0.10), (P2, FOLD, None)].  The actions are absent
    whatever the cards are and whatever state the street is in. *)
Theorem flop_scenario_drops_both_actions :
  Street.new None
    ["*** FLOP *** [4c Js 7c]"; "P1: bets $0.10"; "P2: folds"] []
  = Ok tt
      (Street.mk (Some ["4c"; "Js"; "7c"]) None None None None None)
      [(ERROR, "Unknown action type: BETS in line: P1: bets $0.10");
       (ERROR, "Unknown action type: FOLDS in line: P2: folds")]
  /\ forall (V : Vocabulary) (s : Street._Street) (l : Log),
       Street._parse_actions ["P1: bets $0.10"; "P2: folds"] s l
       = Ok tt (Street.set_actions None s)
           (l ++ [(ERROR, "Unknown action type: BETS in line: P1: bets $0.10");
                  (ERROR, "Unknown action type: FOLDS in line: P2: folds")]).
Proof.
  split; [vm_compute; reflexivity|].
  intros V s l. unfold Street._parse_actions, bind. simpl.
  rewrite <- app_assoc. reflexivity.
Qed.

(** C4: the action line [Hero: raises $0.10 to $0.15] yields no action at
    all: its keyword upper-cases to RAISES, which is outside the accepted
    list.  The singular keyword goes through and takes the first token
    after it, 0.10. *)
Theorem raises_line_is_rejected `{V : Vocabulary} (s : Street._Street) (l : Log) :
  Street._parse_player_action "Hero: raises $0.10 to $0.15" s l
  = Ok None s
      (l ++ [(ERROR, "Unknown action type: RAISES in line: Hero: raises $0.10 to $0.15")])
  /\ Street._parse_player_action "Hero: raise $0.10 to $0.15" s l
     = Ok (Some ("Hero", RAISE, Some (Fin false 10 (-2)))) s l.
Proof. split; reflexivity. Qed.

(** C3: the scenario's header line does not match [_header_re]: under
    re.VERBOSE the blanks written inside the date group are dropped from
    the pattern, so a date with blanks in it cannot match, and the parse
    raises whatever the sections hold. *)
Theorem scenario_header_is_fatal `{V : Vocabulary} (sections_ : gmap string string) :
  Hand.run scenario_transcript sections_
  = Raise (RuntimeError Hand.header_error)
      (Hand.set__splitted (Some [scenario_transcript])
         (Hand.new scenario_transcript sections_))
      [(ERROR, Hand.header_error)].
Proof. reflexivity. Qed.

(** ** Facts about strings *)

Section StrFacts.

Lemma app_cons (a : ascii) (s t : string) :
  String a s +:+ t = String a (s +:+ t).
Proof. reflexivity. Qed.

Lemma app_empty_l (s : string) : EmptyString +:+ s = s.
Proof. reflexivity. Qed.

Lemma app_empty_r (s : string) : s +:+ EmptyString = s.
Proof. induction s as [|a s IH]; [reflexivity|]. rewrite app_cons, IH. reflexivity. Qed.

Lemma app_assoc_s (s t u : string) : (s +:+ t) +:+ u = s +:+ (t +:+ u).
Proof.
  induction s as [|a s IH]; [reflexivity|].
  rewrite !app_cons, IH. reflexivity.
Qed.

Lemma len_app (s t : string) : Str.len (s +:+ t) = (Str.len s + Str.len t)%nat.
Proof.
  induction s as [|a s IH]; [reflexivity|].
  rewrite app_cons. unfold Str.len in *. simpl. rewrite IH. reflexivity.
Qed.

Lemma take_app (s t : string) : Str.take (Str.len s) (s +:+ t) = s.
Proof.
  induction s as [|a s IH].
  - destruct t; reflexivity.
  - rewrite app_cons. unfold Str.len in *. simpl. rewrite IH. reflexivity.
Qed.

Lemma all_app (p : ascii -> bool) (s t : string) :
  Str.all p (s +:+ t) = Str.all p s && Str.all p t.
Proof.
  induction s as [|a s IH]; [reflexivity|].
  rewrite app_cons. simpl. rewrite IH. apply andb_assoc.
Qed.

Lemma drop_prefix_Some (p s r : string) :
  Str.drop_prefix p s = Some r <-> s = p +:+ r.
Proof.
  revert s. induction p as [|a p IH]; intros s; simpl.
  - rewrite app_empty_l. split; [intros [= ->]|intros ->]; reflexivity.
  - rewrite app_cons. destruct s as [|b s]; [split; discriminate|].
    destruct (Ascii.eqb_spec a b) as [->|Hne].
    + rewrite IH. split; [intros ->; reflexivity|intros [= ->]; reflexivity].
    + split; [discriminate|intros [= ? ?]; congruence].
Qed.

Lemma drop_prefix_app (p r : string) : Str.drop_prefix p (p +:+ r) = Some r.
Proof. apply drop_prefix_Some. reflexivity. Qed.

(** The longest run of a class ends where the class does. *)
Lemma span_app (p : ascii -> bool) (w r : string) :
  Str.all p w = true ->
  match r with String c _ => p c = false | EmptyString => True end ->
  Str.span p (w +:+ r) = (w, r).
Proof.
  intros Hw Hr. induction w as [|a w IH].
  - rewrite app_empty_l. destruct r as [|c r]; [reflexivity|].
    simpl. rewrite Hr. reflexivity.
  - rewrite app_cons. simpl in *. apply andb_true_iff in Hw as [Ha Hw].
    rewrite Ha, (IH Hw). reflexivity.
Qed.

End StrFacts.

(** ** Soundness of the matcher *)

Module ReFacts.
Import ReLang.

Lemma rep_match_sound g p lo i s k x :
  rep_match g p lo i s k = Some x ->
  exists v s', s = v +:+ s' /\ Str.all p v = true /\ (lo <= Str.len v)%nat
               /\ k (i + Str.len v)%nat s' = Some x.
Proof.
  revert lo i. induction s as [|a s IH]; intros lo i H.
  - exists EmptyString, EmptyString. simpl in H.
    destruct lo; [|destruct g; discriminate].
    rewrite Nat.add_0_r.
    split; [reflexivity|]. split; [reflexivity|]. split; [simpl; lia|].
    destruct g; simpl in H; [exact H|].
    destruct (k i EmptyString); [exact H|discriminate].
  - assert (Hstop : lo = 0%nat -> k i (String a s) = Some x ->
              exists v s', String a s = v +:+ s' /\ Str.all p v = true
                /\ (lo <= Str.len v)%nat /\ k (i + Str.len v)%nat s' = Some x).
    { intros -> Hk. exists EmptyString, (String a s).
      rewrite Nat.add_0_r.
      split; [reflexivity|]. split; [reflexivity|]. split; [simpl; lia|].
      exact Hk. }
    assert (Hmore : p a = true ->
              rep_match g p (Nat.pred lo) (S i) s k = Some x ->
              exists v s', String a s = v +:+ s' /\ Str.all p v = true
                /\ (lo <= Str.len v)%nat /\ k (i + Str.len v)%nat s' = Some x).
    { intros Hp Hr. destruct (IH _ _ Hr) as (v & s' & -> & Hv & Hlo & Hk).
      exists (String a v), s'. rewrite app_cons. simpl. rewrite Hp, Hv.
      split; [reflexivity|]. split; [reflexivity|].
      split; [unfold Str.len in *; simpl; lia|].
      unfold Str.len in *. simpl. rewrite Nat.add_succ_r. exact Hk. }
    simpl in H. destruct g; simpl in H.
    + destruct (p a) eqn:Hp.
      * destruct (rep_match true p (Nat.pred lo) (S i) s k) eqn:Hr.
        -- injection H as ->. apply Hmore; auto.
        -- destruct lo; [apply Hstop; auto|discriminate].
      * destruct lo; [apply Hstop; auto|discriminate].
    + destruct lo as [|lo'].
      * destruct (k i (String a s)) eqn:Hk.
        -- injection H as ->. apply Hstop; auto.
        -- destruct (p a) eqn:Hp; [apply Hmore; auto|discriminate].
      * destruct (p a) eqn:Hp; [apply Hmore; auto|discriminate].
Qed.

Ltac conjs := repeat match goal with |- _ /\ _ => split end.

(** A successful match consumed a text of the pattern's language, went on
    with the continuation, bound groups only to texts they can consume,
    and bound every group that is not under an alternative. *)
Lemma rmatch_sound (r : regex) :
  forall i s c k x,
    rmatch r i s c k = Some x ->
    exists v s' c',
      s = v +:+ s' /\ lang r v /\ k (i + Str.len v)%nat s' c' = Some x
      /\ (forall n w, In (n, w) c' -> In (n, w) c \/ binds r n w)
      /\ (forall n, In n (must_bind r) \/ group c n <> None ->
                    group c' n <> None).
Proof.
  induction r as [| a | w | p | r1 IH1 r2 IH2 | r1 IH1 r2 IH2 | g lo p
                 | m r1 IH1 | | ]; intros i s c k x H; simpl in H.
  - exists EmptyString, s, c. rewrite Nat.add_0_r. simpl.
    conjs; auto. intros n [[]|Hn]; exact Hn.
  - destruct s as [|b s]; [discriminate|].
    destruct (Ascii.eqb_spec a b) as [->|]; [|discriminate].
    exists (String b EmptyString), s, c.
    replace (i + _)%nat with (S i) by (unfold Str.len; simpl; lia).
    simpl. conjs; auto. intros n [[]|Hn]; exact Hn.
  - destruct (Str.drop_prefix w s) as [s'|] eqn:Hd; [|discriminate].
    apply drop_prefix_Some in Hd as ->.
    exists w, s', c. simpl. conjs; auto. intros n [[]|Hn]; exact Hn.
  - destruct s as [|b s]; [discriminate|].
    destruct (p b) eqn:Hp; [|discriminate].
    exists (String b EmptyString), s, c.
    replace (i + _)%nat with (S i) by (unfold Str.len; simpl; lia).
    simpl. conjs; eauto. intros n [[]|Hn]; exact Hn.
  - apply IH1 in H as (v1 & s1 & c1 & -> & L1 & H & B1 & M1).
    apply IH2 in H as (v2 & s2 & c2 & -> & L2 & H & B2 & M2).
    exists (v1 +:+ v2), s2, c2. rewrite app_assoc_s, len_app, Nat.add_assoc.
    conjs; [reflexivity|simpl; eauto|exact H| |].
    + intros n w Hin. unfold binds. simpl.
      destruct (B2 _ _ Hin) as [Hin1|(g & Hg & Lg)].
      * destruct (B1 _ _ Hin1) as [?|(g & Hg & Lg)]; [auto|].
        right. exists g. split; [apply in_or_app; auto|exact Lg].
      * right. exists g. split; [apply in_or_app; auto|exact Lg].
    + intros n Hn. apply M2. simpl in Hn.
      destruct Hn as [Hn|Hn]; [apply in_app_or in Hn as [Hn|Hn]|]; auto.
  - unfold first_of in H.
    destruct (rmatch r1 i s c k) eqn:H1.
    + injection H as ->.
      apply IH1 in H1 as (v & s' & c' & -> & L & H & B & M).
      exists v, s', c'. conjs; [reflexivity|simpl; auto|exact H| |].
      * intros n w Hin. destruct (B _ _ Hin) as [?|(g & Hg & Lg)]; [auto|].
        right. exists g. split; [simpl; apply in_or_app; auto|exact Lg].
      * intros n [[]|Hn]. apply M. auto.
    + apply IH2 in H as (v & s' & c' & -> & L & H & B & M).
      exists v, s', c'. conjs; [reflexivity|simpl; auto|exact H| |].
      * intros n w Hin. destruct (B _ _ Hin) as [?|(g & Hg & Lg)]; [auto|].
        right. exists g. split; [simpl; apply in_or_app; auto|exact Lg].
      * intros n [[]|Hn]. apply M. auto.
  - apply rep_match_sound in H as (v & s' & -> & Hv & Hlo & H).
    exists v, s', c. simpl. conjs; auto. intros n [[]|Hn]; exact Hn.
  - apply IH1 in H as (v & s' & c' & -> & L & H & B & M).
    replace (i + Str.len v - i)%nat with (Str.len v) in H by lia.
    rewrite take_app in H.
    exists v, s', ((m, v) :: c'). conjs; [reflexivity|exact L|exact H| |].
    + intros n w [[= <- <-]|Hin].
      * right. exists r1.
        split; [simpl; rewrite String.eqb_refl; left; auto|exact L].
      * destruct (B _ _ Hin) as [?|(g & Hg & Lg)]; [auto|].
        right. exists g. split; [simpl; apply in_or_app; auto|exact Lg].
    + intros n Hn. simpl.
      destruct (String.eqb_spec m n) as [->|Hne]; [discriminate|].
      apply M. destruct Hn as [[Hn|Hn]|Hn]; [contradiction|auto|auto].
  - destruct (Nat.eqb i 0); [|discriminate].
    exists EmptyString, s, c. rewrite Nat.add_0_r. simpl.
    conjs; auto. intros n [[]|Hn]; exact Hn.
  - exists EmptyString, s, c. rewrite Nat.add_0_r. simpl.
    conjs; auto.
    + destruct s as [|b [|b' s]]; [exact H| |discriminate].
      destruct (Ascii.eqb b newline); [exact H|discriminate].
    + intros n [[]|Hn]; exact Hn.
Qed.

Lemma group_In (c : caps) (n v : string) : group c n = Some v -> In (n, v) c.
Proof.
  induction c as [|[m w] c IH]; simpl; [discriminate|].
  destruct (String.eqb_spec m n) as [->|]; [intros [= ->]; auto|auto].
Qed.

(** What [pattern.match] returns: the line begins with a text of the
    pattern, every group holds a text of its own sub-pattern, and the
    groups outside alternatives are all there. *)
Theorem match_sound (r : regex) (s : string) (c : caps) :
  Re.match_ r s = Some c ->
  (exists v s', s = v +:+ s' /\ lang r v)
  /\ (forall n w, group c n = Some w -> binds r n w)
  /\ (forall n, In n (must_bind r) -> exists w, group c n = Some w).
Proof.
  intros H. apply rmatch_sound in H as (v & s' & c' & -> & L & H & B & M).
  injection H as ->. split; [eauto|]. split.
  - intros n w Hg. apply group_In in Hg.
    destruct (B _ _ Hg) as [[]|Hb]. exact Hb.
  - intros n Hn. destruct (group c n) as [w|] eqn:E; [eauto|].
    exfalso. apply (M n); auto.
Qed.

End ReFacts.

(** ** Reasoning about steps *)

Section StepFacts.
Context {S : Type}.

Lemma total_ret {A} (a : A) : total (S := S) (ret a).
Proof. intros s l. unfold ret. eauto. Qed.

Lemma total_bind {A B} (m : M S A) (f : A -> M S B) :
  total m -> (forall a, total (f a)) -> total (bind m f).
Proof.
  intros Hm Hf s l. unfold bind.
  destruct (Hm s l) as (a & s' & l' & ->). apply Hf.
Qed.

Lemma total_try {A} (body : M S A) (handler : exn -> M S A) :
  (forall e, total (handler e)) -> total (try_ body handler).
Proof.
  intros Hh s l. unfold try_. destruct (body s l); [eauto|apply Hh].
Qed.

Lemma total_modify (f : S -> S) : total (modify f).
Proof. intros s l. unfold modify. eauto. Qed.

Lemma total_logging sev msg : total (logging (S := S) sev msg).
Proof. intros s l. unfold logging. eauto. Qed.

Lemma total_get : total (get (S := S)).
Proof. intros s l. unfold get. eauto. Qed.

Lemma triple_ret {A} (P : S -> Prop) (a : A) Q R :
  (forall s, P s -> Q a s) -> triple P (ret a) Q R.
Proof. intros H s l Hs. simpl. auto. Qed.

Lemma triple_raise {A} (P : S -> Prop) e (Q : A -> S -> Prop) (R : S -> Prop) :
  (forall s, P s -> R s) -> triple P (raise e) Q R.
Proof. intros H s l Hs. simpl. auto. Qed.

Lemma triple_bind {A B} (P : S -> Prop) (m : M S A) (f : A -> M S B)
    (Q : A -> S -> Prop) (Q' : B -> S -> Prop) (R : S -> Prop) :
  triple P m Q R -> (forall a, triple (Q a) (f a) Q' R) ->
  triple P (bind m f) Q' R.
Proof.
  intros Hm Hf s l Hs. unfold bind. specialize (Hm s l Hs).
  destruct (m s l) as [a s' l'|e s' l']; [apply Hf; exact Hm|exact Hm].
Qed.

Lemma triple_try {A} (P : S -> Prop) (body : M S A) handler
    (Q : A -> S -> Prop) (R R' : S -> Prop) :
  triple P body Q R' -> (forall e, triple R' (handler e) Q R) ->
  triple P (try_ body handler) Q R.
Proof.
  intros Hb Hh s l Hs. unfold try_. specialize (Hb s l Hs).
  destruct (body s l) as [a s' l'|e s' l']; [exact Hb|apply Hh; exact Hb].
Qed.

Lemma triple_get (P : S -> Prop) R :
  triple P get (fun a s => a = s /\ P s) R.
Proof. intros s l Hs. simpl. auto. Qed.

Lemma triple_modify (P : S -> Prop) (f : S -> S) (Q : unit -> S -> Prop) R :
  (forall s, P s -> Q tt (f s)) -> triple P (modify f) Q R.
Proof. intros H s l Hs. simpl. auto. Qed.

Lemma triple_logging (P : S -> Prop) sev msg (Q : unit -> S -> Prop) R :
  (forall s, P s -> Q tt s) -> triple P (logging sev msg) Q R.
Proof. intros H s l Hs. simpl. auto. Qed.

Lemma triple_expect {A} (P : S -> Prop) (o : option A) e
    (Q : A -> S -> Prop) (R : S -> Prop) :
  (forall a s, o = Some a -> P s -> Q a s) -> (forall s, P s -> R s) ->
  triple P (expect o e) Q R.
Proof. intros HQ HR s l Hs. destruct o; simpl; auto. Qed.

Lemma triple_of_result {A} (P : S -> Prop) (r : exn + A)
    (Q : A -> S -> Prop) (R : S -> Prop) :
  (forall a s, P s -> Q a s) -> (forall s, P s -> R s) ->
  triple P (of_result r) Q R.
Proof. intros HQ HR s l Hs. destruct r; simpl; auto. Qed.

Lemma triple_weaken {A} (P P' : S -> Prop) (m : M S A)
    (Q Q' : A -> S -> Prop) (R R' : S -> Prop) :
  triple P' m Q' R' -> (forall s, P s -> P' s) ->
  (forall a s, Q' a s -> Q a s) -> (forall s, R' s -> R s) ->
  triple P m Q R.
Proof.
  intros H HP HQ HR s l Hs. specialize (H s l (HP s Hs)).
  destruct (m s l); auto.
Qed.

Lemma keeps_bind {A B} (P : S -> Prop) (m : M S A) (f : A -> M S B) :
  keeps P m -> (forall a, keeps P (f a)) -> keeps P (bind m f).
Proof. intros Hm Hf. eapply triple_bind; [exact Hm|exact Hf]. Qed.

Lemma keeps_try {A} (P : S -> Prop) (body : M S A) handler :
  keeps P body -> (forall e, keeps P (handler e)) -> keeps P (try_ body handler).
Proof. intros Hb Hh. eapply triple_try; [exact Hb|exact Hh]. Qed.

Lemma keeps_ret {A} (P : S -> Prop) (a : A) : keeps P (ret a).
Proof. intros s l Hs. simpl. auto. Qed.

Lemma keeps_raise {A} (P : S -> Prop) e : keeps (A := A) P (raise e).
Proof. intros s l Hs. simpl. auto. Qed.

Lemma keeps_get (P : S -> Prop) : keeps P get.
Proof. intros s l Hs. simpl. auto. Qed.

Lemma keeps_modify (P : S -> Prop) (f : S -> S) :
  (forall s, P s -> P (f s)) -> keeps P (modify f).
Proof. intros H s l Hs. simpl. auto. Qed.

Lemma keeps_logging (P : S -> Prop) sev msg : keeps P (logging sev msg).
Proof. intros s l Hs. simpl. auto. Qed.

Lemma keeps_expect {A} (P : S -> Prop) (o : option A) e : keeps P (expect o e).
Proof. intros s l Hs. destruct o; simpl; auto. Qed.

Lemma keeps_of_result {A} (P : S -> Prop) (r : exn + A) : keeps P (of_result r).
Proof. intros s l Hs. destruct r; simpl; auto. Qed.

Lemma keeps_Decimal (P : S -> Prop) text : keeps P (Decimal_ text).
Proof. apply keeps_expect. Qed.

Lemma keeps_mapM {A B} (P : S -> Prop) (f : A -> M S B) (xs : list A) :
  (forall x, keeps P (f x)) -> keeps P (mapM f xs).
Proof.
  intros Hf. induction xs as [|x xs IH]; simpl.
  - apply keeps_ret.
  - apply keeps_bind; [apply Hf|intros y].
    apply keeps_bind; [exact IH|intros ys]. apply keeps_ret.
Qed.

End StepFacts.

Create HintDb steps.
#[local] Hint Resolve total_ret total_modify total_logging total_get : steps.
#[local] Hint Resolve keeps_ret keeps_raise keeps_get keeps_logging
  keeps_expect keeps_of_result keeps_Decimal : steps.

(** Takes a step apart along its binds and handlers. *)
Ltac step_total :=
  repeat first
    [ apply total_try; intros
    | apply total_bind; [|intros]
    | solve [auto with steps] ].

Ltac step_keeps :=
  repeat first
    [ apply keeps_try; [|intros]
    | apply keeps_bind; [|intros]
    | apply keeps_mapM; intros
    | solve [auto with steps]
    | apply keeps_modify; intros ].

(** ** The action loop of a street *)

Section StreetFacts.
Context `{V : Vocabulary}.

Lemma handle_player_join_total line : total (Street._handle_player_join line).
Proof. unfold Street._handle_player_join. step_total. Qed.

Lemma parse_action_line_total line : total (Street.parse_action_line line).
Proof.
  unfold Street.parse_action_line.
  repeat match goal with
         | |- total (if ?b then _ else _) => destruct b
         end;
    unfold Street._parse_uncalled, Street._parse_collected, Street._parse_muck,
      Street._parse_player_action;
    step_total.
Qed.

(** The loop never raises, and what it appends does not depend on what
    was collected before. *)
Lemma actions_loop_appends (lines : list string) :
  forall s l, exists A s' l',
    forall acc, Street.actions_loop lines acc s l = Ok (acc ++ A) s' l'.
Proof.
  induction lines as [|line rest IH]; intros s l.
  - exists [], s, l. intros acc. rewrite app_nil_r. reflexivity.
  - destruct (parse_action_line_total line s l) as (a & s1 & l1 & Ha).
    destruct (IH s1 l1) as (A & s' & l' & HA).
    destruct a as [t|].
    + exists (Street.to_action t :: A), s', l'. intros acc.
      simpl. unfold bind. rewrite Ha, HA, <- app_assoc. reflexivity.
    + exists A, s', l'. intros acc.
      simpl. unfold bind. rewrite Ha, HA. reflexivity.
Qed.

Lemma actions_loop_app (before after : list string) :
  forall acc s l,
    Street.actions_loop (before ++ after) acc s l
    = match Street.actions_loop before acc s l with
      | Ok A s' l' => Street.actions_loop after A s' l'
      | Raise e s' l' => Raise e s' l'
      end.
Proof.
  induction before as [|line rest IH]; intros acc s l; [reflexivity|].
  simpl. unfold bind.
  destruct (Street.parse_action_line line s l) as [[t|] s1 l1|e s1 l1];
    [apply IH|apply IH|reflexivity].
Qed.

Lemma esayy_line_action (s : Street._Street) (l : Log) :
  Street.parse_action_line esayy_line s l
  = Ok (Some ("EsAyy", RETURN, Some (Fin false 40 (-2)))) s l.
Proof. reflexivity. Qed.

(** C8: wherever the line [Uncalled bet ($0.40) returned to EsAyy] stands
    in a street, the street's actions are those of the lines before it,
    then RETURN for EsAyy with amount exactly 0.40, then those of the
    lines after it; the line itself changes neither the street nor the
    log. *)
Theorem uncalled_bet_line_yields_return
    (before after : list string) (s : Street._Street) (l : Log) :
  exists A s1 l1 B s2 l2,
    Street.actions_loop before [] s l = Ok A s1 l1
    /\ Street.actions_loop after [] s1 l1 = Ok B s2 l2
    /\ Street._parse_actions (before ++ esayy_line :: after) s l
       = Ok tt (Street.set_actions (Some (A ++ esayy_return :: B)) s2) l2.
Proof.
  destruct (actions_loop_appends before s l) as (A & s1 & l1 & HA).
  destruct (actions_loop_appends after s1 l1) as (B & s2 & l2 & HB).
  exists A, s1, l1, B, s2, l2.
  split; [apply (HA [])|]. split; [apply (HB [])|].
  unfold Street._parse_actions, bind.
  rewrite actions_loop_app, (HA []). simpl Street.actions_loop.
  unfold bind. rewrite esayy_line_action. simpl.
  rewrite HB. unfold modify. fold esayy_return.
  rewrite <- app_assoc. simpl.
  destruct (A ++ esayy_return :: B) eqn:E; [|reflexivity].
  destruct A; discriminate.
Qed.

End StreetFacts.

(** A claim about one character, checked on each of the 256. *)
Ltac by_ascii_cases c H :=
  destruct c as [[] [] [] [] [] [] [] []];
  vm_compute in H; try discriminate H; vm_compute; try reflexivity; auto.

(** ** Amounts: the texts of [\d+(?:\.\d+)?] are decimals *)

Section AmountFacts.


Lemma numchar_not_space c : is_numchar c = true -> is_space c = false.
Proof. intros H. by_ascii_cases c H. Qed.

Lemma numchar_not_underscore c : is_numchar c = true -> Ascii.eqb c "_" = false.
Proof. intros H. by_ascii_cases c H. Qed.

Lemma numchar_not_dollar c : is_numchar c = true -> Ascii.eqb c "$" = false.
Proof. intros H. by_ascii_cases c H. Qed.

Lemma digit_numchar c : is_digit c = true -> is_numchar c = true.
Proof. intros H. unfold is_numchar. rewrite H. reflexivity. Qed.

Lemma digit_not_dot c : is_digit c = true -> Ascii.eqb c "." = false.
Proof. intros H. by_ascii_cases c H. Qed.

Lemma all_impl (p q : ascii -> bool) (s : string) :
  (forall c, p c = true -> q c = true) ->
  Str.all p s = true -> Str.all q s = true.
Proof.
  intros Hpq. induction s as [|a s IH]; simpl; [auto|].
  intros [Ha Hs]%andb_true_iff. rewrite (Hpq _ Ha), (IH Hs). reflexivity.
Qed.

Lemma rstrip_id (s : string) :
  Str.all (fun c => negb (is_space c)) s = true -> Str.rstrip s = s.
Proof.
  induction s as [|a s IH]; simpl; [auto|].
  intros [Ha Hs]%andb_true_iff. rewrite (IH Hs).
  apply negb_true_iff in Ha. rewrite Ha. reflexivity.
Qed.

Lemma strip_id (s : string) :
  Str.all (fun c => negb (is_space c)) s = true -> Str.strip s = s.
Proof.
  intros H. unfold Str.strip. rewrite (rstrip_id _ H).
  destruct s as [|a s]; [reflexivity|]. simpl in *.
  apply andb_true_iff in H as [Ha _]. apply negb_true_iff in Ha.
  rewrite Ha. reflexivity.
Qed.

Lemma remove_char_id (c : ascii) (s : string) :
  Str.all (fun a => negb (Ascii.eqb a c)) s = true -> Str.remove_char c s = s.
Proof.
  induction s as [|a s IH]; simpl; [auto|].
  intros [Ha Hs]%andb_true_iff. apply negb_true_iff in Ha.
  rewrite Ha, (IH Hs). reflexivity.
Qed.

Lemma numeric_strip (s : string) :
  Str.all is_numchar s = true -> Str.strip s = s.
Proof.
  intros H. apply strip_id. revert H. apply all_impl.
  intros c Hc. rewrite (numchar_not_space _ Hc). reflexivity.
Qed.

Lemma numeric_no_underscore (s : string) :
  Str.all is_numchar s = true -> Str.remove_char "_" s = s.
Proof.
  intros H. apply remove_char_id. revert H. apply all_impl.
  intros c Hc. rewrite (numchar_not_underscore _ Hc). reflexivity.
Qed.

Lemma numeric_no_dollar (s : string) :
  Str.all is_numchar s = true -> Str.remove_char "$" s = s.
Proof.
  intros H. apply remove_char_id. revert H. apply all_impl.
  intros c Hc. rewrite (numchar_not_dollar _ Hc). reflexivity.
Qed.

Lemma amount_numeric (ip : string) (fp : option string) :
  digit_run ip -> (forall f, fp = Some f -> digit_run f) ->
  Str.all is_numchar (ip +:+ frac_text fp) = true.
Proof.
  intros [_ Hip] Hfp. rewrite all_app.
  rewrite (all_impl _ _ _ digit_numchar Hip). simpl.
  destruct fp as [f|]; [|reflexivity]. simpl.
  destruct (Hfp f eq_refl) as [_ Hf].
  apply (all_impl _ _ _ digit_numchar Hf).
Qed.

(** Text that starts with a digit has no sign and names no special
    value, so [Decimal] reads it as a finite number. *)
Lemma of_string_leading_digit (d : ascii) (r : string) :
  is_digit d = true -> Str.all is_numchar r = true ->
  Dec.of_string (String d r) = Dec.parse_finite false (String d r).
Proof.
  intros Hd Hr. unfold Dec.of_string.
  assert (Hall : Str.all is_numchar (String d r) = true).
  { simpl. rewrite (digit_numchar _ Hd), Hr. reflexivity. }
  rewrite (numeric_strip _ Hall), (numeric_no_underscore _ Hall).
  clear Hall Hr.
  destruct d as [[] [] [] [] [] [] [] []];
    vm_compute in Hd; try discriminate Hd; reflexivity.
Qed.

(** [Decimal] of an amount: the digits as coefficient, the length of the
    fraction as (negative) exponent. *)
Lemma of_string_amount (ip : string) (fp : option string) :
  digit_run ip -> (forall f, fp = Some f -> digit_run f) ->
  Dec.of_string (ip +:+ frac_text fp)
  = Some (Fin false (Str.to_N (ip +:+ frac_digits fp))
                    (- Z.of_nat (Str.len (frac_digits fp)))).
Proof.
  intros Hip Hfp. pose proof (amount_numeric ip fp Hip Hfp) as Hnum.
  destruct Hip as [Hne Hip].
  destruct ip as [|d ip']; [contradiction|]. rewrite app_cons in *.
  simpl in Hip, Hnum. apply andb_true_iff in Hip as [Hd Hip'].
  apply andb_true_iff in Hnum as [_ Hnum].
  rewrite (of_string_leading_digit d _ Hd Hnum).
  unfold Dec.parse_finite. rewrite <- app_cons.
  rewrite (span_app is_digit (String d ip') (frac_text fp)).
  - destruct fp as [f|]; simpl frac_text; cbv iota beta.
    + destruct (Hfp f eq_refl) as [Hfne Hf].
      rewrite <- (app_empty_r f) at 1.
      rewrite (span_app is_digit f EmptyString Hf I).
      destruct f as [|f0 f']; [contradiction|]. reflexivity.
    + simpl. rewrite app_empty_r. reflexivity.
  - simpl. rewrite Hd, Hip'. reflexivity.
  - destruct fp as [f|]; simpl; [reflexivity|exact I].
Qed.

(** The texts of [number] are such amounts. *)
Lemma lang_number_amount (w : string) :
  ReLang.lang number w ->
  exists ip fp, w = ip +:+ frac_text fp /\ digit_run ip
                /\ forall f, fp = Some f -> digit_run f.
Proof.
  assert (Hrun : forall v, Str.all is_digit v = true -> (1 <= Str.len v)%nat
                           -> digit_run v).
  { intros v Hv Hl. split; [|exact Hv]. intros ->. simpl in Hl. lia. }
  intros (v1 & v2 & -> & [H1 L1] & H2). simpl in H2.
  destruct H2 as [(a & b & -> & -> & Hb & Lb)| ->].
  - exists v1, (Some b). rewrite app_cons, app_empty_l.
    split; [reflexivity|]. split; [auto|]. intros f [= <-]. auto.
  - exists v1, None. split; [reflexivity|]. split; [auto|]. discriminate.
Qed.

Lemma of_string_number (w : string) :
  ReLang.lang number w -> exists d, Dec.of_string w = Some d.
Proof.
  intros (ip & fp & -> & Hip & Hfp)%lang_number_amount.
  rewrite (of_string_amount ip fp Hip Hfp). eauto.
Qed.

Lemma of_string_digits (w : string) :
  ReLang.lang (plus is_digit) w -> exists d, Dec.of_string w = Some d.
Proof.
  intros [Hw Hl]. rewrite <- (app_empty_r w).
  change EmptyString with (frac_text None).
  rewrite of_string_amount; [eauto| |discriminate].
  split; [|exact Hw]. intros ->. simpl in Hl. lia.
Qed.

End AmountFacts.

(** ** Uncalled bets: the amount and the recipient the patterns find *)

#[local] Arguments Ascii.eqb !a !b : simpl nomatch.

Section UncalledFacts.
Context `{V : Vocabulary}.

(** The equations of the matcher, for rewriting. *)
Lemma rmatch_Cat r1 r2 i s c k :
  rmatch (Cat r1 r2) i s c k
  = rmatch r1 i s c (fun j s' c' => rmatch r2 j s' c' k).
Proof. reflexivity. Qed.

Lemma rmatch_opt r i s c k :
  rmatch (opt r) i s c k
  = first_of (rmatch r i s c k) (fun _ => k i s c).
Proof. reflexivity. Qed.

Lemma rmatch_Chr a b s i c k :
  rmatch (Chr a) i (String b s) c k
  = if Ascii.eqb a b then k (S i) s c else None.
Proof. reflexivity. Qed.

Lemma rmatch_Chr_nil a i c k : rmatch (Chr a) i EmptyString c k = None.
Proof. reflexivity. Qed.

Lemma rmatch_Rep g lo p i s c k :
  rmatch (Rep g lo p) i s c k = rep_match g p lo i s (fun j s' => k j s' c).
Proof. reflexivity. Qed.

Lemma rmatch_Grp n r i s c k :
  rmatch (Grp n r) i s c k
  = rmatch r i s c (fun j s' c' => k j s' ((n, Str.take (j - i) s) :: c')).
Proof. reflexivity. Qed.

Lemma rmatch_Lit w i s c k :
  rmatch (Lit w) i s c k
  = match Str.drop_prefix w s with
    | Some s' => k (i + Str.len w)%nat s' c
    | None => None
    end.
Proof. reflexivity. Qed.

(** Greedy repetition takes the whole run when what follows goes
    through. *)
Lemma rep_greedy_munch p lo i w r k x :
  Str.all p w = true -> stops p r -> (lo <= Str.len w)%nat ->
  k (i + Str.len w)%nat r = Some x ->
  rep_match true p lo i (w +:+ r) k = Some x.
Proof.
  revert lo i. induction w as [|a w IH]; intros lo i Hw Hr Hlo Hk.
  - rewrite app_empty_l. simpl in Hlo, Hk. rewrite Nat.add_0_r in Hk.
    assert (lo = 0%nat) as -> by lia.
    destruct r as [|c r]; simpl; [exact Hk|].
    simpl in Hr. rewrite Hr. exact Hk.
  - rewrite app_cons. simpl in Hw. apply andb_true_iff in Hw as [Ha Hw].
    simpl. rewrite Ha.
    rewrite (IH (Nat.pred lo) (S i)); [reflexivity|exact Hw|exact Hr| |].
    + unfold Str.len in *. simpl in Hlo. lia.
    + unfold Str.len in *. simpl in Hk. rewrite Nat.add_succ_r in Hk. exact Hk.
Qed.

Lemma number_munch ip fp i tail c k x :
  digit_run ip -> (forall f, fp = Some f -> digit_run f) ->
  stops is_numchar tail ->
  k (i + Str.len (ip +:+ frac_text fp))%nat tail c = Some x ->
  rmatch number i ((ip +:+ frac_text fp) +:+ tail) c k = Some x.
Proof.
  intros [Hne Hip] Hfp Htail Hk. rewrite app_assoc_s.
  unfold number, plus. rewrite rmatch_Cat, rmatch_Rep.
  apply rep_greedy_munch; [exact Hip| |destruct ip; [contradiction|simpl; lia]|].
  - destruct fp as [f|]; simpl; [reflexivity|].
    destruct tail as [|t tail]; simpl in *; [exact I|].
    apply orb_false_iff in Htail as [Ht _]. exact Ht.
  - rewrite len_app in Hk. rewrite rmatch_opt, rmatch_Cat. unfold first_of.
    destruct fp as [f|]; simpl frac_text in *.
    + destruct (Hfp f eq_refl) as [Hfne Hf].
      rewrite app_cons, rmatch_Chr, rmatch_Rep. simpl Ascii.eqb. cbv iota.
      rewrite rep_greedy_munch with (x := x); [reflexivity|exact Hf| | |].
      * destruct tail as [|t tail]; simpl in *; [exact I|].
        apply orb_false_iff in Htail as [Ht _]. exact Ht.
      * destruct f; [contradiction|simpl; lia].
      * unfold Str.len in *. simpl in Hk.
        replace (S (i + String.length ip) + String.length f)%nat
          with (i + String.length ip + S (String.length f))%nat by lia.
        rewrite <- Nat.add_assoc. exact Hk.
    + rewrite app_empty_l. simpl in Hk. rewrite Nat.add_0_r in Hk.
      destruct tail as [|t tail]; [rewrite rmatch_Chr_nil; exact Hk|].
      rewrite rmatch_Chr.
      simpl in Htail. apply orb_false_iff in Htail as [_ Ht].
      rewrite Ascii.eqb_sym, Ht. exact Hk.
Qed.

Lemma amount_munch dollar ip fp i tail c k x :
  digit_run ip -> (forall f, fp = Some f -> digit_run f) ->
  stops is_numchar tail ->
  k (i + Str.len (amount_text dollar ip fp))%nat tail c = Some x ->
  rmatch (Cat (opt (Chr "$")) number) i (amount_text dollar ip fp +:+ tail) c k
  = Some x.
Proof.
  intros Hip Hfp Htail Hk. unfold amount_text in *.
  destruct dollar.
  - rewrite !app_cons, !app_empty_l in *.
    rewrite rmatch_Cat, rmatch_opt, rmatch_Chr. unfold first_of.
    simpl Ascii.eqb. cbv iota.
    rewrite number_munch with (x := x); [reflexivity|auto..|].
    unfold Str.len in *. simpl in Hk. rewrite Nat.add_succ_r in Hk. exact Hk.
  - rewrite !app_empty_l in *.
    rewrite rmatch_Cat, rmatch_opt. unfold first_of.
    destruct Hip as [Hne Hd]. destruct ip as [|d ip']; [contradiction|].
    rewrite !app_cons, rmatch_Chr.
    simpl in Hd. apply andb_true_iff in Hd as [Hd Hd'].
    assert (Ascii.eqb "$" d = false) as ->.
    { rewrite Ascii.eqb_sym. apply numchar_not_dollar, digit_numchar, Hd. }
    rewrite <- !app_cons.
    apply number_munch; [split; [discriminate|simpl; rewrite Hd, Hd'; reflexivity]
                        |auto..].
Qed.

Lemma amount_text_plain dollar ip fp :
  digit_run ip -> (forall f, fp = Some f -> digit_run f) ->
  Str.remove_char "$" (amount_text dollar ip fp) = ip +:+ frac_text fp.
Proof.
  intros Hip Hfp. unfold amount_text.
  destruct dollar; rewrite ?app_cons, ?app_empty_l; simpl;
    apply numeric_no_dollar, amount_numeric; auto.
Qed.

Lemma search_skip r i a s :
  rmatch r i (String a s) [] accept = None ->
  search_from r i (String a s) = search_from r (S i) s.
Proof. intros H. simpl. rewrite H. reflexivity. Qed.

Lemma search_here r i s x :
  rmatch r i s [] accept = Some x -> search_from r i s = Some x.
Proof. intros H. destruct s; simpl; rewrite H; reflexivity. Qed.

Lemma numchar_not_t c : is_numchar c = true -> Ascii.eqb "t" c = false.
Proof. intros H. by_ascii_cases c H. Qed.

Lemma name_search_skips (u s : string) (i : nat) :
  Str.all (fun c => negb (Ascii.eqb "t" c)) u = true ->
  search_from Street.uncalled_name_re i (u +:+ s)
  = search_from Street.uncalled_name_re (i + Str.len u)%nat s.
Proof.
  revert i. induction u as [|a u IH]; intros i Hu.
  - rewrite app_empty_l. simpl. rewrite Nat.add_0_r. reflexivity.
  - simpl in Hu. apply andb_true_iff in Hu as [Ha Hu].
    apply negb_true_iff in Ha.
    rewrite app_cons, search_skip.
    + rewrite (IH _ Hu). unfold Str.len. simpl. rewrite Nat.add_succ_r.
      reflexivity.
    + unfold Street.uncalled_name_re.
      rewrite rmatch_Cat, rmatch_Lit. simpl. rewrite Ha. reflexivity.
Qed.

Lemma amount_has_no_t dollar ip fp :
  digit_run ip -> (forall f, fp = Some f -> digit_run f) ->
  Str.all (fun c => negb (Ascii.eqb "t" c)) (amount_text dollar ip fp) = true.
Proof.
  intros Hip Hfp. unfold amount_text. rewrite all_app.
  apply andb_true_iff. split; [destruct dollar; reflexivity|].
  generalize (amount_numeric ip fp Hip Hfp). apply all_impl.
  intros c Hc. rewrite (numchar_not_t _ Hc). reflexivity.
Qed.

Lemma uncalled_amount_found dollar ip fp recipient :
  digit_run ip -> (forall f, fp = Some f -> digit_run f) ->
  Re.search Street.uncalled_amount_re
    (uncalled_line (amount_text dollar ip fp) recipient)
  = Some [("1", amount_text dollar ip fp)].
Proof.
  intros Hip Hfp. unfold Re.search, uncalled_line.
  rewrite !app_cons, app_empty_l.
  repeat (rewrite search_skip by reflexivity).
  apply search_here. unfold Street.uncalled_amount_re, cats.
  rewrite rmatch_Cat, rmatch_Chr. simpl Ascii.eqb. cbv iota.
  rewrite rmatch_Cat, rmatch_Grp.
  apply amount_munch; [exact Hip|exact Hfp|reflexivity|].
  rewrite rmatch_Chr. simpl Ascii.eqb. cbv iota. unfold accept.
  replace (14 + Str.len (amount_text dollar ip fp) - 14)%nat
    with (Str.len (amount_text dollar ip fp)) by lia.
  rewrite take_app. reflexivity.
Qed.

Lemma uncalled_name_found dollar ip fp w c rest :
  digit_run ip -> (forall f, fp = Some f -> digit_run f) ->
  w <> EmptyString -> Str.all is_word w = true -> is_word c = false ->
  Re.search Street.uncalled_name_re
    (uncalled_line (amount_text dollar ip fp) (w +:+ String c rest))
  = Some [("1", w)].
Proof.
  intros Hip Hfp Hne Hw Hc. unfold Re.search, uncalled_line.
  rewrite !app_cons, app_empty_l.
  repeat (rewrite search_skip by reflexivity).
  rewrite name_search_skips by (apply amount_has_no_t; assumption).
  rewrite ?app_cons, ?app_empty_l.
  repeat (rewrite search_skip by reflexivity).
  apply search_here. unfold Street.uncalled_name_re.
  rewrite rmatch_Cat, rmatch_Lit. simpl Str.drop_prefix. cbv iota.
  rewrite rmatch_Grp. unfold plus. rewrite rmatch_Rep.
  apply rep_greedy_munch; [exact Hw|exact Hc| |].
  - destruct w; [contradiction|simpl; lia].
  - unfold accept.
    match goal with
    | |- context [Str.take (?a + ?b - ?a)%nat _] =>
        replace (a + b - a)%nat with b by lia
    end.
    rewrite take_app. reflexivity.
Qed.

Lemma span_spec (p : ascii -> bool) (s : string) :
  s = fst (Str.span p s) +:+ snd (Str.span p s)
  /\ Str.all p (fst (Str.span p s)) = true
  /\ stops p (snd (Str.span p s)).
Proof.
  induction s as [|a s (IH1 & IH2 & IH3)]; simpl; [auto|].
  destruct (p a) eqn:Hp; [|simpl; auto].
  destruct (Str.span p s) as [w post]. simpl in *.
  rewrite app_cons, <- IH1, Hp, IH2. auto.
Qed.

Lemma span_covers_prefix (p : ascii -> bool) (v t : string) :
  Str.all p v = true ->
  (Str.len v <= Str.len (fst (Str.span p (v +:+ t))))%nat.
Proof.
  induction v as [|a v IH]; intros Hv; [simpl; lia|].
  rewrite app_cons. simpl in *. apply andb_true_iff in Hv as [Ha Hv].
  rewrite Ha. specialize (IH Hv).
  destruct (Str.span p (v +:+ t)). unfold Str.len in *. simpl in *. lia.
Qed.

(** Greedy repetition before a continuation that always goes through
    takes the longest run. *)
Lemma rep_greedy_accepting p lo i s k :
  (forall j t, k j t <> None) ->
  (lo <= Str.len (fst (Str.span p s)))%nat ->
  rep_match true p lo i s k
  = k (i + Str.len (fst (Str.span p s)))%nat (snd (Str.span p s)).
Proof.
  intros Hk. revert lo i. induction s as [|a s IH]; intros lo i Hlo.
  - simpl in *. assert (lo = 0%nat) as -> by lia.
    rewrite Nat.add_0_r. reflexivity.
  - simpl in *. destruct (p a) eqn:Hp.
    + destruct (Str.span p s) as [w post] eqn:Es. simpl in *.
      rewrite (IH (Nat.pred lo) (S i)) by (unfold Str.len in *; simpl in *; lia).
      unfold Str.len. simpl. rewrite Nat.add_succ_r.
      destruct (k (S (i + String.length w)) post) eqn:E; [reflexivity|].
      exfalso. eapply Hk, E.
    + simpl in *. assert (lo = 0%nat) as -> by lia.
      rewrite Nat.add_0_r. reflexivity.
Qed.

Lemma search_from_sound r i s c :
  search_from r i s = Some c ->
  exists pre s', s = pre +:+ s'
                 /\ rmatch r (i + Str.len pre)%nat s' [] accept = Some c.
Proof.
  revert i. induction s as [|a s IH]; intros i H; simpl in H;
    unfold first_of in H.
  - exists EmptyString, EmptyString. rewrite Nat.add_0_r.
    destruct (rmatch r i EmptyString [] accept); [auto|discriminate].
  - destruct (rmatch r i (String a s) [] accept) eqn:E.
    + exists EmptyString, (String a s). rewrite Nat.add_0_r.
      split; [reflexivity|congruence].
    + apply IH in H as (pre & s' & -> & H).
      exists (String a pre), s'. split; [reflexivity|].
      unfold Str.len in *. simpl. rewrite Nat.add_succ_r. exact H.
Qed.

(** Where the name pattern matches, it binds the longest run of word
    characters after the ["to "] it stands at. *)
Lemma uncalled_name_shape j s' c :
  rmatch Street.uncalled_name_re j s' [] accept = Some c ->
  exists w post,
    s' = "to " +:+ w +:+ post /\ w <> EmptyString
    /\ Str.all is_word w = true /\ stops is_word post
    /\ c = [("1", w)].
Proof.
  unfold Street.uncalled_name_re. rewrite rmatch_Cat, rmatch_Lit.
  destruct (Str.drop_prefix "to " s') as [rest|] eqn:Ed; [|discriminate].
  apply drop_prefix_Some in Ed as ->.
  rewrite rmatch_Grp. unfold plus. rewrite rmatch_Rep. intros H.
  pose proof H as H'.
  apply ReFacts.rep_match_sound in H' as (v & t & Ev & Hv & Hlo & _).
  pose proof (span_covers_prefix is_word v t Hv) as Hcov.
  rewrite <- Ev in Hcov.
  rewrite rep_greedy_accepting in H; [|discriminate|lia].
  destruct (span_spec is_word rest) as (Es & Hw & Hpost).
  destruct (Str.span is_word rest) as [w post]. simpl in *.
  exists w, post. split; [congruence|]. split.
  { intros ->. simpl in Hcov. lia. }
  split; [exact Hw|]. split; [exact Hpost|].
  unfold accept in H. injection H as <-.
  replace (j + 3 + Str.len w - (j + 3))%nat with (Str.len w) by lia.
  rewrite Es, take_app. reflexivity.
Qed.

Lemma parse_uncalled_some line s l n a d s' l' :
  Street._parse_uncalled line s l = Ok (Some (n, a, d)) s' l' ->
  a = RETURN
  /\ exists nm, Re.search Street.uncalled_name_re line = Some nm
                /\ n = grp nm "1".
Proof.
  unfold Street._parse_uncalled, try_, bind, Decimal_.
  destruct (Re.search Street.uncalled_amount_re line) as [am|];
    [|simpl; discriminate].
  destruct (Re.search Street.uncalled_name_re line) as [nm|];
    [|simpl; discriminate].
  destruct (Dec.of_string _); simpl; [|discriminate].
  intros [= <- <- <- <- <-]. eauto.
Qed.

(** C10: the recipient an uncalled-bet line records is always a run of
    word characters that stands right after a ["to "] and ends where
    the word characters end, so it is never a name with a character
    outside the word class in it; and when the name starts with word
    characters [w] and goes on with such a character, the RETURN
    action, with the amount of the line, records exactly [w], the
    longest leading run of the name. *)
Theorem uncalled_recipient_is_leading_word_run
    (dollar : bool) (ip : string) (fp : option string)
    (w : string) (c : ascii) (rest : string)
    (s : Street._Street) (l : Log) :
  digit_run ip -> (forall f, fp = Some f -> digit_run f) ->
  w <> EmptyString -> Str.all is_word w = true -> is_word c = false ->
  Street._parse_uncalled
    (uncalled_line (amount_text dollar ip fp) (w +:+ String c rest)) s l
  = Ok (Some (w, RETURN,
              Some (Fin false (Str.to_N (ip +:+ frac_digits fp))
                              (- Z.of_nat (Str.len (frac_digits fp))))))
       s l
  /\ Str.span is_word (w +:+ String c rest) = (w, String c rest)
  /\ w <> w +:+ String c rest
  /\ forall amount recipient s0 l0 n a d s' l',
       Str.all is_word recipient = false ->
       Street._parse_uncalled (uncalled_line amount recipient) s0 l0
       = Ok (Some (n, a, d)) s' l' ->
       a = RETURN /\ n <> recipient /\ n <> EmptyString
       /\ Str.all is_word n = true
       /\ exists pre post,
            uncalled_line amount recipient = pre +:+ "to " +:+ n +:+ post
            /\ stops is_word post.
Proof.
  intros Hip Hfp Hne Hw Hc. split; [|split; [|split]].
  - unfold Street._parse_uncalled, try_.
    rewrite (uncalled_amount_found _ _ _ _ Hip Hfp).
    rewrite (uncalled_name_found _ _ _ _ _ _ Hip Hfp Hne Hw Hc).
    unfold bind, Decimal_. cbn [grp group String.eqb Ascii.eqb Bool.eqb].
    rewrite (amount_text_plain _ _ _ Hip Hfp).
    rewrite (of_string_amount _ _ Hip Hfp). reflexivity.
  - apply span_app; [exact Hw|exact Hc].
  - intros E. apply (f_equal Str.len) in E. rewrite len_app in E.
    unfold Str.len in E. simpl in E. lia.
  - intros amount recipient s0 l0 n a d s' l' Hrec Hrun.
    apply parse_uncalled_some in Hrun as (-> & nm & Hnm & ->).
    apply search_from_sound in Hnm as (pre & t & Eline & Hm).
    apply uncalled_name_shape in Hm as (w' & post & -> & Hw'ne & Hw' & Hpost & ->).
    cbn [grp group String.eqb Ascii.eqb Bool.eqb].
    split; [reflexivity|]. split; [congruence|]. split; [exact Hw'ne|].
    split; [exact Hw'|]. exists pre, post. split; [exact Eline|exact Hpost].
Qed.

End UncalledFacts.

(** ** The stages of the hand parse *)

#[local] Arguments Re.match_ : simpl never.
#[local] Arguments Re.search : simpl never.
#[local] Arguments Str.strip : simpl never.
#[local] Arguments Str.lines : simpl never.
#[local] Arguments Str.split_str : simpl never.
#[local] Arguments Str.split_ws : simpl never.
#[local] Arguments Str.upper : simpl never.
#[local] Arguments Str.lower : simpl never.
#[local] Arguments Dec.of_string : simpl never.
#[local] Arguments Hand.section_lines : simpl never.

Section HandFacts.
Context `{V : Vocabulary}.

Import Hand.

Lemma split_on_head sep s : exists x xs, Str.split_on sep s = x :: xs.
Proof.
  induction s as [|c s (x & xs & IH)]; simpl; [eauto|].
  destruct (Ascii.eqb c sep); [eauto|]. rewrite IH. eauto.
Qed.

Lemma split_str_head sep k s : exists x xs, Str.split_str sep k s = x :: xs.
Proof.
  unfold Str.split_str. revert k.
  induction s as [|c s IH]; intros k; simpl; [eauto|].
  destruct k as [|k]; [|apply IH].
  destruct (Str.startswith sep (String c s)); [eauto|].
  destruct (IH 0%nat) as (x & xs & ->). eauto.
Qed.

Lemma lines_lookup_0 (s : string) :
  Str.lines s !! 0%nat = Some (default EmptyString (Str.lines s !! 0%nat)).
Proof.
  unfold Str.lines. destruct (split_on_head newline s) as (x & xs & ->).
  reflexivity.
Qed.

Lemma split_str_lookup_0 sep (s : string) :
  Str.split_str sep 0 s !! 0%nat
  = Some (default EmptyString (Str.split_str sep 0 s !! 0%nat)).
Proof. destruct (split_str_head sep 0 s) as (x & xs & ->). reflexivity. Qed.

(** The header stage on a fresh object: fatal when the line does not
    match. *)
Lemma parse_header_no_match hand_text sections_ l :
  Re.match_ _header_re (header_line hand_text) = None ->
  parse_header (new hand_text sections_) l
  = Raise (RuntimeError header_error)
      (set__splitted (Some (Str.split_str "***" 0 hand_text))
         (new hand_text sections_))
      (l ++ [(ERROR, header_error)]).
Proof.
  intros H. unfold parse_header, _split_raw, bind, modify, get. simpl.
  rewrite split_str_lookup_0. simpl.
  rewrite lines_lookup_0. simpl. fold (header_line hand_text). rewrite H.
  reflexivity.
Qed.

Lemma lang_cats_cons r r' rs v :
  ReLang.lang (cats (r :: r' :: rs)) v ->
  exists v1 v2, v = v1 +:+ v2 /\ ReLang.lang r v1
                /\ ReLang.lang (cats (r' :: rs)) v2.
Proof. intros H. exact H. Qed.

Lemma nonempty_run p w :
  Str.all p w = true /\ (1 <= Str.len w)%nat -> Str.is_empty w = false.
Proof. intros [_ H]. destruct w; [simpl in H; lia|reflexivity]. Qed.

(** A line the header pattern matches carries the hand identity. *)
Lemma header_match_has_ident (line : string) (m : caps) :
  Re.match_ _header_re line = Some m -> has_hand_ident line = true.
Proof.
  intros H. apply ReFacts.match_sound in H as [(v & s' & -> & L) _].
  unfold _header_re in L.
  apply lang_cats_cons in L as (v0 & u0 & -> & L0 & L).
  apply lang_cats_cons in L as (v1 & u1 & -> & L1 & L).
  apply lang_cats_cons in L as (w1 & u2 & -> & Lw1 & L).
  apply lang_cats_cons in L as (v3 & u3 & -> & L3 & L).
  apply lang_cats_cons in L as (w2 & u4 & -> & Lw2 & L).
  apply lang_cats_cons in L as (v5 & u5 & -> & L5 & L).
  apply lang_cats_cons in L as (ds & u6 & -> & Lds & L).
  apply lang_cats_cons in L as (v7 & u7 & -> & L7 & _).
  simpl in L0, L1, L3, L5, L7. subst v0 v1 v3 v5 v7.
  unfold plus in Lw1, Lw2, Lds. simpl in Lw1, Lw2, Lds.
  rewrite !app_assoc_s, app_empty_l. unfold has_hand_ident.
  rewrite drop_prefix_app.
  rewrite (span_app is_space w1); [|apply Lw1|reflexivity].
  rewrite drop_prefix_app.
  rewrite (span_app is_space w2); [|apply Lw2|reflexivity].
  rewrite app_cons, app_empty_l.
  rewrite (span_app is_digit ds); [|apply Lds|reflexivity].
  rewrite (nonempty_run _ _ Lw1), (nonempty_run _ _ Lw2),
    (nonempty_run _ _ Lds).
  reflexivity.
Qed.

(** C5: a transcript whose header line lacks the hand identity does not
    match the header grammar, and the parse raises the fatal error: the
    call returns no object, and the error is the one log entry. *)
Theorem missing_ident_is_fatal
    (hand_text : string) (sections_ : gmap string string) :
  has_hand_ident (header_line hand_text) = false ->
  Re.match_ _header_re (header_line hand_text) = None
  /\ exists h,
       run hand_text sections_
       = Raise (RuntimeError header_error) h [(ERROR, header_error)].
Proof.
  intros Hid.
  assert (Hre : Re.match_ _header_re (header_line hand_text) = None).
  { destruct (Re.match_ _header_re (header_line hand_text)) as [m|] eqn:E;
      [|reflexivity].
    apply header_match_has_ident in E. congruence. }
  split; [exact Hre|].
  unfold run, parse, bind at 1. simpl.
  unfold bind at 1. rewrite (parse_header_no_match _ _ _ Hre). eauto.
Qed.

Lemma amount_or_default (a b : option string) :
  (forall w, a = Some w -> exists d, Dec.of_string w = Some d) ->
  (forall w, b = Some w -> exists d, Dec.of_string w = Some d) ->
  exists d, Dec.of_string (default "0.00" (Str.or_else a b)) = Some d.
Proof.
  intros Ha Hb. unfold Str.or_else.
  destruct (Str.truthy a) eqn:Ta.
  - destruct a as [w|]; [|discriminate]. apply (Ha w eq_refl).
  - destruct b as [w|]; [apply (Hb w eq_refl)|].
    exists zero2. reflexivity.
Qed.

Lemma header_group_amount (m : caps) (line n : string) :
  Re.match_ _header_re line = Some m ->
  ReLang.groups_named n _header_re = [number]
  \/ ReLang.groups_named n _header_re = [plus is_digit] ->
  forall w, group m n = Some w -> exists d, Dec.of_string w = Some d.
Proof.
  intros Hm Hg w Hw. apply ReFacts.match_sound in Hm as (_ & Hb & _).
  destruct (Hb _ _ Hw) as (g & Hin & L).
  destruct Hg as [Hg|Hg]; rewrite Hg in Hin; destruct Hin as [<-|[]].
  - apply of_string_number, L.
  - apply of_string_digits, L.
Qed.

(** The header stage returns whenever the line matches. *)
Lemma parse_header_returns hand_text sections_ m l :
  Re.match_ _header_re (header_line hand_text) = Some m ->
  exists h1 l1,
    parse_header (new hand_text sections_) l = Ok tt h1 l1
    /\ header_done sections_ h1.
Proof.
  intros Hm.
  destruct (amount_or_default (group m "sb") (group m "cash_sb"))
    as [sb_ Hsb];
    [apply (header_group_amount _ _ _ Hm); right; reflexivity
    |apply (header_group_amount _ _ _ Hm); left; reflexivity|].
  destruct (amount_or_default (group m "bb") (group m "cash_bb"))
    as [bb_ Hbb];
    [apply (header_group_amount _ _ _ Hm); right; reflexivity
    |apply (header_group_amount _ _ _ Hm); left; reflexivity|].
  destruct (amount_or_default (group m "buyin") None) as [buyin_ Hbuyin];
    [apply (header_group_amount _ _ _ Hm); left; reflexivity|discriminate|].
  destruct (amount_or_default (group m "rake") None) as [rake_ Hrake];
    [apply (header_group_amount _ _ _ Hm); left; reflexivity|discriminate|].
  unfold parse_header, _split_raw, bind, modify, get. simpl.
  rewrite split_str_lookup_0. simpl.
  rewrite lines_lookup_0. simpl. fold (header_line hand_text). rewrite Hm.
  unfold Decimal_. rewrite Hsb, Hbb. simpl.
  destruct (Str.truthy (group m "tournament_ident")); simpl;
    rewrite ?Hbuyin, ?Hrake; simpl;
    match goal with
    | |- context [if ?b then _ else _] => destruct b
    end; simpl;
    repeat match goal with
           | |- context [match ?x with _ => _ end] =>
               match x with
               | Currency _ => destruct x
               | Game _ => destruct x
               | Limit _ => destruct x
               | parse_date _ => destruct x
               end; simpl
           end;
    (eexists; eexists; split; [reflexivity|]);
    repeat split.
Qed.

Lemma header_lines_lookup_0 (h : PokerStarsHandHistory) :
  section_lines h "HEADER" !! 0%nat = Some (table_line (sections h)).
Proof. unfold section_lines, table_line. apply lines_lookup_0. Qed.

(** The table stage: it raises on a first line that does not match, and
    otherwise stores the name and the number of seats. *)
Lemma parse_table_no_match (h : PokerStarsHandHistory) (l : Log) :
  Re.match_ _table_re (table_line (sections h)) = None ->
  _parse_table h l
  = Raise (RuntimeError table_error) h
      ((l ++ [(ERROR, table_error)])
       ++ [(ERROR, "Error parsing table section: " +:+ table_error)]).
Proof.
  intros H. unfold _parse_table, try_, bind, get. simpl.
  rewrite header_lines_lookup_0. simpl. rewrite H. reflexivity.
Qed.

Lemma parse_table_match (h : PokerStarsHandHistory) (l : Log) (m : caps) :
  Re.match_ _table_re (table_line (sections h)) = Some m ->
  _parse_table h l
  = Ok tt
      (set_max_players (Some (Str.to_Z (grp m "max_players")))
         (set_table_name (Some (grp m "table_name")) h))
      l.
Proof.
  intros H. unfold _parse_table, try_, bind, get. simpl.
  rewrite header_lines_lookup_0. simpl. rewrite H. reflexivity.
Qed.

Lemma init_seats_length (n : Z) : length (_init_seats n) = Z.to_nat n.
Proof. unfold _init_seats. rewrite length_map, length_seq. reflexivity. Qed.

Lemma get_players_linked (P R : PokerStarsHandHistory -> Prop) :
  (forall h, P h -> R h) ->
  triple P get_players (fun r h => P h /\ players h = Some r) R.
Proof.
  intros HR h l Hh. unfold get_players, bind, get. simpl.
  destruct (players h) eqn:E; simpl; auto.
Qed.

Lemma assign_length {S} (P R : S -> Prop) (r : list Player) i p :
  (forall s, P s -> R s) ->
  triple P (assign r i p) (fun r' s => P s /\ length r' = length r) R.
Proof.
  intros HR s l Hs. unfold assign.
  destruct (py_index (length r) i); simpl; [|auto].
  split; [exact Hs|apply length_insert].
Qed.

Lemma seat_loop_keeps sections_ n (lines : list string) :
  keeps (seated sections_ n) (seat_loop lines).
Proof.
  induction lines as [|line rest IH]; simpl; [apply keeps_ret|].
  destruct (Re.match_ _seat_re (Str.strip line)) as [m|]; [|apply keeps_ret].
  apply keeps_bind; [apply keeps_Decimal|intros stack_].
  eapply triple_bind; [apply get_players_linked; auto|intros roster].
  eapply triple_bind.
  { apply (assign_length (fun h => seated sections_ n h
                                   /\ players h = Some roster)).
    intros h [H _]. exact H. }
  intros roster'. eapply triple_bind; [|intros ?; exact IH].
  apply triple_modify.
  intros h [[[Hd [Hn (r & Hr & Hl)]] Hp] Hlen]. split; [exact Hd|].
  split; [exact Hn|]. exists roster'. split; [reflexivity|].
  simpl in Hr, Hp. congruence.
Qed.

(** The roster stage, when it returns, leaves a roster of that length. *)
Lemma parse_players_seats sections_ n :
  triple (fun h => header_done sections_ h /\ max_players h = Some n)
    _parse_players (fun _ => seated sections_ n) (fun _ => True).
Proof.
  unfold _parse_players.
  eapply triple_try with (R' := fun _ => True);
    [|intros e; eapply triple_bind;
        [apply triple_logging with (Q := fun _ _ => True); auto
        |intros ?; apply triple_raise; auto]].
  eapply triple_bind; [apply triple_get|intros h0].
  eapply triple_bind.
  { apply triple_expect with
      (Q := fun k h => k = n /\ header_done sections_ h
                       /\ max_players h = Some n); [|auto].
    intros k h Hk [-> [Hd Hn]]. split; [congruence|auto]. }
  intros k. eapply triple_bind.
  { apply triple_modify with (Q := fun _ => seated sections_ n).
    intros h (-> & Hd & Hn). split; [exact Hd|]. split; [exact Hn|].
    exists (_init_seats n). split; [reflexivity|apply init_seats_length]. }
  intros ?.
  eapply triple_weaken; [apply (seat_loop_keeps sections_ n)|auto..].
Qed.

(** The button stage: nothing ever assigns [_table_match], so reading it
    fails and the button is left unresolved. *)
Lemma parse_button_unresolved (h : PokerStarsHandHistory) (l : Log) :
  _table_match h = None ->
  _parse_button h l
  = Ok tt (set_button None h)
      (l ++ [(ERROR, "Error identifying button: "
                     +:+ exn_str (no_attribute "_table_match"))]).
Proof.
  intros H. unfold _parse_button, try_, bind, get. simpl. rewrite H.
  reflexivity.
Qed.

(** Closes the goals of a stage that only assigns attributes the
    invariant does not mention. *)
Ltac stage_keeps :=
  repeat first
    [ apply keeps_try; [|intros]
    | apply keeps_bind; [|intros]
    | apply keeps_mapM; intros
    | solve [auto with steps]
    | apply keeps_modify; intros ? HI; exact HI ].

Lemma get_hero_linked (P : PokerStarsHandHistory -> Prop) hero_name :
  triple P (_get_hero_from_players hero_name)
    (fun hi h => P h /\ exists r, players h = Some r
                                   /\ r !! (snd hi) = Some (fst hi))
    P.
Proof.
  intros h l Hh. unfold _get_hero_from_players, get_players, bind, get.
  simpl. destruct (players h) as [r|] eqn:Er; simpl; [|exact Hh].
  destruct (index_where _ r) as [i|]; simpl; [|exact Hh].
  destruct (r !! i) as [p|] eqn:Ei; simpl; [|exact Hh]. eauto.
Qed.

Lemma hero_loop_keeps sections_ n names (lines : list string) :
  keeps (settled sections_ n names) (hero_loop lines).
Proof.
  induction lines as [|line rest IH]; simpl; [stage_keeps|].
  destruct (Re.match_ _hero_re (Str.strip line)) as [m|]; [|exact IH].
  eapply triple_bind; [apply get_hero_linked|intros [hero_ hero_index]].
  eapply triple_bind.
  { apply triple_of_result with
      (Q := fun _ h => settled sections_ n names h
                       /\ exists r, players h = Some r
                                     /\ r !! hero_index = Some hero_);
      [auto|intros h [H _]; exact H]. }
  intros c.
  eapply triple_bind;
    [apply get_players_linked; intros h [H _]; exact H|intros roster].
  eapply triple_bind.
  { apply triple_modify with (Q := fun _ => settled sections_ n names).
    intros h [[(Hd & Hn & (r & Hr & Hns) & Hb) (r0 & Hr0 & Hi)] Hp].
    split; [exact Hd|]. split; [exact Hn|]. split; [|exact Hb].
    eexists. split; [reflexivity|].
    assert (r0 = roster) as -> by congruence.
    assert (r = roster) as -> by congruence.
    rewrite list_fmap_insert. simpl. rewrite <- Hns.
    apply list_insert_id. rewrite list_lookup_fmap, Hi. reflexivity. }
  intros ?. apply keeps_bind; [stage_keeps|intros ?].
  eapply triple_bind; [apply triple_get|intros h0].
  eapply triple_bind.
  { apply triple_expect with (Q := fun _ _ => False).
    - intros b h Hb [-> (_ & _ & _ & Hn)]. simpl in Hb. congruence.
    - intros h [_ H]. exact H. }
  intros b h l [].
Qed.

Lemma parse_hero_keeps sections_ n names :
  keeps (settled sections_ n names) _parse_hero.
Proof.
  unfold _parse_hero. apply keeps_try; [|intros; stage_keeps].
  apply keeps_bind; [apply keeps_get|intros h]. apply hero_loop_keeps.
Qed.

Lemma new_street_keeps (P : PokerStarsHandHistory -> Prop) lines :
  keeps P (new_street lines).
Proof.
  intros h l Hh. unfold new_street.
  destruct (Street.new None lines l); exact Hh.
Qed.

Lemma set_street_actions_keeps sections_ n names street v :
  keeps (settled sections_ n names) (set_street_actions street v).
Proof.
  unfold set_street_actions.
  repeat match goal with
         | |- keeps _ (if ?b then _ else _) => destruct b
         end; stage_keeps.
Qed.

Lemma pot_loop_keeps sections_ n names lines :
  keeps (settled sections_ n names) (pot_loop lines).
Proof.
  induction lines as [|line rest IH]; simpl.
  - unfold set_pot_and_rake. stage_keeps.
  - destruct (Re.match_ _pot_re (Str.strip line)); [stage_keeps|exact IH].
Qed.

Lemma board_loop_keeps sections_ n names lines :
  keeps (settled sections_ n names) (board_loop lines).
Proof.
  induction lines as [|line rest IH]; simpl; [stage_keeps|].
  destruct (Re.search _board_re line); [stage_keeps|exact IH].
Qed.

Lemma late_stage_total (m : M PokerStarsHandHistory unit) :
  In m late_stages -> total m.
Proof.
  unfold late_stages. simpl.
  intros [<-|[<-|[<-|[<-|[<-|[<-|[<-|[<-|[<-|[<-|[<-|[]]]]]]]]]]]];
    unfold _parse_hero, _parse_preflop, _parse_flop, _parse_street,
      _parse_showdown, _parse_pot, _parse_board, _parse_winners,
      _del_split_vars, set_pot_and_rake, set_street_actions;
    simpl; step_total.
Qed.

Lemma late_stage_keeps sections_ n names (m : M PokerStarsHandHistory unit) :
  In m late_stages -> keeps (settled sections_ n names) m.
Proof.
  unfold late_stages. simpl.
  intros [<-|[<-|[<-|[<-|[<-|[<-|[<-|[<-|[<-|[<-|[<-|[]]]]]]]]]]]].
  - apply parse_hero_keeps.
  - unfold _parse_preflop. stage_keeps.
  - unfold _parse_flop. apply keeps_try; [|intros; stage_keeps].
    apply keeps_bind; [apply keeps_get|intros h].
    destruct (sections h !! "FLOP"); [|stage_keeps].
    apply keeps_bind; [apply new_street_keeps|intros]. stage_keeps.
  - unfold _parse_street.
    apply keeps_try;
      [|intros; apply keeps_bind;
          [stage_keeps|intros; apply set_street_actions_keeps]].
    apply keeps_bind; [apply keeps_get|intros h].
    destruct (sections h !! Str.upper "turn");
      [|apply set_street_actions_keeps].
    apply keeps_bind; [apply new_street_keeps|intros].
    apply set_street_actions_keeps.
  - unfold _parse_street.
    apply keeps_try;
      [|intros; apply keeps_bind;
          [stage_keeps|intros; apply set_street_actions_keeps]].
    apply keeps_bind; [apply keeps_get|intros h].
    destruct (sections h !! Str.upper "river");
      [|apply set_street_actions_keeps].
    apply keeps_bind; [apply new_street_keeps|intros].
    apply set_street_actions_keeps.
  - unfold _parse_showdown. stage_keeps.
  - unfold _parse_pot, set_pot_and_rake.
    apply keeps_try; [|intros; stage_keeps].
    apply keeps_bind; [apply keeps_get|intros h].
    destruct (sections h !! "SUMMARY"); [apply pot_loop_keeps|stage_keeps].
  - unfold _parse_board.
    apply keeps_try; [|intros; stage_keeps].
    apply keeps_bind; [apply keeps_get|intros h].
    destruct (sections h !! "SUMMARY"); [apply board_loop_keeps|stage_keeps].
  - unfold _parse_winners.
    apply keeps_try; [|intros; stage_keeps].
    apply keeps_bind; [apply keeps_get|intros h].
    destruct (sections h !! "SUMMARY"); stage_keeps.
  - unfold _del_split_vars. stage_keeps.
  - stage_keeps.
Qed.

Lemma run_stages_total {S} (ms : list (M S unit)) :
  (forall m, In m ms -> total m) -> total (run_stages ms).
Proof.
  induction ms as [|m ms IH]; intros H; simpl; [apply total_ret|].
  apply total_bind; [apply H; left; reflexivity|intros _].
  apply IH. intros m' Hm'. apply H. right. exact Hm'.
Qed.

Lemma run_stages_keeps {S} (P : S -> Prop) (ms : list (M S unit)) :
  (forall m, In m ms -> keeps P m) -> keeps P (run_stages ms).
Proof.
  induction ms as [|m ms IH]; intros H; simpl; [apply keeps_ret|].
  apply keeps_bind; [apply H; left; reflexivity|intros _].
  apply IH. intros m' Hm'. apply H. right. exact Hm'.
Qed.

Lemma run_stages_app {S} (ms1 ms2 : list (M S unit)) (s : S) (l : Log) :
  run_stages (ms1 ++ ms2) s l
  = match run_stages ms1 s l with
    | Ok _ s' l' => run_stages ms2 s' l'
    | Raise e s' l' => Raise e s' l'
    end.
Proof.
  revert s l. induction ms1 as [|m ms IH]; intros s l; [reflexivity|].
  simpl. unfold bind. destruct (m s l); [apply IH|reflexivity].
Qed.

Lemma In_take {A} (x : A) k (xs : list A) : In x (take k xs) -> In x xs.
Proof.
  revert k. induction xs as [|y xs IH]; intros [|k]; simpl; try tauto.
  intros [->|H]; [auto|right; eapply IH; exact H].
Qed.

(** From the button stage on nothing raises, and the roster, the section
    map and the unresolved button stay as they are. *)
Lemma late_stages_return sections_ n names k
    (h : PokerStarsHandHistory) (l : Log) :
  settled sections_ n names h ->
  exists h' l',
    run_stages (take k late_stages) h l = Ok tt h' l'
    /\ settled sections_ n names h'.
Proof.
  intros Hh.
  destruct (run_stages_total (take k late_stages)) with (s := h) (l := l)
    as ([] & h' & l' & E).
  { intros m Hm. apply late_stage_total. eapply In_take, Hm. }
  exists h', l'. split; [exact E|].
  assert (K : keeps (settled sections_ n names)
                    (run_stages (take k late_stages))).
  { apply run_stages_keeps. intros m Hm.
    apply late_stage_keeps. eapply In_take, Hm. }
  specialize (K h l Hh). rewrite E in K. exact K.
Qed.

(** [parse] on a fresh object is the chain of all its stages. *)
Lemma parse_fresh hand_text sections_ (l : Log) :
  parse (new hand_text sections_) l
  = parse_upto (length late_stages) (new hand_text sections_) l.
Proof.
  unfold parse_upto, parse, bind, get. simpl.
  repeat match goal with
         | |- context [match ?x with Ok _ _ _ => _ | Raise _ _ _ => _ end] =>
             destruct x; try reflexivity
         end.
Qed.

Lemma parse_upto_header_fails hand_text sections_ k :
  Re.match_ _header_re (header_line hand_text) = None ->
  parse_upto k (new hand_text sections_) []
  = Raise (RuntimeError header_error)
      (set__splitted (Some (Str.split_str "***" 0 hand_text))
         (new hand_text sections_))
      [(ERROR, header_error)].
Proof.
  intros H. unfold parse_upto, bind at 1.
  rewrite (parse_header_no_match _ _ _ H). reflexivity.
Qed.

Lemma parse_upto_table_fails hand_text sections_ k h1 l1 :
  parse_header (new hand_text sections_) [] = Ok tt h1 l1 ->
  header_done sections_ h1 ->
  Re.match_ _table_re (table_line sections_) = None ->
  parse_upto k (new hand_text sections_) []
  = Raise (RuntimeError table_error) h1 (table_log l1).
Proof.
  intros H1 (Hs & _) Ht. unfold parse_upto, bind at 1. rewrite H1.
  unfold bind at 1. rewrite parse_table_no_match by (rewrite Hs; exact Ht).
  reflexivity.
Qed.

Lemma parse_upto_roster_fails hand_text sections_ k h1 l1 mt e h3 l3 :
  parse_header (new hand_text sections_) [] = Ok tt h1 l1 ->
  header_done sections_ h1 ->
  Re.match_ _table_re (table_line sections_) = Some mt ->
  _parse_players (with_table mt h1) l1 = Raise e h3 l3 ->
  parse_upto k (new hand_text sections_) [] = Raise e h3 l3.
Proof.
  intros H1 (Hs & _) Ht Hp. unfold parse_upto, bind at 1. rewrite H1.
  unfold bind at 1.
  rewrite (parse_table_match _ _ mt) by (rewrite Hs; exact Ht).
  unfold bind at 1. fold (with_table mt h1). rewrite Hp. reflexivity.
Qed.

(** Once the roster stage has returned, every later stage returns. *)
Lemma parse_upto_returns hand_text sections_ k h1 l1 mt h3 l3 :
  parse_header (new hand_text sections_) [] = Ok tt h1 l1 ->
  header_done sections_ h1 ->
  Re.match_ _table_re (table_line sections_) = Some mt ->
  _parse_players (with_table mt h1) l1 = Ok tt h3 l3 ->
  exists r3 h l,
    players h3 = Some r3
    /\ length r3 = Z.to_nat (Str.to_Z (grp mt "max_players"))
    /\ run_stages (take k late_stages) (set_button None h3)
         (l3 ++ [(ERROR, "Error identifying button: "
                         +:+ exn_str (no_attribute "_table_match"))])
       = Ok tt h l
    /\ parse_upto k (new hand_text sections_) [] = Ok tt h l
    /\ settled sections_ (Str.to_Z (grp mt "max_players")) (name <$> r3) h
    /\ settled sections_ (Str.to_Z (grp mt "max_players")) (name <$> r3)
         (set_button None h3).
Proof.
  intros H1 Hd Ht Hp.
  pose proof (parse_players_seats sections_ (Str.to_Z (grp mt "max_players"))
                (with_table mt h1) l1) as Hseat.
  rewrite Hp in Hseat.
  destruct Hseat as [Hd3 [Hn3 (r3 & Hr3 & Hl3)]].
  { destruct Hd as (Hs & Htm & Hhp). repeat split; assumption. }
  destruct (late_stages_return sections_ (Str.to_Z (grp mt "max_players"))
              (name <$> r3) k (set_button None h3)
              (l3 ++ [(ERROR, "Error identifying button: "
                              +:+ exn_str (no_attribute "_table_match"))]))
    as (h & l & Hrun & Hset).
  { split; [exact Hd3|]. split; [exact Hn3|]. split; [eauto|reflexivity]. }
  exists r3, h, l. split; [exact Hr3|]. split; [exact Hl3|].
  split; [exact Hrun|]. split; [|split; [exact Hset|]].
  2: { split; [exact Hd3|]. split; [exact Hn3|].
       split; [eauto|reflexivity]. }
  destruct Hd as (Hs & _). unfold parse_upto, bind at 1. rewrite H1.
  unfold bind at 1.
  rewrite (parse_table_match _ _ mt) by (rewrite Hs; exact Ht).
  unfold bind at 1. fold (with_table mt h1). rewrite Hp.
  unfold bind at 1. rewrite parse_button_unresolved by apply Hd3.
  exact Hrun.
Qed.

(** A seat line that does not match ends the seat run: the lines after
    it are not read, and nothing is logged or raised for it. *)
Lemma seat_loop_stops (pre : list string) (bad : string) (rest : list string) :
  Re.match_ _seat_re (Str.strip bad) = None ->
  forall h l, seat_loop (pre ++ bad :: rest) h l = seat_loop pre h l.
Proof.
  intros Hbad. induction pre as [|line pre IH]; intros h l; simpl.
  - rewrite Hbad. reflexivity.
  - destruct (Re.match_ _seat_re (Str.strip line)); [|reflexivity].
    unfold bind.
    repeat match goal with
           | |- match ?x with Ok _ _ _ => _ | Raise _ _ _ => _ end
                = match ?x with Ok _ _ _ => _ | Raise _ _ _ => _ end =>
               destruct x; [|reflexivity]
           end.
    apply IH.
Qed.



Lemma summary_absent (h : PokerStarsHandHistory) (l : Log) :
  sections h !! "SUMMARY" = None ->
  run_stages summary_stages h l
  = Ok tt
      (set_winners (Some [])
         (set_board None
            (set_rake (Some zero2) (set_total_pot (Some zero2) h))))
      l.
Proof.
  intros H. unfold summary_stages, run_stages, _parse_pot, _parse_board,
    _parse_winners, set_pot_and_rake, try_, bind, get, modify, ret.
  simpl. rewrite H. simpl. rewrite H. simpl. rewrite H. reflexivity.
Qed.

Lemma street_stages_return sections_ n names
    (h : PokerStarsHandHistory) (l : Log) :
  settled sections_ n names h ->
  exists h' l',
    run_stages street_stages h l = Ok tt h' l'
    /\ settled sections_ n names h'.
Proof.
  intros Hh.
  destruct (late_stages_return sections_ n names 6 h l Hh)
    as (h' & l' & E & Hs).
  exists h', l'. split; [exact E|exact Hs].
Qed.

(** C6, as the code has it: with no SUMMARY section the three summary
    stages return without a log entry and leave total pot 0.00, rake
    0.00, no board and no winners; the whole parse returns a hand with
    those values, unless the header, table or roster stage has raised
    before the summary is looked at. *)
Theorem missing_summary_yields_defaults
    (hand_text : string) (sections_ : gmap string string) :
  sections_ !! "SUMMARY" = None ->
  (forall h l, sections h = sections_ ->
     exists h', run_stages summary_stages h l = Ok tt h' l
                /\ summary_defaults h')
  /\ match run hand_text sections_ with
     | Ok _ h l => summary_defaults h
     | Raise e h l => parse_upto 0 (new hand_text sections_) [] = Raise e h l
     end.
Proof.
  intros Hsum. split.
  { intros h l Hs. eexists. split.
    - apply summary_absent. rewrite Hs. exact Hsum.
    - repeat split. }
  unfold run. rewrite parse_fresh.
  destruct (Re.match_ _header_re (header_line hand_text)) as [mh|] eqn:Hmh.
  2: { rewrite !parse_upto_header_fails by exact Hmh. reflexivity. }
  destruct (parse_header_returns hand_text sections_ mh [] Hmh)
    as (h1 & l1 & H1 & Hd).
  destruct (Re.match_ _table_re (table_line sections_)) as [mt|] eqn:Ht.
  2: { rewrite !(parse_upto_table_fails _ _ _ _ _ H1 Hd Ht). reflexivity. }
  destruct (_parse_players (with_table mt h1) l1) as [[] h3 l3|e h3 l3] eqn:Hp.
  2: { rewrite !(parse_upto_roster_fails _ _ _ _ _ _ _ _ _ H1 Hd Ht Hp).
       reflexivity. }
  destruct (parse_upto_returns _ _ (length late_stages) _ _ _ _ _
              H1 Hd Ht Hp) as (r3 & h & l & _ & _ & Hrun & Hup & _ & Hset).
  rewrite Hup. clear Hup.
  rewrite firstn_all in Hrun. unfold late_stages in Hrun.
  rewrite run_stages_app in Hrun.
  destruct (street_stages_return _ _ _ _
              (l3 ++ [(ERROR, "Error identifying button: "
                              +:+ exn_str (no_attribute "_table_match"))])
              Hset)
    as (h6 & l6 & E6 & ((Hs6 & _) & _)).
  rewrite E6, run_stages_app in Hrun.
  rewrite summary_absent in Hrun by (rewrite Hs6; exact Hsum).
  simpl in Hrun. injection Hrun as <- <-. repeat split.
Qed.

(** ** The winners *)

Lemma winners_loop_elem (lines : list string) (W : gset string) (n : string) :
  n ∈ winners_loop lines W
  <-> n ∈ W \/ exists line, line ∈ lines /\ winner_of_line line = Some n.
Proof.
  revert W. induction lines as [|line rest IH]; intros W; simpl.
  - split; [auto|]. intros [H|(line & Hin & _)]; [exact H|].
    inversion Hin.
  - destruct (winner_of_line line) as [w|] eqn:Hw; rewrite IH.
    + rewrite elem_of_union, elem_of_singleton. split.
      * intros [[->|H]|(line' & Hin & H')].
        -- right. exists line. split; [left|exact Hw].
        -- left. exact H.
        -- right. exists line'. split; [right; exact Hin|exact H'].
      * intros [H|(line' & Hin & H')]; [left; right; exact H|].
        apply elem_of_cons in Hin as [->|Hin].
        -- left. left. congruence.
        -- right. exists line'. split; [exact Hin|exact H'].
    + split.
      * intros [H|(line' & Hin & H')]; [left; exact H|].
        right. exists line'. split; [right; exact Hin|exact H'].
      * intros [H|(line' & Hin & H')]; [left; exact H|].
        apply elem_of_cons in Hin as [->|Hin]; [congruence|].
        right. exists line'. split; [exact Hin|exact H'].
Qed.

(** C7: the winners of a SUMMARY section hold no name twice.  A name is
    among them exactly when some line of the section yields it, a name
    that a "collected" line and a "showed ... and won" line both yield
    occurs once, and the lines in another order give the same winners. *)
Theorem winners_hold_each_name_once
    (h : PokerStarsHandHistory) (l : Log) (summary : string) :
  sections h !! "SUMMARY" = Some summary ->
  exists ws,
    _parse_winners h l = Ok tt (set_winners (Some ws) h) l
    /\ NoDup ws
    /\ (forall n, n ∈ ws
                  <-> exists line, line ∈ Str.lines (Str.strip summary)
                                   /\ winner_of_line line = Some n)
    /\ (forall n line1 line2 m1 m2,
          line1 ∈ Str.lines (Str.strip summary) ->
          line2 ∈ Str.lines (Str.strip summary) ->
          Re.match_ _winner_re (Str.strip line1) = Some m1 ->
          Re.match_ _showdown_re (Str.strip line2) = Some m2 ->
          grp m1 "name" = n -> grp m2 "name" = n ->
          count_occ string_dec ws n = 1%nat)
    /\ (forall lines',
          lines' ≡ₚ Str.lines (Str.strip summary) ->
          elements (winners_loop lines' ∅) = ws).
Proof.
  intros Hsum.
  exists (elements (winners_loop (Str.lines (Str.strip summary)) ∅)).
  assert (Hmem : forall n,
            n ∈ elements (winners_loop (Str.lines (Str.strip summary)) ∅)
            <-> exists line, line ∈ Str.lines (Str.strip summary)
                             /\ winner_of_line line = Some n).
  { intros n. rewrite elem_of_elements, winners_loop_elem.
    split; [intros [H|H]; [set_solver|exact H]|auto]. }
  split; [|split; [apply NoDup_elements|split; [exact Hmem|split]]].
  - unfold _parse_winners, try_, bind, get, modify. simpl.
    rewrite Hsum. reflexivity.
  - intros n line1 line2 m1 m2 Hin1 _ Hm1 _ Hn _.
    apply NoDup_count_occ'.
    + apply NoDup_ListNoDup, NoDup_elements.
    + apply list_elem_of_In, Hmem. exists line1. split; [exact Hin1|].
      unfold winner_of_line. rewrite Hm1, Hn. reflexivity.
  - intros lines' Hperm. f_equal. apply set_eq. intros n.
    rewrite !winners_loop_elem.
    split; intros [H|(line & Hin & Hw)]; auto; right; exists line;
      (split; [|exact Hw]).
    + rewrite <- Hperm. exact Hin.
    + rewrite Hperm. exact Hin.
Qed.

(** ** The roster *)

(** On a street without a list of players the join line fails at
    [self.players]: the error is logged and nothing is changed. *)
Lemma join_without_players
    (line : string) (m : caps) (s : Street._Street) (l : Log) :
  Re.match_ Street.join_re line = Some m ->
  Street.players s = None ->
  Street._handle_player_join line s l
  = Ok tt s
      (l ++ [join_error_entry (exn_str Street.no_players_error) line]).
Proof.
  intros Hm Hs. unfold Street._handle_player_join, try_.
  rewrite Hm. unfold bind, get. simpl. rewrite Hs. reflexivity.
Qed.

Lemma handle_player_join_no_players (line : string) :
  keeps (fun s => Street.players s = None) (Street._handle_player_join line).
Proof.
  intros s l Hs. unfold Street._handle_player_join, try_.
  destruct (Re.match_ Street.join_re line) as [m|]; [|exact Hs].
  unfold bind, get. simpl. rewrite Hs. exact Hs.
Qed.

Lemma parse_action_line_no_players (line : string) :
  keeps (fun s => Street.players s = None) (Street.parse_action_line line).
Proof.
  unfold Street.parse_action_line.
  repeat match goal with
         | |- keeps _ (if ?b then _ else _) => destruct b
         end;
    try (apply keeps_bind;
         [apply handle_player_join_no_players|intros; apply keeps_ret]);
    unfold Street._parse_uncalled, Street._parse_collected, Street._parse_muck,
      Street._parse_player_action;
    repeat first
      [ apply keeps_try; [|intros]
      | apply keeps_bind; [|intros]
      | solve [auto with steps]
      | apply keeps_modify; intros; assumption
      | match goal with
        | |- keeps _ (match ?o with _ => _ end) => destruct o
        | |- keeps _ (if ?b then _ else _) => destruct b
        end ].
Qed.

Lemma actions_loop_no_players (lines : list string) :
  forall acc,
    keeps (fun s => Street.players s = None) (Street.actions_loop lines acc).
Proof.
  induction lines as [|line rest IH]; intros acc; simpl.
  - apply keeps_ret.
  - apply keeps_bind; [apply parse_action_line_no_players|].
    intros [a|]; apply IH.
Qed.

Lemma parse_cards_no_players (boardline : string) :
  keeps (fun s => Street.players s = None) (Street._parse_cards boardline).
Proof.
  unfold Street._parse_cards.
  repeat first
    [ apply keeps_try; [|intros]
    | apply keeps_bind; [|intros]
    | apply keeps_mapM; intros
    | solve [auto with steps]
    | apply keeps_modify; intros; assumption
    | match goal with
      | |- keeps _ (match ?o with _ => _ end) => destruct o
      | |- keeps _ (if ?b then _ else _) => destruct b
      end ].
Qed.

(** A street built from its lines alone never holds a list of players. *)
Lemma street_has_no_players (lines : list string) (l : Log) :
  Street.players (state_of (Street.new None lines l)) = None.
Proof.
  assert (K : keeps (fun s => Street.players s = None)
                (first <- expect (lines !! 0%nat) list_index_error ;;
                 Street._parse_cards first ;;
                 Street._parse_actions (drop 1 lines))).
  { apply keeps_bind; [apply keeps_expect|intros first].
    apply keeps_bind; [apply parse_cards_no_players|intros _].
    unfold Street._parse_actions.
    apply keeps_bind; [apply actions_loop_no_players|intros acts].
    apply keeps_modify. auto. }
  specialize (K (Street.init None) l eq_refl). unfold Street.new.
  revert K.
  match goal with
  | |- match ?o with _ => _ end -> _ => destruct o; intros K; exact K
  end.
Qed.

(** Once the roster stage has returned, the later stages keep the
    number of seats and the names in them. *)
Lemma roster_is_settled_by_its_stage
    (hand_text : string) (sections_ : gmap string string) (k : nat) :
  match parse_upto k (new hand_text sections_) [] with
  | Ok _ h l =>
      exists mt h3 l3 r3 r,
        Re.match_ _table_re (table_line sections_) = Some mt
        /\ (parse_header ;; _parse_table ;; _parse_players)
             (new hand_text sections_) [] = Ok tt h3 l3
        /\ players h3 = Some r3
        /\ players h = Some r
        /\ max_players h = Some (Str.to_Z (grp mt "max_players"))
        /\ length r = Z.to_nat (Str.to_Z (grp mt "max_players"))
        /\ name <$> r = name <$> r3
  | Raise _ _ _ => True
  end.
Proof.
  destruct (parse_upto k (new hand_text sections_) []) as [[] h l|] eqn:Hup;
    [|exact I].
  destruct (Re.match_ _header_re (header_line hand_text)) as [mh|] eqn:Hmh.
  2: { rewrite parse_upto_header_fails in Hup by exact Hmh. discriminate. }
  destruct (parse_header_returns hand_text sections_ mh [] Hmh)
    as (h1 & l1 & H1 & Hd).
  destruct (Re.match_ _table_re (table_line sections_)) as [mt|] eqn:Ht.
  2: { rewrite (parse_upto_table_fails _ _ _ _ _ H1 Hd Ht) in Hup.
       discriminate. }
  destruct (_parse_players (with_table mt h1) l1)
    as [[] h3 l3|e h3 l3] eqn:Hp.
  2: { rewrite (parse_upto_roster_fails _ _ _ _ _ _ _ _ _ H1 Hd Ht Hp)
         in Hup. discriminate. }
  destruct (parse_upto_returns _ _ k _ _ _ _ _ H1 Hd Ht Hp)
    as (r3 & h' & l' & Hr3 & Hl3 & _ & Hup' & Hset & _).
  rewrite Hup' in Hup. injection Hup as -> ->.
  destruct Hset as (_ & Hn & (roster & Hros & Hnames) & _).
  exists mt, h3, l3, r3, roster. split; [reflexivity|].
  split.
  { destruct Hd as (Hs & _). unfold bind at 1. rewrite H1.
    unfold bind at 1.
    rewrite (parse_table_match _ _ mt) by (rewrite Hs; exact Ht).
    fold (with_table mt h1). exact Hp. }
  split; [exact Hr3|]. split; [exact Hros|]. split; [exact Hn|].
  split; [|exact Hnames].
  rewrite <- Hl3, <- (length_fmap name roster), Hnames. apply length_fmap.
Qed.

(** The button of a parsed hand is never resolved: [_parse_button] reads
    [_table_match], which no stage assigns. *)
Lemma button_is_never_resolved
    (hand_text : string) (sections_ : gmap string string)
    (h : PokerStarsHandHistory) (l : Log) :
  run hand_text sections_ = Ok tt h l -> button h = None.
Proof.
  unfold run. rewrite parse_fresh. intros Hup.
  destruct (Re.match_ _header_re (header_line hand_text)) as [mh|] eqn:Hmh.
  2: { rewrite parse_upto_header_fails in Hup by exact Hmh. discriminate. }
  destruct (parse_header_returns hand_text sections_ mh [] Hmh)
    as (h1 & l1 & H1 & Hd).
  destruct (Re.match_ _table_re (table_line sections_)) as [mt|] eqn:Ht.
  2: { rewrite (parse_upto_table_fails _ _ _ _ _ H1 Hd Ht) in Hup.
       discriminate. }
  destruct (_parse_players (with_table mt h1) l1)
    as [[] h3 l3|e h3 l3] eqn:Hp.
  2: { rewrite (parse_upto_roster_fails _ _ _ _ _ _ _ _ _ H1 Hd Ht Hp)
         in Hup. discriminate. }
  destruct (parse_upto_returns _ _ (length late_stages) _ _ _ _ _
              H1 Hd Ht Hp) as (r3 & h' & l' & _ & _ & _ & Hup' & Hset & _).
  rewrite Hup' in Hup. injection Hup as -> ->. apply Hset.
Qed.

End HandFacts.

(** ** The theorems at concrete transcripts *)

Section Examples.

Import Hand.


(** C6, refuted as stated: two transcripts without a SUMMARY section on
    which the parse raises, one at the header and one at the table
    line. *)
Lemma missing_summary_parse_can_raise :
  (∅ : gmap string string) !! "SUMMARY" = None
  /\ (exists h,
        run no_ident_text ∅
        = Raise (RuntimeError header_error) h [(ERROR, header_error)])
  /\ bad_table_sections !! "SUMMARY" = None
  /\ (exists h l,
        run bad_table_text bad_table_sections
        = Raise (RuntimeError table_error) h l).
Proof.
  split; [reflexivity|]. split; [eexists; vm_compute; reflexivity|].
  split; [vm_compute; reflexivity|].
  eexists. eexists. vm_compute. reflexivity.
Qed.

(** C9: the roster keeps its length, but a join line seats nobody.
    Whatever part of the parse has run once the roster exists, the
    roster has as many seats as the table line announced, and the names
    in its seats are those the roster stage left: no later stage,
    whatever join lines its section holds, puts a player on a seat.  A
    street is built from its lines alone and holds no list of players,
    so [_handle_player_join] fails at [self.players] on every join line
    of a parse, on an empty seat as on an occupied one: it logs the
    error, changes nothing and goes on.  On the transcript in which Bob
    joins the empty seat 2 of a table of two during the flop, the parse
    returns, seat 2 still holds its placeholder and the log holds the
    error of the join line, while the bet that follows it is
    recorded. *)
Theorem join_line_seats_nobody_during_a_parse :
  (forall (V : Vocabulary) (hand_text : string)
          (sections_ : gmap string string) (k : nat),
     match parse_upto k (new hand_text sections_) [] with
     | Ok _ h l =>
         exists mt h3 l3 r3 r,
           Re.match_ _table_re (table_line sections_) = Some mt
           /\ (parse_header ;; _parse_table ;; _parse_players)
                (new hand_text sections_) [] = Ok tt h3 l3
           /\ players h3 = Some r3
           /\ players h = Some r
           /\ max_players h = Some (Str.to_Z (grp mt "max_players"))
           /\ length r = Z.to_nat (Str.to_Z (grp mt "max_players"))
           /\ name <$> r = name <$> r3
     | Raise _ _ _ => True
     end)
  /\ (forall (V : Vocabulary) (lines : list string) (l : Log),
        Street.players (state_of (Street.new None lines l)) = None)
  /\ (forall (V : Vocabulary) (line : string) (m : caps)
             (s : Street._Street) (l : Log),
        Re.match_ Street.join_re line = Some m ->
        Street.players s = None ->
        exists e,
          Street._handle_player_join line s l
          = Ok tt s (l ++ [join_error_entry e line]))
  /\ (exists h l st r e,
        run join_text join_sections = Ok tt h l
        /\ max_players h = Some 2%Z
        /\ players h = Some r
        /\ name <$> r = ["A"; "Empty Seat 2"]
        /\ In (join_error_entry e join_line) l
        /\ flop h = Some st
        /\ Street.players st = None
        /\ Street.actions st
           = Some [mkAction "A" BET (Some (Fin false 10 (-2)))]).
Proof.
  split; [intros V; apply roster_is_settled_by_its_stage|].
  split; [intros V; apply street_has_no_players|].
  split.
  { intros V line m s l Hm Hs. eexists.
    apply (join_without_players line m s l Hm Hs). }
  exists (state_of (run join_text join_sections)),
         (log_of (run join_text join_sections)).
  eexists. eexists. exists (exn_str Street.no_players_error).
  split; [vm_compute; reflexivity|].
  split; [vm_compute; reflexivity|].
  split; [vm_compute; reflexivity|].
  split; [vm_compute; reflexivity|].
  split; [vm_compute; auto 10|].
  split; [vm_compute; reflexivity|].
  split; vm_compute; reflexivity.
Qed.


Lemma missing_ident_witness :
  has_hand_ident (header_line no_ident_text) = false
  /\ Re.match_ _header_re (header_line no_ident_text) = None
  /\ exists h,
       run no_ident_text ∅
       = Raise (RuntimeError header_error) h [(ERROR, header_error)].
Proof.
  assert (H : has_hand_ident (header_line no_ident_text) = false).
  { vm_compute. reflexivity. }
  split; [exact H|].
  exact (missing_ident_is_fatal no_ident_text ∅ H).
Defined.

Lemma missing_summary_witness :
  good_sections !! "SUMMARY" = None
  /\ (exists h l, run good_text good_sections = Ok tt h l)
  /\ summary_defaults (state_of (run good_text good_sections)).
Proof.
  assert (H : good_sections !! "SUMMARY" = None).
  { vm_compute. reflexivity. }
  assert (E : exists h l, run good_text good_sections = Ok tt h l).
  { eexists. eexists. vm_compute. reflexivity. }
  split; [exact H|]. split; [exact E|].
  pose proof (proj2 (missing_summary_yields_defaults
                       good_text good_sections H)) as D.
  destruct E as (h & l & E). rewrite E in D |- *. exact D.
Defined.

Lemma winners_witness :
  sections twice_hand !! "SUMMARY" = Some twice_summary
  /\ _parse_winners twice_hand [] = Ok tt (set_winners (Some ["A"]) twice_hand) []
  /\ exists ws,
       _parse_winners twice_hand [] = Ok tt (set_winners (Some ws) twice_hand) []
       /\ NoDup ws
       /\ count_occ string_dec ws "A" = 1%nat.
Proof.
  assert (H : sections twice_hand !! "SUMMARY" = Some twice_summary).
  { vm_compute. reflexivity. }
  split; [exact H|]. split; [vm_compute; reflexivity|].
  destruct (winners_hold_each_name_once twice_hand [] twice_summary H)
    as (ws & Hrun & Hnd & _ & Hcount & _).
  exists ws. split; [exact Hrun|]. split; [exact Hnd|].
  apply (Hcount "A" "Seat 1: A collected ($1.00)"
           "Seat 1: A showed [Ah Kd] and won"
           [("amount", "1.00"); ("name", "A")] [("name", "A")]).
  - vm_compute. left.
  - vm_compute. right. left.
  - vm_compute. reflexivity.
  - vm_compute. reflexivity.
  - reflexivity.
  - reflexivity.
Defined.

Lemma uncalled_recipient_witness :
  digit_run "0"
  /\ (forall f, Some "40" = Some f -> digit_run f)
  /\ "Es" <> EmptyString
  /\ Str.all is_word "Es" = true
  /\ is_word " " = false
  /\ uncalled_line (amount_text true "0" (Some "40")) "Es Ayy"
     = "Uncalled bet ($0.40) returned to Es Ayy"
  /\ Street._parse_uncalled "Uncalled bet ($0.40) returned to Es Ayy"
       three_seats []
     = Ok (Some ("Es", RETURN, Some (Fin false 40 (-2)))) three_seats [].
Proof.
  assert (H1 : digit_run "0") by (split; [discriminate|reflexivity]).
  assert (H2 : forall f, Some "40" = Some f -> digit_run f).
  { intros f [= <-]. split; [discriminate|reflexivity]. }
  assert (H3 : "Es" <> EmptyString) by discriminate.
  assert (H4 : Str.all is_word "Es" = true) by reflexivity.
  assert (H5 : is_word " " = false) by reflexivity.
  split; [exact H1|]. split; [exact H2|]. split; [exact H3|].
  split; [exact H4|]. split; [exact H5|]. split; [reflexivity|].
  exact (proj1 (uncalled_recipient_is_leading_word_run
                  true "0" (Some "40") "Es" " " "Ayy" three_seats []
                  H1 H2 H3 H4 H5)).
Defined.

End Examples.


(** * Further properties of the parse steps *)

(** ** More on strings and on the matcher *)

Section ShapeFacts.

Import ReLang ReShape.

Lemma rmatch_Bol i s c k :
  rmatch Bol i s c k = if Nat.eqb i 0 then k i s c else None.
Proof. reflexivity. Qed.

Lemma rmatch_Alt r1 r2 i s c k :
  rmatch (Alt r1 r2) i s c k
  = first_of (rmatch r1 i s c k) (fun _ => rmatch r2 i s c k).
Proof. reflexivity. Qed.

Lemma rmatch_Eps i s c k : rmatch Eps i s c k = k i s c.
Proof. reflexivity. Qed.

(** A pattern without groups hands the groups on as it got them. *)
Lemma rmatch_groupless (r : regex) :
  groupless r = true ->
  forall i s c k x,
    rmatch r i s c k = Some x ->
    exists v s', s = v +:+ s' /\ lang r v
                 /\ k (i + Str.len v)%nat s' c = Some x.
Proof.
  induction r as [| a | w | p | r1 IH1 r2 IH2 | r1 IH1 r2 IH2 | g lo p
                 | m r1 IH1 | | ]; intros G i s c k x H; simpl in H.
  - exists EmptyString, s. rewrite Nat.add_0_r. simpl. auto.
  - destruct s as [|b s]; [discriminate|].
    destruct (Ascii.eqb_spec a b) as [->|]; [|discriminate].
    exists (String b EmptyString), s.
    replace (i + _)%nat with (S i) by (unfold Str.len; simpl; lia).
    simpl. auto.
  - destruct (Str.drop_prefix w s) as [s'|] eqn:Hd; [|discriminate].
    apply drop_prefix_Some in Hd as ->. exists w, s'. simpl. auto.
  - destruct s as [|b s]; [discriminate|].
    destruct (p b) eqn:Hp; [|discriminate].
    exists (String b EmptyString), s.
    replace (i + _)%nat with (S i) by (unfold Str.len; simpl; lia).
    simpl. eauto.
  - simpl in G. apply andb_true_iff in G as [G1 G2].
    apply (IH1 G1) in H as (v1 & s1 & -> & L1 & H).
    apply (IH2 G2) in H as (v2 & s2 & -> & L2 & H).
    exists (v1 +:+ v2), s2. rewrite app_assoc_s, len_app, Nat.add_assoc.
    split; [reflexivity|]. split; [simpl; eauto|exact H].
  - simpl in G. apply andb_true_iff in G as [G1 G2].
    unfold first_of in H. destruct (rmatch r1 i s c k) eqn:H1.
    + injection H as ->.
      apply (IH1 G1) in H1 as (v & s' & -> & L & H).
      exists v, s'. simpl. auto.
    + apply (IH2 G2) in H as (v & s' & -> & L & H).
      exists v, s'. simpl. auto.
  - apply ReFacts.rep_match_sound in H as (v & s' & -> & Hv & Hlo & H).
    exists v, s'. simpl. auto.
  - discriminate.
  - destruct (Nat.eqb i 0); [|discriminate].
    exists EmptyString, s. rewrite Nat.add_0_r. simpl. auto.
  - exists EmptyString, s. rewrite Nat.add_0_r. simpl.
    split; [reflexivity|]. split; [reflexivity|].
    destruct s as [|b [|b' s]]; [exact H| |discriminate].
    destruct (Ascii.eqb b newline); [exact H|discriminate].
Qed.

(** A group over such a pattern binds the very text it consumed. *)
Lemma rmatch_group (n : string) (r : regex) i s c k x :
  groupless r = true ->
  rmatch (Grp n r) i s c k = Some x ->
  exists v s', s = v +:+ s' /\ lang r v
               /\ k (i + Str.len v)%nat s' ((n, v) :: c) = Some x.
Proof.
  intros G H. rewrite rmatch_Grp in H.
  apply (rmatch_groupless r G) in H as (v & s' & -> & L & H).
  replace (i + Str.len v - i)%nat with (Str.len v) in H by lia.
  rewrite take_app in H. eauto.
Qed.

Lemma rmatch_lit (w : string) i s c k x :
  rmatch (Lit w) i s c k = Some x ->
  exists s', s = w +:+ s' /\ k (i + Str.len w)%nat s' c = Some x.
Proof.
  rewrite rmatch_Lit.
  destruct (Str.drop_prefix w s) as [s'|] eqn:Hd; [|discriminate].
  apply drop_prefix_Some in Hd as ->. eauto.
Qed.

Lemma rmatch_chr (a : ascii) i s c k x :
  rmatch (Chr a) i s c k = Some x ->
  exists s', s = String a s' /\ k (S i) s' c = Some x.
Proof.
  destruct s as [|b s]; [discriminate|]. rewrite rmatch_Chr.
  destruct (Ascii.eqb_spec a b) as [->|]; [eauto|discriminate].
Qed.

(** The pattern matched the whole line, up to a final newline. *)
Lemma rmatch_eol i s c x :
  rmatch Eol i s c accept = Some x ->
  (s = EmptyString \/ s = String newline EmptyString) /\ x = c.
Proof.
  simpl. destruct s as [|b [|b' s]]; [intros [= <-]; auto| |discriminate].
  destruct (Ascii.eqb_spec b newline) as [->|]; [|discriminate].
  intros [= <-]. auto.
Qed.

Lemma contains_cons (sub : string) (a : ascii) (s : string) :
  Str.contains sub (String a s)
  = Str.startswith sub (String a s) || Str.contains sub s.
Proof. reflexivity. Qed.

Lemma startswith_char (c a : ascii) (s : string) :
  Str.startswith (String c EmptyString) (String a s) = Ascii.eqb c a.
Proof.
  unfold Str.startswith. simpl. destruct (Ascii.eqb c a); reflexivity.
Qed.

(** A text without the character [c]. *)
Lemma contains_char_false (c : ascii) (s : string) :
  Str.contains (String c EmptyString) s = false ->
  Str.all (fun a => negb (Ascii.eqb c a)) s = true.
Proof.
  induction s as [|a s IH]; [reflexivity|].
  rewrite contains_cons, startswith_char. intros [Ha Hs]%orb_false_iff.
  simpl. rewrite Ha, (IH Hs). reflexivity.
Qed.

Lemma contains_char_true (c : ascii) (s : string) :
  Str.contains (String c EmptyString) s = true ->
  exists u v, s = u +:+ String c v
              /\ Str.contains (String c EmptyString) u = false.
Proof.
  induction s as [|a s IH]; [discriminate|].
  rewrite contains_cons, startswith_char.
  destruct (Ascii.eqb_spec c a) as [<-|Hne].
  - intros _. exists EmptyString, s. auto.
  - simpl. intros (u & v & -> & Hu)%IH. exists (String a u), v.
    split; [reflexivity|].
    rewrite contains_cons, startswith_char, Hu.
    destruct (Ascii.eqb_spec c a); [contradiction|reflexivity].
Qed.

(** Two ways to cut one text: the shorter first part is a prefix of the
    longer. *)
Lemma app_split_lt (a x p y : string) :
  a +:+ x = p +:+ y -> (Str.len a < Str.len p)%nat ->
  exists b, b <> EmptyString /\ p = a +:+ b /\ x = b +:+ y.
Proof.
  revert p. induction a as [|c a IH]; intros p E Hl.
  - exists p. rewrite app_empty_l in *. split; [|auto].
    intros ->. simpl in Hl. lia.
  - destruct p as [|c' p]; [simpl in Hl; lia|].
    rewrite !app_cons in E. injection E as <- E.
    destruct (IH p E) as (b & Hb & -> & ->);
      [unfold Str.len in *; simpl in Hl; lia|].
    exists b. rewrite app_cons. auto.
Qed.

(** A search stops at the leftmost offset with a match: there is none
    at any offset before it. *)
Lemma search_from_first r i s c :
  search_from r i s = Some c ->
  exists pre s',
    s = pre +:+ s'
    /\ rmatch r (i + Str.len pre)%nat s' [] accept = Some c
    /\ forall a b, pre = a +:+ b -> b <> EmptyString ->
         rmatch r (i + Str.len a)%nat (b +:+ s') [] accept = None.
Proof.
  revert i. induction s as [|x s IH]; intros i H; simpl in H;
    unfold first_of in H.
  - exists EmptyString, EmptyString. rewrite Nat.add_0_r.
    split; [reflexivity|]. split.
    + destruct (rmatch r i EmptyString [] accept); [auto|discriminate].
    + intros [|? ?] [|? ?]; try discriminate. contradiction.
  - destruct (rmatch r i (String x s) [] accept) eqn:E.
    + exists EmptyString, (String x s). rewrite Nat.add_0_r.
      split; [reflexivity|]. split; [congruence|].
      intros [|? ?] [|? ?]; try discriminate. contradiction.
    + apply IH in H as (pre & s' & -> & H & Hfirst).
      exists (String x pre), s'. split; [reflexivity|]. split.
      * unfold Str.len in *. simpl. rewrite Nat.add_succ_r. exact H.
      * intros [|x' a] b Hsplit Hb.
        -- rewrite app_empty_l in Hsplit. subst b.
           simpl Str.len. rewrite Nat.add_0_r, app_cons. exact E.
        -- rewrite app_cons in Hsplit. injection Hsplit as <- ->.
           specialize (Hfirst a b eq_refl Hb).
           unfold Str.len in *. simpl. rewrite Nat.add_succ_r. exact Hfirst.
Qed.

(** A match at some offset is found, or one before it is. *)
Lemma search_from_complete r i pre s' c :
  rmatch r (i + Str.len pre)%nat s' [] accept = Some c ->
  search_from r i (pre +:+ s') <> None.
Proof.
  revert i. induction pre as [|x pre IH]; intros i H.
  - rewrite app_empty_l. simpl in H. rewrite Nat.add_0_r in H.
    rewrite (search_here _ _ _ _ H). discriminate.
  - rewrite app_cons.
    destruct (rmatch r i (String x (pre +:+ s')) [] accept) eqn:E.
    + rewrite (search_here _ _ _ _ E). discriminate.
    + rewrite (search_skip _ _ _ _ E). apply IH.
      unfold Str.len in *. simpl in H. rewrite Nat.add_succ_r in H. exact H.
Qed.

End ShapeFacts.

(** ** The cards of a street *)

Section CardFacts.
Context `{V : Vocabulary}.

Lemma board_search_skips (pre s : string) (i : nat) :
  Str.contains "[" pre = false ->
  search_from Street.board_re i (pre +:+ s)
  = search_from Street.board_re (i + Str.len pre)%nat s.
Proof.
  revert i. induction pre as [|a pre IH]; intros i Hpre.
  - rewrite app_empty_l. simpl. rewrite Nat.add_0_r. reflexivity.
  - rewrite contains_cons, startswith_char in Hpre.
    apply orb_false_iff in Hpre as [Ha Hpre].
    rewrite app_cons, search_skip.
    + rewrite (IH _ Hpre). unfold Str.len. simpl. rewrite Nat.add_succ_r.
      reflexivity.
    + unfold Street.board_re, cats. rewrite rmatch_Cat, rmatch_Chr, Ha.
      reflexivity.
Qed.

Lemma board_search_none (line : string) :
  Str.contains "[" line = false -> Re.search Street.board_re line = None.
Proof.
  intros H. unfold Re.search. rewrite <- (app_empty_r line).
  rewrite (board_search_skips _ _ _ H). reflexivity.
Qed.

Lemma not_rbracket_all (body : string) :
  Str.contains "]" body = false -> Str.all not_rbracket body = true.
Proof.
  intros H%contains_char_false. revert H. apply all_impl.
  intros c Hc. unfold not_rbracket. rewrite Ascii.eqb_sym. exact Hc.
Qed.

Lemma board_search_found (pre body post : string) :
  Str.contains "[" pre = false -> body <> EmptyString ->
  Str.contains "]" body = false ->
  Re.search Street.board_re (board_line pre body post) = Some [("1", body)].
Proof.
  intros Hpre Hne Hbody. unfold Re.search, board_line.
  rewrite (board_search_skips _ _ _ Hpre). apply search_here.
  unfold Street.board_re, cats. rewrite app_cons, app_empty_l.
  rewrite rmatch_Cat, rmatch_Chr. simpl Ascii.eqb. cbv iota.
  rewrite rmatch_Cat, rmatch_Grp. unfold plus. rewrite rmatch_Rep.
  apply rep_greedy_munch;
    [apply not_rbracket_all, Hbody|reflexivity
    |destruct body; [contradiction|simpl; lia]|].
  rewrite app_cons, rmatch_Chr. simpl Ascii.eqb. cbv iota. unfold accept.
  match goal with
  | |- context [Str.take (?a + ?b - ?a)%nat _] =>
      replace (a + b - a)%nat with b by lia
  end.
  rewrite take_app. reflexivity.
Qed.

Lemma mapM_cards {S} (ts : list string) (cs : list card_t)
    (s : S) (l : Log) :
  Forall2 (fun t c => Card t = inr c) ts cs ->
  mapM (fun t => of_result (Card t)) ts s l = Ok cs s l.
Proof.
  intros H. induction H as [|t c ts cs Ht _ IH]; [reflexivity|].
  simpl. unfold bind. rewrite Ht. simpl. rewrite IH. reflexivity.
Qed.

Lemma mapM_cards_returns {S} (ts : list string) (cs : list card_t)
    (s s' : S) (l l' : Log) :
  mapM (fun t => of_result (Card t)) ts s l = Ok cs s' l' ->
  s' = s /\ l' = l /\ length cs = length ts.
Proof.
  revert cs. induction ts as [|t ts IH]; intros cs; simpl.
  - intros [= <- <- <-]. auto.
  - unfold bind. destruct (Card t) as [e|c]; simpl; [discriminate|].
    destruct (mapM _ ts s l) as [ys s1 l1|e s1 l1] eqn:E; [|discriminate].
    intros [= <- <- <-]. destruct (IH ys eq_refl) as (-> & -> & Hl).
    simpl. auto.
Qed.

(** X1: a board line without an opening bracket leaves the street with
    an empty tuple of cards and neither turn nor river; nothing is
    logged or raised. *)
Theorem boardline_without_bracket_gives_no_cards
    (boardline : string) (s : Street._Street) (l : Log) :
  Str.contains "[" boardline = false ->
  Street._parse_cards boardline s l
  = Ok tt (with_cards [] s) l.
Proof.
  intros H. unfold Street._parse_cards.
  rewrite (board_search_none _ H). reflexivity.
Qed.

(** X2: whatever the board line, when [_parse_cards] returns the street
    holds at most three flop cards, a turn card only beside three flop
    cards and a river card only beside a turn card; the actions, the
    pot, the players and the log are as before. *)
Theorem parse_cards_keeps_the_street_shape
    (boardline : string) (s s' : Street._Street) (l l' : Log) :
  Street._parse_cards boardline s l = Ok tt s' l' ->
  l' = l
  /\ Street.actions s' = Street.actions s
  /\ Street.pot s' = Street.pot s
  /\ Street.players s' = Street.players s
  /\ exists cs, Street.cards s' = Some cs /\ (length cs <= 3)%nat
       /\ (is_Some (Street.turn s') -> length cs = 3%nat)
       /\ (is_Some (Street.river s') -> is_Some (Street.turn s')).
Proof.
  unfold Street._parse_cards.
  destruct (Re.search Street.board_re boardline) as [m|].
  2: { simpl. intros [= <- <-]. repeat split; auto.
       exists []. simpl. repeat split; auto; try (intros [? [=]]). }
  set (toks := Str.split_ws (grp m "1")). unfold bind at 1.
  destruct (mapM _ (take 3 toks) s l) as [cs s1 l1|e s1 l1] eqn:E;
    [|discriminate].
  apply mapM_cards_returns in E as (-> & -> & Hlen).
  rewrite length_take in Hlen. unfold bind, modify. simpl.
  destruct (toks !! 3%nat) as [t3|] eqn:E3; simpl.
  - destruct (Card t3) as [e|c3]; simpl; [discriminate|].
    apply lookup_lt_Some in E3.
    destruct (toks !! 4%nat) as [t4|] eqn:E4; simpl.
    + destruct (Card t4) as [e|c4]; simpl; [discriminate|].
      intros [= <- <-]. simpl. repeat split; auto.
      exists cs. repeat split; eauto; lia.
    + intros [= <- <-]. simpl. repeat split; auto.
      exists cs. repeat split; eauto; try lia; try (intros [? [=]]).
  - apply lookup_ge_None in E3.
    assert (toks !! 4%nat = None) as -> by (apply lookup_ge_None; lia).
    simpl. intros [= <- <-]. simpl. repeat split; auto.
    exists cs. repeat split; eauto; try lia; try (intros [? [=]]).
Qed.

(** X3: only the first bracket group of a board line is read, and of
    its tokens only the first five: the first three are the flop, the
    fourth the turn and the fifth the river; what stands before the
    group, after it, or in a later group is ignored. *)
Theorem first_bracket_group_gives_the_cards
    (pre body post : string) (cs : list card_t)
    (s : Street._Street) (l : Log) :
  Str.contains "[" pre = false -> body <> EmptyString ->
  Str.contains "]" body = false ->
  Forall2 (fun t c => Card t = inr c) (take 5 (Str.split_ws body)) cs ->
  Street._parse_cards (board_line pre body post) s l
  = Ok tt (with_cards cs s) l.
Proof.
  intros Hpre Hne Hbody Hcs. unfold Street._parse_cards.
  rewrite (board_search_found _ _ _ Hpre Hne Hbody).
  cbn [grp group String.eqb Ascii.eqb Bool.eqb].
  set (toks := Str.split_ws body) in *.
  assert (H3 : Forall2 (fun t c => Card t = inr c) (take 3 toks) (take 3 cs)).
  { apply (Forall2_take _ _ _ 3) in Hcs. rewrite take_take in Hcs.
    exact Hcs. }
  unfold bind at 1. rewrite (mapM_cards _ _ _ _ H3).
  assert (Hk : forall k, (k < 5)%nat ->
            match toks !! k with
            | Some t => exists c, cs !! k = Some c /\ Card t = inr c
            | None => cs !! k = None
            end).
  { intros k Hk. pose proof (Forall2_length _ _ _ Hcs) as Hlen.
    destruct (toks !! k) as [t|] eqn:Et.
    - assert (Et' : take 5 toks !! k = Some t)
        by (rewrite lookup_take_lt by exact Hk; exact Et).
      destruct (Forall2_lookup_l _ _ _ _ _ Hcs Et') as (c & Hc & Hcard).
      eauto.
    - apply lookup_ge_None. apply lookup_ge_None in Et.
      rewrite <- Hlen, length_take. lia. }
  unfold bind, modify, with_cards. simpl.
  pose proof (Hk 3%nat ltac:(lia)) as K3.
  pose proof (Hk 4%nat ltac:(lia)) as K4.
  destruct (toks !! 3%nat) as [t3|]; simpl.
  - destruct K3 as (c3 & -> & ->). simpl.
    destruct (toks !! 4%nat) as [t4|]; simpl.
    + destruct K4 as (c4 & -> & ->). reflexivity.
    + rewrite K4. reflexivity.
  - rewrite K3. destruct (toks !! 4%nat) as [t4|]; simpl.
    + destruct K4 as (c4 & -> & ->). reflexivity.
    + rewrite K4. reflexivity.
Qed.

End CardFacts.

(** ** Collected pots and mucked hands *)

Section CollectFacts.
Context `{V : Vocabulary}.

Import ReLang ReShape.

Lemma lang_word_run (v : string) : lang (plus is_word) v -> word_run v.
Proof.
  intros [Hv Hl]. split; [|exact Hv]. intros ->. simpl in Hl. lia.
Qed.

Lemma collected_match_shape (line : string) (m : caps) :
  Re.match_ Street.collected_re line = Some m ->
  exists n amt tail,
    line = collected_line n amt tail /\ word_run n /\ lang number amt
    /\ m = [("amount", amt); ("name", n)].
Proof.
  unfold Re.match_, Street.collected_re, cats. intros H.
  rewrite rmatch_Cat, rmatch_Bol in H. simpl Nat.eqb in H. cbv iota in H.
  rewrite rmatch_Cat in H.
  apply rmatch_group in H as (n & s1 & -> & Ln & H); [|reflexivity].
  rewrite rmatch_Cat in H. apply rmatch_lit in H as (s2 & -> & H).
  rewrite rmatch_Cat in H.
  apply rmatch_group in H as (amt & s3 & -> & La & H); [|reflexivity].
  apply rmatch_lit in H as (tail & -> & H).
  unfold accept in H. injection H as <-.
  exists n, amt, tail. split; [reflexivity|].
  split; [apply lang_word_run, Ln|]. split; [exact La|reflexivity].
Qed.

Lemma collected_match_found (name ip : string) (fp : option string)
    (tail : string) :
  word_run name -> digit_run ip -> (forall f, fp = Some f -> digit_run f) ->
  Re.match_ Street.collected_re
    (collected_line name (ip +:+ frac_text fp) tail)
  = Some [("amount", ip +:+ frac_text fp); ("name", name)].
Proof.
  intros [Hne Hw] Hip Hfp.
  unfold Re.match_, Street.collected_re, cats, collected_line.
  rewrite rmatch_Cat, rmatch_Bol. simpl Nat.eqb. cbv iota.
  rewrite rmatch_Cat, rmatch_Grp. unfold plus. rewrite rmatch_Rep.
  apply rep_greedy_munch;
    [exact Hw|reflexivity|destruct name; [contradiction|simpl; lia]|].
  rewrite rmatch_Cat, rmatch_Lit, drop_prefix_app.
  rewrite rmatch_Cat, rmatch_Grp.
  apply number_munch; [exact Hip|exact Hfp|reflexivity|].
  rewrite rmatch_Lit, drop_prefix_app. unfold accept.
  repeat match goal with
         | |- context [Str.take (?a + ?b - ?a)%nat _] =>
             replace (a + b - a)%nat with b by lia
         end.
  rewrite !take_app. reflexivity.
Qed.

Lemma parse_collected_on_match (line : string) (m : caps) (d : Decimal)
    (s : Street._Street) (l : Log) :
  Re.match_ Street.collected_re line = Some m ->
  Dec.of_string (grp m "amount") = Some d ->
  Street._parse_collected line s l
  = Ok (Some (grp m "name", WIN, Some d)) (Street.set_pot (Some d) s) l.
Proof.
  intros Hm Hd. unfold Street._parse_collected, try_. rewrite Hm.
  unfold bind, Decimal_. rewrite Hd. reflexivity.
Qed.

(** X4: a line [name collected $amount from pot ...] whose name is a run
    of word characters is a win of that amount for that player, and the
    amount becomes the street's pot; nothing is logged. *)
Theorem collected_line_is_a_win
    (name ip : string) (fp : option string) (tail : string)
    (s : Street._Street) (l : Log) :
  word_run name -> digit_run ip -> (forall f, fp = Some f -> digit_run f) ->
  Street._parse_collected
    (collected_line name (ip +:+ frac_text fp) tail) s l
  = Ok (Some (name, WIN, Some (amount_value ip fp)))
       (Street.set_pot (Some (amount_value ip fp)) s) l.
Proof.
  intros Hname Hip Hfp.
  rewrite (parse_collected_on_match _ _ (amount_value ip fp) s l
             (collected_match_found _ _ _ tail Hname Hip Hfp));
    [reflexivity|].
  cbn [grp group String.eqb Ascii.eqb Bool.eqb].
  apply of_string_amount; assumption.
Qed.

(** X5: [_parse_collected] never raises and has two outcomes only.
    Either the line starts with a run of word characters, [ collected $],
    an amount and [ from pot]: then the action is a win of that amount
    for exactly that run, and the street's pot is that amount.  Or the
    line is rejected: nothing changes and one error is logged.  So a
    player whose name holds a character outside the word class never
    gets a win recorded under that name. *)
Theorem parse_collected_has_two_outcomes
    (line : string) (s : Street._Street) (l : Log) :
  ((exists n ip fp tail,
      line = collected_line n (ip +:+ frac_text fp) tail
      /\ word_run n /\ digit_run ip /\ (forall f, fp = Some f -> digit_run f)
      /\ Street._parse_collected line s l
         = Ok (Some (n, WIN, Some (amount_value ip fp)))
              (Street.set_pot (Some (amount_value ip fp)) s) l)
   \/ Street._parse_collected line s l
      = Ok None s (l ++ [(ERROR, "Failed to parse collected line: " +:+ line)]))
  /\ forall n a d s' l',
       Street._parse_collected line s l = Ok (Some (n, a, d)) s' l' ->
       Str.all is_word n = true /\ a = WIN /\ Street.pot s' = d.
Proof.
  assert (H : (exists n ip fp tail,
      line = collected_line n (ip +:+ frac_text fp) tail
      /\ word_run n /\ digit_run ip /\ (forall f, fp = Some f -> digit_run f)
      /\ Street._parse_collected line s l
         = Ok (Some (n, WIN, Some (amount_value ip fp)))
              (Street.set_pot (Some (amount_value ip fp)) s) l)
   \/ Street._parse_collected line s l
      = Ok None s (l ++ [(ERROR, "Failed to parse collected line: " +:+ line)])).
  { destruct (Re.match_ Street.collected_re line) as [m|] eqn:Hm.
    - left. pose proof Hm as Hm'.
      apply collected_match_shape in Hm' as (n & amt & tail & -> & Hn & La & ->).
      apply lang_number_amount in La as (ip & fp & -> & Hip & Hfp).
      exists n, ip, fp, tail. split; [reflexivity|].
      split; [exact Hn|]. split; [exact Hip|]. split; [exact Hfp|].
      rewrite (parse_collected_on_match _ _ (amount_value ip fp) s l Hm);
        [reflexivity|].
      cbn [grp group String.eqb Ascii.eqb Bool.eqb].
      apply of_string_amount; assumption.
    - right. unfold Street._parse_collected, try_. rewrite Hm. reflexivity. }
  split; [exact H|].
  intros n a d s' l' Hrun.
  destruct H as [(n0 & ip & fp & tail & _ & [_ Hn] & _ & _ & E)|E];
    rewrite E in Hrun; [|discriminate].
  injection Hrun as <- <- <- <- <-. auto.
Qed.

Lemma muck_match_shape (line : string) (m : caps) :
  Re.match_ Street.muck_re line = Some m ->
  exists n way tail,
    line = muck_line n way tail /\ word_run n /\ muck_way way
    /\ m = [("2", way); ("name", n)].
Proof.
  unfold Re.match_, Street.muck_re, cats. intros H.
  rewrite rmatch_Cat, rmatch_Bol in H. simpl Nat.eqb in H. cbv iota in H.
  rewrite rmatch_Cat in H.
  apply rmatch_group in H as (n & s1 & -> & Ln & H); [|reflexivity].
  rewrite rmatch_Cat in H. apply rmatch_lit in H as (s2 & -> & H).
  apply rmatch_group in H as (way & tail & -> & Lw & H); [|reflexivity].
  unfold accept in H. injection H as <-.
  exists n, way, tail. split; [reflexivity|].
  split; [apply lang_word_run, Ln|]. split; [exact Lw|reflexivity].
Qed.

Lemma muck_match_found (n way tail : string) :
  word_run n -> muck_way way ->
  Re.match_ Street.muck_re (muck_line n way tail)
  = Some [("2", way); ("name", n)].
Proof.
  intros [Hne Hw] Hway.
  unfold Re.match_, Street.muck_re, cats, muck_line.
  rewrite rmatch_Cat, rmatch_Bol. simpl Nat.eqb. cbv iota.
  rewrite rmatch_Cat, rmatch_Grp. unfold plus. rewrite rmatch_Rep.
  apply rep_greedy_munch;
    [exact Hw|reflexivity|destruct n; [contradiction|simpl; lia]|].
  rewrite rmatch_Cat, rmatch_Lit, drop_prefix_app.
  rewrite rmatch_Grp, rmatch_Alt, !rmatch_Lit. unfold first_of, accept.
  destruct Hway as [-> | ->].
  - rewrite drop_prefix_app.
    repeat match goal with
           | |- context [Str.take (?a + ?b - ?a)%nat _] =>
               replace (a + b - a)%nat with b by lia
           end.
    rewrite !take_app. reflexivity.
  - rewrite drop_prefix_app.
    replace (Str.drop_prefix "doesn't show hand" ("mucks" +:+ tail))
      with (@None string) by (rewrite app_cons; reflexivity).
    repeat match goal with
           | |- context [Str.take (?a + ?b - ?a)%nat _] =>
               replace (a + b - a)%nat with b by lia
           end.
    rewrite !take_app. reflexivity.
Qed.

(** X6: [_parse_muck] never raises.  It records a muck for [n] exactly
    when the line is [n], a colon and a blank, and then [doesn't show
    hand] or [mucks], with [n] a run of word characters; it then changes
    nothing and logs nothing.  Every other line is rejected with one
    error in the log. *)
Theorem muck_is_recorded_for_word_names_only
    (line : string) (s : Street._Street) (l : Log) :
  (forall n a d s' l',
     Street._parse_muck line s l = Ok (Some (n, a, d)) s' l'
     <-> a = MUCK /\ d = None /\ s' = s /\ l' = l
         /\ exists way tail,
              line = muck_line n way tail /\ word_run n /\ muck_way way)
  /\ (forall s' l',
        Street._parse_muck line s l = Ok None s' l' ->
        s' = s
        /\ l' = l ++ [(ERROR, "Failed to parse muck line: " +:+ line)])
  /\ exists r s' l', Street._parse_muck line s l = Ok r s' l'.
Proof.
  unfold Street._parse_muck, try_.
  destruct (Re.match_ Street.muck_re line) as [m|] eqn:Hm.
  - pose proof Hm as Hm'.
    apply muck_match_shape in Hm' as (n0 & way & tail & -> & Hn & Hw & ->).
    cbn [grp group String.eqb Ascii.eqb Bool.eqb]. unfold ret.
    split; [|split; [discriminate|eauto]].
    intros n a d s' l'. split.
    + intros [= <- <- <- <- <-]. eauto 10.
    + intros (-> & -> & -> & -> & way' & tail' & E & Hn' & Hw').
      pose proof (muck_match_found n way' tail' Hn' Hw') as Hm2.
      rewrite <- E, Hm in Hm2. injection Hm2 as _ <-. reflexivity.
  - unfold bind, logging, ret.
    split; [|split; [intros s' l' [= <- <-]; auto|eauto]].
    intros n a d s' l'. split; [discriminate|].
    intros (_ & _ & _ & _ & way & tail & -> & Hn & Hw).
    rewrite (muck_match_found _ _ _ Hn Hw) in Hm. discriminate.
Qed.

End CollectFacts.

(** ** Player actions *)

Section ActionFacts.
Context `{V : Vocabulary}.

Lemma startswith_colon_blank (a : ascii) (s : string) :
  Str.startswith ": " (String a s)
  = Ascii.eqb ":" a && Str.startswith " " s.
Proof.
  unfold Str.startswith. simpl. destruct (Ascii.eqb ":" a); reflexivity.
Qed.

Lemma partition_cons (sep : string) (c : ascii) (s : string) :
  Str.partition sep (String c s)
  = match Str.drop_prefix sep (String c s) with
    | Some rest => (EmptyString, sep, rest)
    | None =>
        match Str.partition sep s with
        | (a, EmptyString, _) => (String c s, EmptyString, EmptyString)
        | (a, sp, b) => (String c a, sp, b)
        end
    end.
Proof. reflexivity. Qed.

Lemma not_startswith (p s : string) :
  Str.startswith p s = false -> Str.drop_prefix p s = None.
Proof.
  unfold Str.startswith. destruct (Str.drop_prefix p s); [discriminate|auto].
Qed.

(** [partition] at the first [": "]. *)
Lemma partition_colon (name rest : string) :
  Str.contains ": " name = false ->
  Str.partition ": " (name +:+ ": " +:+ rest) = (name, ": ", rest).
Proof.
  induction name as [|a name IH]; intros Hn.
  - rewrite app_empty_l. destruct rest; reflexivity.
  - rewrite contains_cons in Hn. apply orb_false_iff in Hn as [Ha Hn].
    rewrite app_cons.
    assert (Hd : Str.startswith ": " (String a (name +:+ ": " +:+ rest))
                 = false).
    { rewrite startswith_colon_blank in Ha |- *.
      destruct (Ascii.eqb ":" a); [|reflexivity]. simpl in Ha |- *.
      destruct name as [|b name].
      - rewrite app_empty_l. reflexivity.
      - rewrite app_cons. rewrite startswith_char in Ha |- *. exact Ha. }
    rewrite partition_cons, (not_startswith _ _ Hd), (IH Hn). reflexivity.
Qed.

Lemma partition_without_colon (line : string) :
  Str.contains ": " line = false ->
  Str.partition ": " line = (line, EmptyString, EmptyString).
Proof.
  induction line as [|a line IH]; intros Hn; [reflexivity|].
  rewrite contains_cons in Hn. apply orb_false_iff in Hn as [Ha Hn].
  rewrite partition_cons, (not_startswith _ _ Ha), (IH Hn). reflexivity.
Qed.

Lemma contains_colon_split (line : string) :
  Str.contains ": " line = true ->
  exists name rest,
    line = name +:+ ": " +:+ rest /\ Str.contains ": " name = false.
Proof.
  induction line as [|a line IH]; [discriminate|].
  rewrite contains_cons.
  destruct (Str.startswith ": " (String a line)) eqn:Ha.
  - intros _. exists EmptyString. unfold Str.startswith in Ha.
    destruct (Str.drop_prefix ": " (String a line)) as [rest|] eqn:Hd;
      [|discriminate].
    apply drop_prefix_Some in Hd. exists rest. split; [exact Hd|reflexivity].
  - simpl. intros (name & rest & -> & Hn)%IH.
    exists (String a name), rest. split; [reflexivity|].
    rewrite contains_cons, Hn, orb_false_r.
    rewrite startswith_colon_blank in Ha |- *.
    destruct (Ascii.eqb ":" a); [|reflexivity]. simpl in *.
    destruct name as [|b name]; [reflexivity|].
    rewrite app_cons in Ha. rewrite startswith_char in Ha |- *. exact Ha.
Qed.

(** What [partition] gives: the text before the first [": "] and the
    text after it, or the whole line and two empty texts. *)
Lemma partition_cases (line : string) :
  (exists name rest,
     line = name +:+ ": " +:+ rest /\ Str.contains ": " name = false
     /\ Str.partition ": " line = (name, ": ", rest))
  \/ (Str.contains ": " line = false
      /\ Str.partition ": " line = (line, EmptyString, EmptyString)).
Proof.
  destruct (Str.contains ": " line) eqn:E.
  - left. apply contains_colon_split in E as (name & rest & -> & Hn).
    exists name, rest. split; [reflexivity|]. split; [exact Hn|].
    apply partition_colon, Hn.
  - right. split; [reflexivity|]. apply partition_without_colon, E.
Qed.

Lemma split_ws_aux_token (t : string) :
  forall (cur : option string) (r : string),
    Str.all not_space t = true -> stops not_space r ->
    cur <> None \/ t <> EmptyString ->
    Str.split_ws_aux cur (t +:+ r)
    = (default EmptyString cur +:+ t) :: Str.split_ws_aux None r.
Proof.
  induction t as [|a t IH]; intros cur r Ht Hr Hne.
  - destruct cur as [w|]; [|destruct Hne; contradiction].
    rewrite app_empty_l. simpl default. rewrite app_empty_r.
    destruct r as [|c r]; [reflexivity|].
    simpl in Hr. unfold not_space in Hr. apply negb_false_iff in Hr.
    simpl. rewrite Hr. reflexivity.
  - simpl in Ht. apply andb_true_iff in Ht as [Ha Ht].
    unfold not_space in Ha. apply negb_true_iff in Ha.
    rewrite app_cons. simpl Str.split_ws_aux. rewrite Ha.
    rewrite IH; [|exact Ht|exact Hr|left; discriminate].
    f_equal. destruct cur as [w|]; simpl default.
    + rewrite app_assoc_s. reflexivity.
    + rewrite app_empty_l. reflexivity.
Qed.

Lemma split_ws_token (t r : string) :
  token t -> stops not_space r ->
  Str.split_ws (t +:+ r) = t :: Str.split_ws r.
Proof.
  intros [Hne Ht] Hr. unfold Str.split_ws.
  rewrite split_ws_aux_token; [|exact Ht|exact Hr|right; exact Hne].
  rewrite app_empty_l. reflexivity.
Qed.

Lemma split_ws_blank (b : string) :
  Str.all is_space b = true -> Str.split_ws b = [].
Proof.
  unfold Str.split_ws. induction b as [|c b IH]; [reflexivity|].
  simpl. intros [Hc Hb]%andb_true_iff. rewrite Hc. apply IH, Hb.
Qed.

Lemma split_ws_skip (c : ascii) (r : string) :
  is_space c = true -> Str.split_ws (String c r) = Str.split_ws r.
Proof. intros Hc. unfold Str.split_ws. simpl. rewrite Hc. reflexivity. Qed.

Lemma action_in_keywords (w : string) (a : Action) :
  Street.Action_by_name w = Some a ->
  In a keyword_actions /\ a <> ALL_IN /\ String.eqb w "ALL-IN" = false.
Proof.
  unfold Street.Action_by_name, keyword_actions.
  destruct (String.eqb_spec w "ALL-IN") as [->|_]; [discriminate|].
  repeat match goal with
         | |- context [if ?b then _ else _] => destruct b
         end;
    intros [= <-]; simpl; repeat split; auto 10; discriminate.
Qed.

Lemma player_action_outcome (line : string) (s : Street._Street) (l : Log) :
  (exists r, Street._parse_player_action line s l = Ok r s l)
  \/ (exists msg,
        Street._parse_player_action line s l
        = Ok None s (l ++ [(ERROR, msg)])).
Proof.
  unfold Street._parse_player_action, try_, bind.
  destruct (Str.partition ": " line) as [[name sep] part].
  destruct (Str.split_ws part !! 0%nat) as [first|]; simpl; [|eauto].
  destruct (String.eqb (Str.upper first) "ALL-IN"); [eauto|].
  destruct (Street.Action_by_name (Str.upper first)); simpl; eauto.
Qed.

(** X7: [_parse_player_action] never raises and never changes the
    street.  When it gives an action, nothing is logged, the name is the
    text before the first colon-and-blank of the line (so it holds none
    itself), the action is one of ALL_IN, BET, CALL, CHECK, FOLD, RAISE
    and POSTS, and an ALL_IN carries no amount; when it gives none, it
    logs exactly one error. *)
Theorem player_action_is_named_before_the_first_colon
    (line : string) (s : Street._Street) (l : Log) :
  exists r,
    match r with
    | Some (n, a, d) =>
        Street._parse_player_action line s l = Ok r s l
        /\ (exists rest, line = n +:+ ": " +:+ rest)
        /\ Str.contains ": " n = false
        /\ In a keyword_actions
        /\ (a = ALL_IN -> d = None)
    | None =>
        exists msg,
          Street._parse_player_action line s l = Ok None s (l ++ [(ERROR, msg)])
    end.
Proof.
  unfold Street._parse_player_action, try_.
  destruct (partition_cases line)
    as [(name & rest & El & Hn & ->)|[Hn ->]].
  - unfold bind.
    destruct (Str.split_ws rest !! 0%nat) as [first|]; simpl.
    2: { exists None. eexists. reflexivity. }
    destruct (String.eqb (Str.upper first) "ALL-IN").
    + exists (Some (name, ALL_IN, None)). unfold ret.
      split; [reflexivity|]. split; [eauto|]. split; [exact Hn|].
      split; [simpl; auto|auto].
    + destruct (Street.Action_by_name (Str.upper first)) as [a|] eqn:Ea.
      * eexists (Some (name, a, _)). unfold ret.
        split; [reflexivity|]. split; [eauto|]. split; [exact Hn|].
        destruct (action_in_keywords _ _ Ea) as (Hin & Hne & _).
        split; [exact Hin|]. intros ->. contradiction.
      * exists None. eexists. reflexivity.
  - exists None. eexists. reflexivity.
Qed.

(** X8: a line without a colon followed by a blank, or with nothing but
    white space after it, gives no action: the keyword is looked up in
    an empty list of tokens, and the IndexError is caught and logged. *)
Theorem action_line_without_keyword_is_dropped
    (line : string) (s : Street._Street) (l : Log) :
  (Str.contains ": " line = false ->
   Street._parse_player_action line s l
   = Ok None s (l ++ [index_error_entry line]))
  /\ (forall name blanks,
        line = name +:+ ": " +:+ blanks ->
        Str.contains ": " name = false -> Str.all is_space blanks = true ->
        Street._parse_player_action line s l
        = Ok None s (l ++ [index_error_entry line])).
Proof.
  split.
  - intros Hn. unfold Street._parse_player_action, try_.
    rewrite (partition_without_colon _ Hn). reflexivity.
  - intros name blanks -> Hn Hb. unfold Street._parse_player_action, try_.
    rewrite (partition_colon _ _ Hn), (split_ws_blank _ Hb). reflexivity.
Qed.

Lemma player_action_with_token (name kw tok rest : string) (a : Action)
    (s : Street._Street) (l : Log) :
  Str.contains ": " name = false -> token kw ->
  Street.Action_by_name (Str.upper kw) = Some a ->
  token tok -> stops not_space rest ->
  Street._parse_player_action
    (name +:+ ": " +:+ kw +:+ " " +:+ tok +:+ rest) s l
  = Ok (Some (name, a, token_amount tok)) s l.
Proof.
  intros Hn Hkw Ha Htok Hrest.
  unfold Street._parse_player_action, try_.
  rewrite (partition_colon _ _ Hn).
  rewrite (split_ws_token kw) by (try exact Hkw; reflexivity).
  rewrite app_cons, app_empty_l, split_ws_skip by reflexivity.
  rewrite (split_ws_token tok) by assumption.
  destruct (action_in_keywords _ _ Ha) as (_ & _ & Hall).
  unfold bind. simpl. rewrite Hall, Ha. reflexivity.
Qed.

(** X9: on a line [name: keyword token ...] with one of the six plain
    keywords, the action is the keyword's and the amount is read from
    the one token after the keyword, with [$] and [,] taken out; it is
    absent when that token is no number, and whatever follows the token
    is ignored.  With the keyword alone the amount is absent, and an
    all-in never carries an amount. *)
Theorem amount_is_read_from_the_token_after_the_keyword
    (name kw : string) (s : Street._Street) (l : Log) :
  Str.contains ": " name = false -> token kw ->
  (forall a tok rest,
     Street.Action_by_name (Str.upper kw) = Some a ->
     token tok -> stops not_space rest ->
     Street._parse_player_action
       (name +:+ ": " +:+ kw +:+ " " +:+ tok +:+ rest) s l
     = Ok (Some (name, a, token_amount tok)) s l)
  /\ (forall a blanks,
        Street.Action_by_name (Str.upper kw) = Some a ->
        Str.all is_space blanks = true ->
        Street._parse_player_action (name +:+ ": " +:+ kw +:+ blanks) s l
        = Ok (Some (name, a, None)) s l)
  /\ (forall rest,
        Str.upper kw = "ALL-IN" -> stops not_space rest ->
        Street._parse_player_action (name +:+ ": " +:+ kw +:+ rest) s l
        = Ok (Some (name, ALL_IN, None)) s l).
Proof.
  intros Hn Hkw. split; [|split].
  - intros a tok rest Ha Htok Hrest.
    apply player_action_with_token; assumption.
  - intros a blanks Ha Hb.
    unfold Street._parse_player_action, try_.
    rewrite (partition_colon _ _ Hn).
    rewrite (split_ws_token kw);
      [|exact Hkw
       |destruct blanks as [|c b]; [exact I|];
        simpl in Hb |- *; apply andb_true_iff in Hb as [Hc _];
        unfold not_space; rewrite Hc; reflexivity].
    rewrite (split_ws_blank _ Hb).
    destruct (action_in_keywords _ _ Ha) as (_ & _ & Hall).
    unfold bind. simpl. rewrite Hall, Ha. reflexivity.
  - intros rest Hall Hrest.
    unfold Street._parse_player_action, try_.
    rewrite (partition_colon _ _ Hn).
    rewrite (split_ws_token kw) by assumption.
    unfold bind. simpl. rewrite Hall. reflexivity.
Qed.

Lemma remove_char_app (c : ascii) (u v : string) :
  Str.remove_char c (u +:+ v) = Str.remove_char c u +:+ Str.remove_char c v.
Proof.
  induction u as [|a u IH]; [rewrite !app_empty_l; reflexivity|].
  rewrite app_cons. simpl. destruct (Ascii.eqb a c); rewrite IH;
    reflexivity.
Qed.

Lemma groupchar_not_dollar c : is_groupchar c = true -> Ascii.eqb c "$" = false.
Proof. intros H. by_ascii_cases c H. Qed.

Lemma groupchar_not_space c : is_groupchar c = true -> not_space c = true.
Proof. intros H. by_ascii_cases c H. Qed.

Lemma numchar_not_comma c : is_numchar c = true -> Ascii.eqb c "," = false.
Proof. intros H. by_ascii_cases c H. Qed.

Lemma numchar_is_not_space c : is_numchar c = true -> not_space c = true.
Proof. intros H. by_ascii_cases c H. Qed.

Lemma frac_numeric (fp : option string) :
  (forall f, fp = Some f -> digit_run f) ->
  Str.all is_numchar (frac_text fp) = true.
Proof.
  intros Hfp. destruct fp as [f|]; [|reflexivity]. simpl.
  destruct (Hfp f eq_refl) as [_ Hf]. apply (all_impl _ _ _ digit_numchar Hf).
Qed.

Lemma remove_id (c : ascii) (p : ascii -> bool) (s : string) :
  (forall a, p a = true -> Ascii.eqb a c = false) ->
  Str.all p s = true -> Str.remove_char c s = s.
Proof.
  intros Hp Hs. apply remove_char_id. revert Hs. apply all_impl.
  intros a Ha. rewrite (Hp a Ha). reflexivity.
Qed.

(** X10: an amount written with a dollar sign and with commas between
    its digits is read as the number without them.  On a line [name:
    keyword amount ...] the amount of the action is the decimal of the
    digits, the commas dropped wherever they stand, with the fraction as
    written. *)
Theorem grouped_amount_is_read_without_its_commas
    (name kw : string) (a : Action) (dollar : bool) (g : string)
    (fp : option string) (rest : string) (s : Street._Street) (l : Log) :
  Str.contains ": " name = false -> token kw ->
  Street.Action_by_name (Str.upper kw) = Some a ->
  Str.all is_groupchar g = true -> digit_run (Str.remove_char "," g) ->
  (forall f, fp = Some f -> digit_run f) -> stops not_space rest ->
  Street._parse_player_action
    (name +:+ ": " +:+ kw +:+ " "
     +:+ ((if dollar then "$" else EmptyString) +:+ g +:+ frac_text fp)
     +:+ rest) s l
  = Ok (Some (name, a, Some (amount_value (Str.remove_char "," g) fp))) s l.
Proof.
  intros Hn Hkw Ha Hg Hdig Hfp Hrest.
  pose proof (frac_numeric fp Hfp) as HF.
  assert (Htok : token ((if dollar then "$" else EmptyString)
                        +:+ g +:+ frac_text fp)).
  { split.
    - destruct Hdig as [Hne _]. intros E. apply Hne.
      destruct dollar; [rewrite app_cons in E; discriminate|].
      rewrite app_empty_l in E. destruct g; [reflexivity|].
      rewrite app_cons in E. discriminate.
    - rewrite !all_app.
      rewrite (all_impl _ _ _ groupchar_not_space Hg).
      rewrite (all_impl _ _ _ numchar_is_not_space HF).
      destruct dollar; reflexivity. }
  rewrite (player_action_with_token _ _ _ _ a s l Hn Hkw Ha Htok Hrest).
  unfold token_amount. rewrite !remove_char_app.
  rewrite (remove_id "$" _ g groupchar_not_dollar Hg).
  rewrite (remove_id "$" _ _ numchar_not_dollar HF).
  rewrite (remove_id "," _ _ numchar_not_comma HF).
  replace (Str.remove_char "," (Str.remove_char "$"
             (if dollar then "$" else EmptyString)))
    with EmptyString by (destruct dollar; reflexivity).
  rewrite app_empty_l, (of_string_amount _ _ Hdig Hfp). reflexivity.
Qed.

End ActionFacts.

(** ** Uncalled bets *)

Section ReturnFacts.
Context `{V : Vocabulary}.

Import ReLang ReShape.

(** Where the amount pattern matches: at an amount in parentheses. *)
Lemma amount_match_shape j s' c :
  rmatch Street.uncalled_amount_re j s' [] accept = Some c ->
  exists dollar ip fp post,
    s' = "(" +:+ amount_text dollar ip fp +:+ ")" +:+ post
    /\ digit_run ip /\ (forall f, fp = Some f -> digit_run f)
    /\ c = [("1", amount_text dollar ip fp)].
Proof.
  intros H. unfold Street.uncalled_amount_re, cats in H.
  rewrite rmatch_Cat in H. apply rmatch_chr in H as (s1 & -> & H).
  rewrite rmatch_Cat in H.
  apply rmatch_group in H as (v & s2 & -> & L & H); [|reflexivity].
  apply rmatch_chr in H as (s3 & -> & H).
  unfold accept in H. injection H as <-.
  destruct L as (d & amt & -> & Ld & La).
  apply lang_number_amount in La as (ip & fp & -> & Hip & Hfp).
  exists (negb (Str.is_empty d)), ip, fp, s3.
  split; [|split; [exact Hip|split; [exact Hfp|]]];
    unfold amount_text; destruct Ld as [-> | ->]; simpl negb; cbv iota;
    rewrite ?app_cons, ?app_empty_l, ?app_assoc_s; reflexivity.
Qed.

Lemma amount_match_found j dollar ip fp post :
  digit_run ip -> (forall f, fp = Some f -> digit_run f) ->
  rmatch Street.uncalled_amount_re j
    ("(" +:+ amount_text dollar ip fp +:+ ")" +:+ post) [] accept
  = Some [("1", amount_text dollar ip fp)].
Proof.
  intros Hip Hfp. unfold Street.uncalled_amount_re, cats.
  rewrite app_cons, app_empty_l.
  rewrite rmatch_Cat, rmatch_Chr. simpl Ascii.eqb. cbv iota.
  rewrite rmatch_Cat, rmatch_Grp.
  apply amount_munch; [exact Hip|exact Hfp|reflexivity|].
  rewrite app_cons, rmatch_Chr. simpl Ascii.eqb. cbv iota. unfold accept.
  match goal with
  | |- context [Str.take (?a + ?b - ?a)%nat _] =>
      replace (a + b - a)%nat with b by lia
  end.
  rewrite take_app. reflexivity.
Qed.

Lemma name_match_found j c post :
  is_word c = true ->
  rmatch Street.uncalled_name_re j ("to " +:+ String c post) [] accept
  <> None.
Proof.
  intros Hc. unfold Street.uncalled_name_re.
  rewrite rmatch_Cat, rmatch_Lit, drop_prefix_app.
  rewrite rmatch_Grp. unfold plus. rewrite rmatch_Rep.
  rewrite rep_greedy_accepting; [discriminate|discriminate|].
  simpl. rewrite Hc. destruct (Str.span is_word post). simpl. lia.
Qed.

(** X11: [_parse_uncalled] never raises, never changes the street and
    has two outcomes only.  When the line holds an amount in
    parentheses and a [to ] followed by a word character, the action is
    a return: its amount is the first amount in parentheses of the
    line, with the digits and decimals as written, and its name is the
    run of word characters after the first such [to ], up to the first
    character that is none; nothing is logged.  When the line holds no
    amount in parentheses, or no [to ] followed by a word character,
    one error is logged and there is no action.  The amount the pattern
    finds is always a number, so the handler of the exception is never
    entered. *)
Theorem parse_uncalled_has_two_outcomes
    (line : string) (s : Street._Street) (l : Log) :
  (exists pre1 dollar ip fp post1 pre2 n post2,
     line = pre1 +:+ "(" +:+ amount_text dollar ip fp +:+ ")" +:+ post1
     /\ digit_run ip /\ (forall f, fp = Some f -> digit_run f)
     /\ (forall a, paren_amount_at a line -> (Str.len pre1 <= Str.len a)%nat)
     /\ line = pre2 +:+ "to " +:+ n +:+ post2
     /\ word_run n /\ stops is_word post2
     /\ (forall a, recipient_at a line -> (Str.len pre2 <= Str.len a)%nat)
     /\ Street._parse_uncalled line s l
        = Ok (Some (n, RETURN, Some (amount_value ip fp))) s l)
  \/ (((forall a, ~ paren_amount_at a line)
       \/ (forall a, ~ recipient_at a line))
      /\ Street._parse_uncalled line s l
         = Ok None s
             (l ++ [(ERROR, "Failed to parse Uncalled bet line: " +:+ line)])).
Proof.
  unfold Street._parse_uncalled, try_.
  destruct (Re.search Street.uncalled_amount_re line) as [am|] eqn:Ea.
  2: { right. split; [|reflexivity]. left.
       intros a (dollar & ip & fp & post & Hip & Hfp & ->).
       eapply (search_from_complete _ 0 a), Ea.
       apply amount_match_found; assumption. }
  destruct (Re.search Street.uncalled_name_re line) as [nm|] eqn:En.
  2: { right. split; [|reflexivity]. right.
       intros a (c & post & Hc & ->).
       destruct (rmatch Street.uncalled_name_re (0 + Str.len a)
                   ("to " +:+ String c post) [] accept) as [x|] eqn:E;
         [|exact (name_match_found _ _ _ Hc E)].
       exact (search_from_complete _ 0 a _ _ E En). }
  left. unfold Re.search in Ea, En.
  apply search_from_first in Ea as (pre1 & s1 & E1 & Hm1 & Hfirst1).
  apply amount_match_shape in Hm1
    as (dollar & ip & fp & post1 & -> & Hip & Hfp & ->).
  apply search_from_first in En as (pre2 & s2 & E2 & Hm2 & Hfirst2).
  apply uncalled_name_shape in Hm2
    as (w & post2 & -> & Hne & Hw & Hpost & ->).
  exists pre1, dollar, ip, fp, post1, pre2, w, post2.
  split; [exact E1|]. split; [exact Hip|]. split; [exact Hfp|].
  split.
  { intros a (dollar' & ip' & fp' & post' & Hip' & Hfp' & E).
    destruct (Nat.le_gt_cases (Str.len pre1) (Str.len a)) as [|Hlt];
      [assumption|exfalso].
    rewrite E in E1.
    destruct (app_split_lt _ _ _ _ E1 Hlt) as (b & Hb & Hpre & Hrest).
    specialize (Hfirst1 a b Hpre Hb). rewrite <- Hrest in Hfirst1.
    rewrite (amount_match_found _ _ _ _ _ Hip' Hfp') in Hfirst1.
    discriminate. }
  split; [exact E2|]. split; [split; assumption|]. split; [exact Hpost|].
  split.
  { intros a (c & post' & Hc & E).
    destruct (Nat.le_gt_cases (Str.len pre2) (Str.len a)) as [|Hlt];
      [assumption|exfalso].
    rewrite E in E2.
    destruct (app_split_lt _ _ _ _ E2 Hlt) as (b & Hb & Hpre & Hrest).
    specialize (Hfirst2 a b Hpre Hb). rewrite <- Hrest in Hfirst2.
    exact (name_match_found _ _ _ Hc Hfirst2). }
  unfold bind, Decimal_.
  cbn [grp group String.eqb Ascii.eqb Bool.eqb].
  rewrite (amount_text_plain _ _ _ Hip Hfp), (of_string_amount _ _ Hip Hfp).
  reflexivity.
Qed.

End ReturnFacts.

(** ** The lines of a street *)

Section LineFacts.
Context `{V : Vocabulary}.

Lemma join_frame (line : string) (s : Street._Street) (l : Log) :
  exists s' entry,
    Street._handle_player_join line s l = Ok tt s' (l ++ [entry])
    /\ same_cards s s'.
Proof.
  unfold Street._handle_player_join, try_, bind, get, py_get, assign.
  destruct (Re.match_ Street.join_re line) as [m|]; simpl;
    [|exists s; eexists; repeat split].
  destruct (Street.players s) as [r|]; simpl;
    [|exists s; eexists; repeat split].
  destruct (py_index (length r) (Str.to_Z (grp m "seat") - 1)) as [i|];
    simpl; [|exists s; eexists; repeat split].
  destruct (r !! i) as [p|]; simpl; [|exists s; eexists; repeat split].
  destruct (negb _ && negb _); simpl; eexists; eexists; repeat split.
Qed.

(** X12: a join line is never fatal and always leaves exactly one entry
    in the log.  The cards, the actions and the pot are not touched;
    the list of players changes only together with the entry that says
    the player joined; and on a street without a list of players the
    line changes nothing and the entry is an error. *)
Theorem join_line_logs_exactly_once
    (line : string) (s : Street._Street) (l : Log) :
  exists s' entry,
    Street._handle_player_join line s l = Ok tt s' (l ++ [entry])
    /\ same_cards s s'
    /\ Street.actions s' = Street.actions s
    /\ Street.pot s' = Street.pot s
    /\ (Street.players s' <> Street.players s -> fst entry = INFO)
    /\ (Street.players s = None -> s' = s /\ fst entry = ERROR).
Proof.
  unfold Street._handle_player_join, try_.
  destruct (Re.match_ Street.join_re line) as [m|].
  2: { exists s. eexists. split; [reflexivity|].
       repeat split; auto; contradiction. }
  unfold bind, get. simpl.
  destruct (Street.players s) as [r|] eqn:Er; simpl.
  2: { exists s. eexists. split; [reflexivity|].
       repeat split; auto; contradiction. }
  unfold py_get, assign.
  destruct (py_index (length r) (Str.to_Z (grp m "seat") - 1)) as [i|];
    simpl.
  2: { exists s. eexists. split; [reflexivity|].
       repeat split; auto; try contradiction; discriminate. }
  destruct (r !! i) as [p|]; simpl.
  2: { exists s. eexists. split; [reflexivity|].
       repeat split; auto; try contradiction; discriminate. }
  destruct (negb _ && negb _); simpl.
  - exists s. eexists. split; [reflexivity|].
    repeat split; auto; try contradiction; discriminate.
  - eexists. eexists. split; [reflexivity|].
    repeat split; auto; discriminate.
Qed.

Lemma parse_action_line_frame (line : string) (s : Street._Street) (l : Log) :
  exists r s' l'',
    Street.parse_action_line line s l = Ok r s' (l ++ l'')
    /\ (length l'' <= 1)%nat /\ same_cards s s'.
Proof.
  assert (Hsame : same_cards s s) by (repeat split).
  assert (Hnil : forall (r : option Street.action_tuple) s', same_cards s s' ->
            exists r0 s0 l'', Ok (S := Street._Street) r s' l
                              = Ok r0 s0 (l ++ l'')
                              /\ (length l'' <= 1)%nat /\ same_cards s s0).
  { intros r s' H. exists r, s', []. rewrite app_nil_r. simpl. auto. }
  assert (Hone : forall (r : option Street.action_tuple) s' e, same_cards s s' ->
            exists r0 s0 l'', Ok (S := Street._Street) r s' (l ++ [e])
                              = Ok r0 s0 (l ++ l'')
                              /\ (length l'' <= 1)%nat /\ same_cards s s0).
  { intros r s' e H. exists r, s', [e]. simpl. auto. }
  unfold Street.parse_action_line.
  destruct (Str.startswith "Uncalled bet" line).
  { unfold Street._parse_uncalled, try_, bind, Decimal_.
    destruct (Re.search Street.uncalled_amount_re line) as [am|];
      [|apply Hone, Hsame].
    destruct (Re.search Street.uncalled_name_re line) as [nm|];
      [|apply Hone, Hsame].
    destruct (Dec.of_string _); simpl; [apply Hnil|apply Hone]; exact Hsame. }
  destruct (Str.contains "collected" line).
  { unfold Street._parse_collected, try_, bind, Decimal_.
    destruct (Re.match_ Street.collected_re line) as [m|];
      [|apply Hone, Hsame].
    destruct (Dec.of_string _); simpl; [apply Hnil|apply Hone];
      repeat split. }
  destruct (Str.contains "doesn't show hand" line || Str.contains "mucks" line).
  { unfold Street._parse_muck, try_, bind.
    destruct (Re.match_ Street.muck_re line) as [m|];
      [apply Hnil|apply Hone]; exact Hsame. }
  destruct (Str.contains "joins the table" line).
  { destruct (join_frame line s l)
      as (s' & e & E & Hc).
    unfold bind. rewrite E. apply Hone, Hc. }
  destruct (Str.contains _ line); [apply Hnil, Hsame|].
  destruct (Str.contains ":" line); [|apply Hone, Hsame].
  destruct (player_action_outcome line s l) as [(r & ->)|(msg & ->)];
    [apply Hnil|apply Hone]; exact Hsame.
Qed.

Lemma actions_loop_frame (lines : list string) :
  forall acc s l,
    exists A s' l'',
      Street.actions_loop lines acc s l = Ok (acc ++ A) s' (l ++ l'')
      /\ (length A <= length lines)%nat
      /\ (length l'' <= length lines)%nat
      /\ same_cards s s'.
Proof.
  induction lines as [|line rest IH]; intros acc s l.
  - exists [], s, []. rewrite !app_nil_r. repeat split; simpl; lia.
  - destruct (parse_action_line_frame line s l)
      as (r & s1 & l1 & E1 & Hl1 & (Hc1 & Ht1 & Hr1)).
    simpl. unfold bind. rewrite E1.
    destruct r as [a|].
    + destruct (IH (acc ++ [Street.to_action a]) s1 (l ++ l1))
        as (A & s' & l2 & E2 & HA & Hl2 & (Hc2 & Ht2 & Hr2)).
      exists (Street.to_action a :: A), s', (l1 ++ l2).
      rewrite E2, <- !app_assoc. simpl. rewrite length_app.
      repeat split; try lia; congruence.
    + destruct (IH acc s1 (l ++ l1))
        as (A & s' & l2 & E2 & HA & Hl2 & (Hc2 & Ht2 & Hr2)).
      exists A, s', (l1 ++ l2).
      rewrite E2, <- !app_assoc. rewrite length_app. simpl.
      repeat split; try lia; congruence.
Qed.

(** X13: [_parse_actions] never raises, whatever the lines are.  It
    leaves the cards of the street as they were, logs at most one entry
    per line, and the actions it stores are either absent or a
    non-empty sequence with at most one action per line, never an empty
    one; with no lines at all the actions are absent and the log is
    unchanged. *)
Theorem parse_actions_returns_at_most_one_action_per_line
    (lines : list string) (s : Street._Street) (l : Log) :
  exists s' l'',
    Street._parse_actions lines s l = Ok tt s' (l ++ l'')
    /\ (length l'' <= length lines)%nat
    /\ same_cards s s'
    /\ match Street.actions s' with
       | None => True
       | Some acts => acts <> [] /\ (length acts <= length lines)%nat
       end
    /\ (lines = [] -> Street.actions s' = None /\ l'' = []).
Proof.
  destruct (actions_loop_frame lines [] s l)
    as (A & s' & l'' & E & HA & Hl & Hc).
  unfold Street._parse_actions, bind. rewrite E. simpl.
  eexists. exists l''. split; [reflexivity|]. split; [exact Hl|].
  split; [exact Hc|]. split.
  - destruct A; simpl; [exact I|]. split; [discriminate|exact HA].
  - intros ->. simpl in HA, Hl.
    destruct A; [|simpl in HA; lia]. destruct l''; [|simpl in Hl; lia].
    auto.
Qed.

End LineFacts.

(** ** The header *)

Section HeaderFacts.
Context `{V : Vocabulary}.

Import Hand ReLang.

Lemma lang_times (n : nat) (p : ascii -> bool) (v : string) :
  lang (times n p) v -> Str.len v = n /\ Str.all p v = true.
Proof.
  revert v. induction n as [|n IH]; intros v; simpl.
  - intros ->. auto.
  - intros (v1 & v2 & -> & (a & -> & Ha) & L2).
    destruct (IH _ L2) as [Hl Hp].
    rewrite app_cons, app_empty_l. unfold Str.len in *. simpl.
    rewrite Ha, Hp, Hl. auto.
Qed.

Lemma lang_Cat (r1 r2 : regex) (v : string) :
  lang (Cat r1 r2) v ->
  exists v1 v2, v = v1 +:+ v2 /\ lang r1 v1 /\ lang r2 v2.
Proof. intros H. exact H. Qed.

Lemma digit_not_space c : is_digit c = true -> not_space c = true.
Proof. intros H. by_ascii_cases c H. Qed.

Lemma word_not_space c : is_word c = true -> not_space c = true.
Proof. intros H. by_ascii_cases c H. Qed.

(** X14: every header line the pattern accepts carries its date as
    twenty characters without any white space in them, year to time
    zone: the blanks the pattern shows between the day, the time and
    the zone are not part of it. *)
Theorem accepted_header_has_a_date_without_blanks
    (line : string) (m : caps) :
  Re.match_ _header_re line = Some m ->
  exists d, group m "date" = Some d
            /\ Str.len d = 20%nat /\ Str.all not_space d = true.
Proof.
  intros Hm. apply ReFacts.match_sound in Hm as (_ & Hb & Hmust).
  destruct (Hmust "date") as [d Hd]; [simpl; auto 10|].
  exists d. split; [exact Hd|].
  destruct (Hb _ _ Hd) as (g & Hin & L).
  simpl in Hin. destruct Hin as [<-|[]].
  apply lang_Cat in L as (y & u0 & -> & Ly & L).
  apply lang_Cat in L as (c1 & u1 & -> & Lc1 & L).
  apply lang_Cat in L as (mo & u2 & -> & Lmo & L).
  apply lang_Cat in L as (c2 & u3 & -> & Lc2 & L).
  apply lang_Cat in L as (dd & u4 & -> & Ldd & L).
  apply lang_Cat in L as (hh & u5 & -> & Lhh & L).
  apply lang_Cat in L as (c3 & u6 & -> & Lc3 & L).
  apply lang_Cat in L as (mi & u7 & -> & Lmi & L).
  apply lang_Cat in L as (c4 & u8 & -> & Lc4 & L).
  apply lang_Cat in L as (ss & tz & -> & Lss & Ltz).
  simpl in Lc1, Lc2, Lc3, Lc4. subst c1 c2 c3 c4.
  apply (lang_times 4 is_digit) in Ly as [Ly1 Ly2].
  apply (lang_times 2 is_digit) in Lmo as [Lmo1 Lmo2].
  apply (lang_times 2 is_digit) in Ldd as [Ldd1 Ldd2].
  apply (lang_times 2 is_digit) in Lhh as [Lhh1 Lhh2].
  apply (lang_times 2 is_digit) in Lmi as [Lmi1 Lmi2].
  apply (lang_times 2 is_digit) in Lss as [Lss1 Lss2].
  apply (lang_times 2 is_word) in Ltz as [Ltz1 Ltz2].
  pose proof (all_impl _ _ _ digit_not_space Ly2).
  pose proof (all_impl _ _ _ digit_not_space Lmo2).
  pose proof (all_impl _ _ _ digit_not_space Ldd2).
  pose proof (all_impl _ _ _ digit_not_space Lhh2).
  pose proof (all_impl _ _ _ digit_not_space Lmi2).
  pose proof (all_impl _ _ _ digit_not_space Lss2).
  pose proof (all_impl _ _ _ word_not_space Ltz2).
  split.
  - rewrite !len_app. unfold Str.len in *. simpl. lia.
  - rewrite !all_app. simpl.
    repeat match goal with H : Str.all not_space _ = true |- _ =>
             rewrite H; clear H end.
    reflexivity.
Qed.

Lemma header_group_digits (m : caps) (line n : string) :
  Re.match_ _header_re line = Some m ->
  groups_named n _header_re = [plus is_digit] ->
  forall w, group m n = Some w -> digit_run w.
Proof.
  intros Hm Hg w Hw. apply ReFacts.match_sound in Hm as (_ & Hb & _).
  destruct (Hb _ _ Hw) as (g & Hin & L).
  rewrite Hg in Hin. destruct Hin as [<-|[]].
  destruct L as [Hall Hlen]. split; [|exact Hall].
  intros ->. simpl in Hlen. lia.
Qed.

Lemma header_stage_mismatch (h : PokerStarsHandHistory) (l : Log) :
  Re.match_ _header_re (header_line (raw h)) = None ->
  parse_header h l
  = Raise (RuntimeError header_error)
      (set__splitted (Some (Str.split_str "***" 0 (raw h))) h)
      (l ++ [(ERROR, header_error)]).
Proof.
  intros H. unfold parse_header, _split_raw, bind, modify, get. simpl.
  rewrite split_str_lookup_0. simpl.
  rewrite lines_lookup_0. simpl. fold (header_line (raw h)). rewrite H.
  reflexivity.
Qed.

Lemma header_stage_match (h : PokerStarsHandHistory) (l : Log) (m : caps) :
  Re.match_ _header_re (header_line (raw h)) = Some m ->
  exists h' l',
    parse_header h l = Ok tt h' l'
    /\ header_consistent h' /\ sections h' = sections h /\ raw h' = raw h
    /\ _table_match h' = _table_match h.
Proof.
  intros Hm.
  destruct (amount_or_default (group m "sb") (group m "cash_sb"))
    as [sb_ Hsb];
    [apply (header_group_amount _ _ _ Hm); right; reflexivity
    |apply (header_group_amount _ _ _ Hm); left; reflexivity|].
  destruct (amount_or_default (group m "bb") (group m "cash_bb"))
    as [bb_ Hbb];
    [apply (header_group_amount _ _ _ Hm); right; reflexivity
    |apply (header_group_amount _ _ _ Hm); left; reflexivity|].
  destruct (amount_or_default (group m "buyin") None) as [buyin_ Hbuyin];
    [apply (header_group_amount _ _ _ Hm); left; reflexivity|discriminate|].
  destruct (amount_or_default (group m "rake") None) as [rake_ Hrake];
    [apply (header_group_amount _ _ _ Hm); left; reflexivity|discriminate|].
  assert (Hid : exists ds, group m "ident" = Some ds /\ digit_run ds).
  { pose proof Hm as Hm'.
    apply ReFacts.match_sound in Hm' as (_ & _ & Hmust).
    destruct (Hmust "ident") as [ds Hds]; [simpl; auto|].
    exists ds. split; [exact Hds|].
    apply (header_group_digits m _ "ident" Hm eq_refl _ Hds). }
  assert (Htid : Str.truthy (group m "tournament_ident") = true ->
            exists ds, group m "tournament_ident" = Some ds /\ digit_run ds).
  { destruct (group m "tournament_ident") as [ds|] eqn:E; [|discriminate].
    intros _. exists ds. split; [reflexivity|].
    apply (header_group_digits m _ "tournament_ident" Hm eq_refl _ E). }
  unfold parse_header, _split_raw, bind, modify, get. simpl.
  rewrite split_str_lookup_0. simpl.
  rewrite lines_lookup_0. simpl. fold (header_line (raw h)). rewrite Hm.
  unfold Decimal_. rewrite Hsb, Hbb. simpl.
  destruct (Str.truthy (group m "tournament_ident")) eqn:Et; simpl;
    rewrite ?Hbuyin, ?Hrake; simpl;
    match goal with
    | |- context [if ?b then _ else _] => destruct b
    end; simpl;
    repeat match goal with
           | |- context [match ?x with _ => _ end] =>
               match x with
               | Currency _ => destruct x
               | Game _ => destruct x
               | Limit _ => destruct x
               | parse_date _ => destruct x
               end; simpl
           end;
    (eexists; eexists; split; [reflexivity|]);
    unfold header_consistent; simpl;
    repeat split; eauto.
Qed.

(** X15: the header stage has one way to fail: on a header line the
    pattern does not accept it logs and raises the RuntimeError.  On
    every line the pattern accepts it returns, no amount of the line is
    ever rejected as a number, and it leaves a consistent header: the
    hand identity is a run of digits, both blinds, game and limit are
    set, a tournament has its number, buy-in and rake while a cash game
    has none of the three, and a hand marked as play money has no
    currency. *)
Theorem header_stage_raises_only_on_mismatch
    (h : PokerStarsHandHistory) (l : Log) :
  match parse_header h l with
  | Ok _ h' l' =>
      is_Some (Re.match_ _header_re (header_line (raw h)))
      /\ header_consistent h' /\ sections h' = sections h
  | Raise e h' l' =>
      Re.match_ _header_re (header_line (raw h)) = None
      /\ e = RuntimeError header_error
      /\ l' = l ++ [(ERROR, header_error)]
      /\ header_parsed h' = header_parsed h
  end.
Proof.
  destruct (Re.match_ _header_re (header_line (raw h))) as [m|] eqn:Hm.
  - destruct (header_stage_match h l m Hm) as (h' & l' & -> & Hc & Hs & _).
    split; [eauto|]. split; [exact Hc|exact Hs].
  - rewrite (header_stage_mismatch h l Hm). repeat split.
Qed.

Lemma parse_unfold (h : PokerStarsHandHistory) (l : Log) :
  parse h l
  = ((if header_parsed h then ret tt else parse_header) ;; after_header) h l.
Proof.
  unfold parse, after_header, bind, get. simpl.
  repeat match goal with
         | |- context [match ?x with Ok _ _ _ => _ | Raise _ _ _ => _ end] =>
             destruct x; try reflexivity
         end.
Qed.

(** X16: parsing the header first and the hand afterwards gives what
    parsing the hand at once gives, the same object, log and outcome:
    [parse] runs the header stage itself when it has not run, and skips
    it when it has. *)
Theorem header_first_then_parse_is_parse
    (h : PokerStarsHandHistory) (l : Log) :
  header_parsed h = false ->
  (parse_header ;; parse) h l = parse h l.
Proof.
  intros Hh. rewrite (parse_unfold h l), Hh. unfold bind at 1 2.
  destruct (Re.match_ _header_re (header_line (raw h))) as [m|] eqn:Hm.
  - destruct (header_stage_match h l m Hm)
      as (h' & l' & -> & (Hp & _) & _).
    rewrite parse_unfold, Hp. reflexivity.
  - rewrite (header_stage_mismatch h l Hm). reflexivity.
Qed.

End HeaderFacts.

(** ** The roster stage *)

Section RosterFacts.
Context `{V : Vocabulary}.

Import Hand ReLang.

Lemma to_Z_nonneg (s : string) : (0 <= Str.to_Z s)%Z.
Proof. unfold Str.to_Z. lia. Qed.

Lemma py_index_seat (len : nat) (k : Z) :
  (0 <= k)%Z ->
  match py_index len (k - 1) with
  | Some i =>
      seat_in_range len k /\ (i < len)%nat
      /\ (k = (Z.of_nat i + 1)%Z \/ (k = 0%Z /\ S i = len))
  | None => ~ seat_in_range len k /\ assign_error (k - 1) = seat_error k
  end.
Proof.
  intros Hk.
  assert (F : fits_index (k - 1) = (k <=? 2 ^ 63)%Z).
  { unfold fits_index. apply Bool.eq_iff_eq_true.
    rewrite andb_true_iff, !Z.leb_le, Z.ltb_lt. lia. }
  unfold py_index, assign_error, seat_error, seat_in_range. rewrite F.
  destruct (k <=? 2 ^ 63)%Z eqn:E0; cbv [negb].
  - apply Z.leb_le in E0.
    destruct ((0 <=? k - 1)%Z && (k - 1 <? Z.of_nat len)%Z) eqn:E1.
    + apply andb_true_iff in E1 as [?%Z.leb_le ?%Z.ltb_lt]. lia.
    + destruct ((- Z.of_nat len <=? k - 1)%Z && (k - 1 <? 0)%Z) eqn:E2.
      * apply andb_true_iff in E2 as [?%Z.leb_le ?%Z.ltb_lt]. lia.
      * apply andb_false_iff in E1, E2.
        rewrite Z.leb_gt, Z.ltb_ge in E1, E2. split; [lia|reflexivity].
  - apply Z.leb_gt in E0. split; [lia|reflexivity].
Qed.

Lemma seat_stack_is_decimal (line : string) (m : caps) :
  Re.match_ _seat_re line = Some m ->
  exists d, Dec.of_string (grp m "stack") = Some d.
Proof.
  intros Hm. apply ReFacts.match_sound in Hm as (_ & Hb & Hmust).
  destruct (Hmust "stack") as [w Hw]; [simpl; auto 10|].
  unfold grp. rewrite Hw.
  destruct (Hb _ _ Hw) as (g & Hin & L).
  simpl in Hin. destruct Hin as [<-|[]].
  apply of_string_number, L.
Qed.

Lemma aligned_insert (r : list Player) (i : nat) (p : Player) :
  seats_aligned r -> (i < length r)%nat ->
  seat p = (Z.of_nat i + 1)%Z \/ (seat p = 0%Z /\ S i = length r) ->
  seats_aligned (<[i := p]> r).
Proof.
  intros Hr Hi Hp j q Hq. rewrite length_insert.
  destruct (decide (i = j)) as [<-|Hij].
  - rewrite list_lookup_insert_eq in Hq by exact Hi.
    injection Hq as <-. exact Hp.
  - rewrite list_lookup_insert_ne in Hq by exact Hij. apply Hr, Hq.
Qed.

(** One turn of the seat loop on a line that is a seat line. *)
Lemma seat_loop_step (line : string) (rest : list string) (m : caps)
    (h : PokerStarsHandHistory) (l : Log) (r : list Player) :
  Re.match_ _seat_re (Str.strip line) = Some m ->
  players h = Some r ->
  exists d,
    Dec.of_string (grp m "stack") = Some d
    /\ seat_loop (line :: rest) h l
       = match py_index (length r) (Str.to_Z (grp m "seat") - 1) with
         | Some i =>
             seat_loop rest
               (set_players
                  (Some (<[i := mkPlayer (grp m "name") d
                                  (Str.to_Z (grp m "seat")) None]> r)) h) l
         | None => Raise (assign_error (Str.to_Z (grp m "seat") - 1)) h l
         end.
Proof.
  intros Hm Hr. destruct (seat_stack_is_decimal _ _ Hm) as [d Hd].
  exists d. split; [exact Hd|]. simpl. rewrite Hm.
  unfold bind, Decimal_, get_players, bind, get, assign, modify.
  rewrite Hd. simpl. rewrite Hr. simpl.
  destruct (py_index (length r) (Str.to_Z (grp m "seat") - 1)); reflexivity.
Qed.

(** The seat loop: it returns when every seat number of the seat run has
    a place in the roster, and raises the IndexError of the assignment
    at the first that has none; it never logs. *)
Lemma seat_loop_outcome (lines : list string) :
  forall h l r,
    players h = Some r ->
    exists h' r',
      players h' = Some r' /\ length r' = length r
      /\ (seats_aligned r -> seats_aligned r')
      /\ max_players h' = max_players h /\ sections h' = sections h
      /\ ((Forall (seat_in_range (length r)) (seat_numbers lines)
           /\ seat_loop lines h l = Ok tt h' l)
          \/ (exists pre k rest,
                seat_numbers lines = pre ++ k :: rest
                /\ Forall (seat_in_range (length r)) pre
                /\ ~ seat_in_range (length r) k
                /\ seat_loop lines h l = Raise (seat_error k) h' l)).
Proof.
  induction lines as [|line rest IH]; intros h l r Hr.
  - exists h, r. do 5 (split; [auto|]).
    left. split; [constructor|reflexivity].
  - destruct (Re.match_ _seat_re (Str.strip line)) as [m|] eqn:Hm.
    2: { exists h, r. do 5 (split; [auto|]). simpl. rewrite Hm.
         left. split; [constructor|reflexivity]. }
    destruct (seat_loop_step line rest m h l r Hm Hr) as (d & Hd & ->).
    simpl seat_numbers. rewrite Hm.
    pose proof (py_index_seat (length r) (Str.to_Z (grp m "seat"))
                  (to_Z_nonneg _)) as Hi.
    destruct (py_index (length r) (Str.to_Z (grp m "seat") - 1)) as [i|].
    + destruct Hi as (Hin & Hlt & Hpos).
      set (p := mkPlayer (grp m "name") d (Str.to_Z (grp m "seat")) None).
      destruct (IH (set_players (Some (<[i := p]> r)) h) l (<[i := p]> r)
                  eq_refl)
        as (h' & r' & Hr' & Hlen & Hal & Hmax & Hsec & Hout).
      rewrite length_insert in Hlen, Hout.
      exists h', r'. split; [exact Hr'|]. split; [exact Hlen|].
      split; [intros Ha; apply Hal, aligned_insert; auto|].
      split; [exact Hmax|]. split; [exact Hsec|].
      destruct Hout as [[Hall E]|(pre & k & rest' & Hsplit & Hpre & Hk & E)].
      * left. split; [constructor; assumption|exact E].
      * right. exists (Str.to_Z (grp m "seat") :: pre), k, rest'.
        split; [rewrite Hsplit; reflexivity|].
        split; [constructor; assumption|]. split; [exact Hk|exact E].
    + destruct Hi as [Hout Herr]. exists h, r. do 5 (split; [auto|]).
      right. exists [], (Str.to_Z (grp m "seat")), (seat_numbers rest).
      split; [reflexivity|]. split; [constructor|].
      split; [exact Hout|]. rewrite Herr. reflexivity.
Qed.

(** X17: the seat lines keep every player at its seat.  On a roster in
    which each player sits at the position of its seat number, the seat
    loop, whether it returns or raises, leaves such a roster of the same
    length: the player of [Seat k] is stored at position k of the table,
    and seat number 0 counts from the end and lands on the last seat.
    The loop itself logs nothing. *)
Theorem seat_lines_keep_players_at_their_seats
    (lines : list string) (h : PokerStarsHandHistory) (l : Log)
    (r : list Player) :
  players h = Some r -> seats_aligned r ->
  exists r',
    players (state_of (seat_loop lines h l)) = Some r'
    /\ length r' = length r /\ seats_aligned r'
    /\ log_of (seat_loop lines h l) = l.
Proof.
  intros Hr Ha.
  destruct (seat_loop_outcome lines h l r Hr)
    as (h' & r' & Hr' & Hlen & Hal & _ & _
        & [[_ E]|(pre & k & rest & _ & _ & _ & E)]);
    rewrite E; exists r'; simpl; auto.
Qed.




End RosterFacts.

(** ** Button and hero *)

(** Closes the goals of stages that only assign attributes the
    predicate at hand does not look at. *)
Ltac stable_keeps :=
  repeat first
    [ apply keeps_try; [|intros]
    | apply keeps_bind; [|intros]
    | apply keeps_mapM; intros
    | solve [auto with steps]
    | apply keeps_modify; intros; solve [eauto] ].

Section HeroFacts.
Context `{V : Vocabulary}.

Import Hand.

Lemma run_stages_cons {S} (m : M S unit) (ms : list (M S unit))
    (s : S) (l : Log) :
  run_stages (m :: ms) s l
  = match m s l with
    | Ok _ s' l' => run_stages ms s' l'
    | Raise e s' l' => Raise e s' l'
    end.
Proof. reflexivity. Qed.

Section Frames.
Variable P : PokerStarsHandHistory -> Prop.

Lemma keeps_preflop :
  (forall v h, P h -> P (set_preflop_actions v h)) -> keeps P _parse_preflop.
Proof. intros HS. unfold _parse_preflop. stable_keeps. Qed.

Lemma keeps_flop :
  (forall v h, P h -> P (set_flop v h)) -> keeps P _parse_flop.
Proof.
  intros HS. unfold _parse_flop. apply keeps_try; [|intros; stable_keeps].
  apply keeps_bind; [apply keeps_get|intros h].
  destruct (sections h !! "FLOP"); [|stable_keeps].
  apply keeps_bind; [apply new_street_keeps|intros]. stable_keeps.
Qed.

Lemma keeps_turn :
  (forall v h, P h -> P (set_turn_actions v h)) ->
  keeps P (_parse_street "turn").
Proof.
  intros HS. unfold _parse_street, set_street_actions. simpl.
  apply keeps_try; [|intros; stable_keeps].
  apply keeps_bind; [apply keeps_get|intros h].
  destruct (sections h !! Str.upper "turn"); [|stable_keeps].
  apply keeps_bind; [apply new_street_keeps|intros]. stable_keeps.
Qed.

Lemma keeps_river :
  (forall v h, P h -> P (set_river_actions v h)) ->
  keeps P (_parse_street "river").
Proof.
  intros HS. unfold _parse_street, set_street_actions. simpl.
  apply keeps_try; [|intros; stable_keeps].
  apply keeps_bind; [apply keeps_get|intros h].
  destruct (sections h !! Str.upper "river"); [|stable_keeps].
  apply keeps_bind; [apply new_street_keeps|intros]. stable_keeps.
Qed.

Lemma keeps_showdown :
  (forall v h, P h -> P (set_show_down v h)) -> keeps P _parse_showdown.
Proof. intros HS. unfold _parse_showdown. stable_keeps. Qed.

Lemma keeps_pot :
  (forall v h, P h -> P (set_total_pot v h)) ->
  (forall v h, P h -> P (set_rake v h)) -> keeps P _parse_pot.
Proof.
  intros HS1 HS2. unfold _parse_pot, set_pot_and_rake.
  apply keeps_try; [|intros; stable_keeps].
  apply keeps_bind; [apply keeps_get|intros h].
  destruct (sections h !! "SUMMARY") as [sec|]; [|stable_keeps].
  induction (Str.lines (Str.strip sec)) as [|line rest IH]; simpl.
  - unfold set_pot_and_rake. stable_keeps.
  - destruct (Re.match_ _pot_re (Str.strip line)); [stable_keeps|exact IH].
Qed.

Lemma keeps_board :
  (forall v h, P h -> P (set_board v h)) -> keeps P _parse_board.
Proof.
  intros HS. unfold _parse_board.
  apply keeps_try; [|intros; stable_keeps].
  apply keeps_bind; [apply keeps_get|intros h].
  destruct (sections h !! "SUMMARY") as [sec|]; [|stable_keeps].
  induction (Str.lines (Str.strip sec)) as [|line rest IH]; simpl;
    [stable_keeps|].
  destruct (Re.search _board_re line); [stable_keeps|exact IH].
Qed.

Lemma keeps_winners :
  (forall v h, P h -> P (set_winners v h)) -> keeps P _parse_winners.
Proof.
  intros HS. unfold _parse_winners.
  apply keeps_try; [|intros; stable_keeps].
  apply keeps_bind; [apply keeps_get|intros h].
  destruct (sections h !! "SUMMARY"); stable_keeps.
Qed.

Lemma keeps_final (m : M PokerStarsHandHistory unit) :
  (forall v h, P h -> P (set__splitted v h)) ->
  (forall v h, P h -> P (set_parsed v h)) ->
  In m final_stages -> keeps P m.
Proof.
  intros HS1 HS2 [<-|[<-|[]]]; [unfold _del_split_vars|]; stable_keeps.
Qed.

Lemma keeps_hero :
  (forall v h, P h -> P (set_players v h)) ->
  (forall v h, P h -> P (set_hero v h)) ->
  (forall v h, P h -> P (set_button v h)) -> keeps P _parse_hero.
Proof.
  intros HS1 HS2 HS3. unfold _parse_hero.
  apply keeps_try; [|intros; stable_keeps].
  apply keeps_bind; [apply keeps_get|intros h].
  induction (section_lines h "HEADER") as [|line rest IH]; simpl;
    [stable_keeps|].
  destruct (Re.match_ _hero_re (Str.strip line)); [|exact IH].
  unfold _get_hero_from_players, get_players.
  apply keeps_bind; [stable_keeps|intros [hero_ hero_index]].
  stable_keeps. destruct (String.eqb _ _); stable_keeps.
Qed.

Lemma keeps_table :
  (forall v h, P h -> P (set_table_name v h)) ->
  (forall v h, P h -> P (set_max_players v h)) -> keeps P _parse_table.
Proof.
  intros HS1 HS2. unfold _parse_table.
  apply keeps_try; [|intros; stable_keeps].
  apply keeps_bind; [apply keeps_get|intros h].
  apply keeps_bind; [stable_keeps|intros line].
  destruct (Re.match_ _table_re line); stable_keeps.
Qed.

Lemma keeps_players :
  (forall v h, P h -> P (set_players v h)) -> keeps P _parse_players.
Proof.
  intros HS. unfold _parse_players.
  apply keeps_try; [|intros; stable_keeps].
  apply keeps_bind; [apply keeps_get|intros h].
  apply keeps_bind; [stable_keeps|intros n].
  apply keeps_bind; [stable_keeps|intros _].
  induction (drop 1 (section_lines h "HEADER")) as [|line rest IH]; simpl;
    [stable_keeps|].
  destruct (Re.match_ _seat_re (Str.strip line)); [|stable_keeps].
  unfold get_players, assign.
  apply keeps_bind; [stable_keeps|intros d].
  apply keeps_bind; [stable_keeps|intros r].
  apply keeps_bind; [destruct (py_index _ _); stable_keeps|intros r'].
  apply keeps_bind; [stable_keeps|intros _]. exact IH.
Qed.

Lemma keeps_button :
  (forall v h, P h -> P (set_button v h)) -> keeps P _parse_button.
Proof.
  intros HS. unfold _parse_button, get_players. stable_keeps.
Qed.

Lemma keeps_after_hero (m : M PokerStarsHandHistory unit) :
  stable_after_hero P -> In m (drop 1 late_stages) -> keeps P m.
Proof.
  intros HS. unfold late_stages. simpl.
  intros [<-|[<-|[<-|[<-|[<-|[<-|[<-|[<-|Hm]]]]]]]].
  - apply keeps_preflop. intros v h Hh. apply (HS h Hh).
  - apply keeps_flop. intros v h Hh. apply (HS h Hh).
  - apply keeps_turn. intros v h Hh. apply (HS h Hh).
  - apply keeps_river. intros v h Hh. apply (HS h Hh).
  - apply keeps_showdown. intros v h Hh. apply (HS h Hh).
  - apply keeps_pot; intros v h Hh; apply (HS h Hh).
  - apply keeps_board. intros v h Hh. apply (HS h Hh).
  - apply keeps_winners. intros v h Hh. apply (HS h Hh).
  - apply keeps_final; [| |exact Hm]; intros v h Hh; apply (HS h Hh).
Qed.

End Frames.

Lemma hero_loop_unresolved (lines : list string) :
  triple (fun h => button h = None) (hero_loop lines)
    (fun _ h => hero h = None /\ button h = None)
    (fun h => button h = None).
Proof.
  induction lines as [|line rest IH]; simpl.
  - apply triple_modify. auto.
  - destruct (Re.match_ _hero_re (Str.strip line)) as [m|]; [|exact IH].
    eapply triple_bind; [apply get_hero_linked|intros [hero_ hero_index]].
    eapply triple_bind.
    { apply triple_of_result with (Q := fun _ h => button h = None);
        [intros ? ? [H _]; exact H|intros ? [H _]; exact H]. }
    intros c.
    eapply triple_bind; [apply get_players_linked; auto|intros roster].
    eapply triple_bind.
    { apply triple_modify with (Q := fun _ h => button h = None).
      intros h [H _]. exact H. }
    intros ?. eapply triple_bind.
    { apply triple_modify with (Q := fun _ h => button h = None). auto. }
    intros ?. eapply triple_bind; [apply triple_get|intros h0].
    eapply triple_bind.
    { apply triple_expect with (Q := fun _ _ => False).
      - intros b h Hb [-> Hn]. congruence.
      - intros h [_ H]. exact H. }
    intros b h l [].
Qed.

(** The hero stage on a hand without a button: whatever the lines hold,
    it returns and the hero is absent. *)
Lemma parse_hero_unresolved (h : PokerStarsHandHistory) (l : Log) :
  button h = None ->
  exists h' l',
    _parse_hero h l = Ok tt h' l' /\ hero h' = None /\ button h' = None.
Proof.
  intros Hb.
  assert (T : triple (fun h => button h = None) _parse_hero
                (fun _ h => hero h = None /\ button h = None)
                (fun _ => False)).
  { unfold _parse_hero.
    eapply triple_try with (R' := fun h => button h = None).
    - eapply triple_bind; [apply triple_get|intros h0].
      eapply triple_weaken; [apply hero_loop_unresolved| | |]; auto.
      intros ? [_ H]. exact H.
    - intros e. eapply triple_bind.
      + apply triple_logging with (Q := fun _ h => button h = None). auto.
      + intros ?. apply triple_modify. auto. }
  specialize (T h l Hb).
  destruct (_parse_hero h l) as [[] h' l'|e h' l']; [eauto|contradiction].
Qed.

(** X20: a hand that parses has neither a button nor a hero.  The
    button stage reads an attribute that no stage assigns, so it always
    falls back to no button; the hero stage then fails at the button's
    name whenever it has found the hero's line, and falls back to no
    hero; no later stage assigns either. *)
Theorem parsed_hand_has_neither_button_nor_hero
    (hand_text : string) (sections_ : gmap string string)
    (h : PokerStarsHandHistory) (l : Log) :
  run hand_text sections_ = Ok tt h l ->
  button h = None /\ hero h = None.
Proof.
  unfold run. rewrite parse_fresh. intros Hup.
  destruct (Re.match_ _header_re (header_line hand_text)) as [mh|] eqn:Hmh.
  2: { rewrite parse_upto_header_fails in Hup by exact Hmh. discriminate. }
  destruct (parse_header_returns hand_text sections_ mh [] Hmh)
    as (h1 & l1 & H1 & Hd).
  destruct (Re.match_ _table_re (table_line sections_)) as [mt|] eqn:Ht.
  2: { rewrite (parse_upto_table_fails _ _ _ _ _ H1 Hd Ht) in Hup.
       discriminate. }
  destruct (_parse_players (with_table mt h1) l1)
    as [[] h3 l3|e h3 l3] eqn:Hp.
  2: { rewrite (parse_upto_roster_fails _ _ _ _ _ _ _ _ _ H1 Hd Ht Hp)
         in Hup. discriminate. }
  destruct (parse_upto_returns _ _ (length late_stages) _ _ _ _ _
              H1 Hd Ht Hp) as (r3 & h' & l' & _ & _ & Hst & Hup' & Hset & _).
  rewrite Hup' in Hup. injection Hup as -> ->.
  split; [apply Hset|].
  rewrite firstn_all in Hst.
  change late_stages with (_parse_hero :: drop 1 late_stages) in Hst.
  rewrite run_stages_cons in Hst.
  destruct (parse_hero_unresolved (set_button None h3)
              (l3 ++ [(ERROR, "Error identifying button: "
                              +:+ exn_str (no_attribute "_table_match"))])
              eq_refl)
    as (h4 & l4 & E4 & Hhero & _).
  rewrite E4 in Hst.
  assert (K : keeps (fun h => hero h = None)
                    (run_stages (drop 1 late_stages))).
  { apply run_stages_keeps. intros m Hm.
    apply keeps_after_hero; [|exact Hm].
    intros h0 Hh0. repeat split; intros; exact Hh0. }
  specialize (K h4 l4 Hhero). rewrite Hst in K. exact K.
Qed.

End HeroFacts.

(** ** Streets and summary of a parsed hand *)

(** Keeps a predicate along stages it does not depend on. *)
Ltac frames :=
  let x := fresh "x" in
  let Hx := fresh "Hx" in
  intros x Hx; simpl in Hx;
  repeat (destruct Hx as [<-|Hx];
          [first [ apply keeps_hero | apply keeps_preflop | apply keeps_flop
                 | apply keeps_turn | apply keeps_river | apply keeps_showdown
                 | apply keeps_pot | apply keeps_board | apply keeps_winners
                 | apply keeps_final; [| |simpl; tauto] ];
           intros ? ? Hkept; exact Hkept|]);
  destruct Hx.

Section ParsedFacts.
Context `{V : Vocabulary}.

Import Hand ReLang.

(** A stage that establishes [Q], after stages that keep [P] and before
    stages that keep [Q]. *)
Lemma triple_stages {S} (P Q : S -> Prop) (pre : list (M S unit))
    (m : M S unit) (post : list (M S unit)) :
  (forall x, In x pre -> keeps P x) ->
  triple P m (fun _ => Q) (fun _ => True) ->
  (forall x, In x post -> keeps Q x) ->
  triple P (run_stages (pre ++ m :: post)) (fun _ => Q) (fun _ => True).
Proof.
  intros Hpre Hm Hpost s l Hs. rewrite run_stages_app.
  pose proof (run_stages_keeps P pre Hpre s l Hs) as K.
  destruct (run_stages pre s l) as [[] s1 l1|e s1 l1]; [|exact I].
  rewrite run_stages_cons. specialize (Hm s1 l1 K).
  destruct (m s1 l1) as [[] s2 l2|e s2 l2]; [|exact I].
  pose proof (run_stages_keeps Q post Hpost s2 l2 Hm) as K2.
  destruct (run_stages post s2 l2); [exact K2|exact I].
Qed.

(** The late stages of a parse that returned, from the state the button
    stage left. *)
Lemma returned_late_stages (hand_text : string)
    (sections_ : gmap string string) (h : PokerStarsHandHistory) (l : Log) :
  run hand_text sections_ = Ok tt h l ->
  exists h0 l0,
    sections h0 = sections_
    /\ run_stages late_stages h0 l0 = Ok tt h l.
Proof.
  unfold run. rewrite parse_fresh. intros Hup.
  destruct (Re.match_ _header_re (header_line hand_text)) as [mh|] eqn:Hmh.
  2: { rewrite parse_upto_header_fails in Hup by exact Hmh. discriminate. }
  destruct (parse_header_returns hand_text sections_ mh [] Hmh)
    as (h1 & l1 & H1 & Hd).
  destruct (Re.match_ _table_re (table_line sections_)) as [mt|] eqn:Ht.
  2: { rewrite (parse_upto_table_fails _ _ _ _ _ H1 Hd Ht) in Hup.
       discriminate. }
  destruct (_parse_players (with_table mt h1) l1)
    as [[] h3 l3|e h3 l3] eqn:Hp.
  2: { rewrite (parse_upto_roster_fails _ _ _ _ _ _ _ _ _ H1 Hd Ht Hp)
         in Hup. discriminate. }
  destruct (parse_upto_returns _ _ (length late_stages) _ _ _ _ _
              H1 Hd Ht Hp) as (r3 & h' & l' & _ & _ & Hst & Hup' & _ & Hset).
  rewrite Hup' in Hup. injection Hup as -> ->.
  rewrite firstn_all in Hst. eexists. eexists. split; [|exact Hst].
  apply Hset.
Qed.

(** X21: a section that is missing leaves its part of a parsed hand
    empty: without HOLE_CARDS there are no preflop actions, without
    FLOP no flop, without TURN and RIVER no actions of those streets,
    and the show-down flag says whether there is a SHOW_DOWN section.
    None of the stages that follow changes these values. *)
Theorem missing_street_sections_leave_their_fields_empty
    (hand_text : string) (sections_ : gmap string string)
    (h : PokerStarsHandHistory) (l : Log) :
  run hand_text sections_ = Ok tt h l ->
  (sections_ !! "HOLE_CARDS" = None -> preflop_actions h = None)
  /\ (sections_ !! "FLOP" = None -> flop h = None)
  /\ (sections_ !! "TURN" = None -> turn_actions h = None)
  /\ (sections_ !! "RIVER" = None -> river_actions h = None)
  /\ show_down h
     = Some (bool_decide (is_Some (sections_ !! "SHOW_DOWN"))).
Proof.
  intros Hrun.
  apply returned_late_stages in Hrun as (h0 & l0 & Hs0 & Hst).
  assert (Hfrom : forall (Q : PokerStarsHandHistory -> Prop) pre m post,
            late_stages = pre ++ m :: post ->
            (forall x, In x pre -> keeps (fun h => sections h = sections_) x) ->
            triple (fun h => sections h = sections_) m
              (fun _ => Q) (fun _ => True) ->
            (forall x, In x post -> keeps Q x) -> Q h).
  { intros Q pre m post E Hpre Hm Hpost.
    pose proof (triple_stages _ Q pre m post Hpre Hm Hpost h0 l0 Hs0) as T.
    rewrite <- E, Hst in T. exact T. }
  split; [|split; [|split; [|split]]].
  - intros Hk.
    apply (Hfrom (fun h => preflop_actions h = None) [_parse_hero]
             _parse_preflop
             ([_parse_flop; _parse_street "turn"; _parse_street "river";
               _parse_showdown] ++ summary_stages ++ final_stages));
      [reflexivity|frames| |frames].
    intros h1 l1 Hs1. unfold _parse_preflop, try_, bind, get, modify.
    unfold section_lines. rewrite Hs1, Hk. reflexivity.
  - intros Hk.
    apply (Hfrom (fun h => flop h = None) [_parse_hero; _parse_preflop]
             _parse_flop
             ([_parse_street "turn"; _parse_street "river";
               _parse_showdown] ++ summary_stages ++ final_stages));
      [reflexivity|frames| |frames].
    intros h1 l1 Hs1. unfold _parse_flop, try_, bind, get, modify.
    rewrite Hs1, Hk. reflexivity.
  - intros Hk.
    apply (Hfrom (fun h => turn_actions h = None)
             [_parse_hero; _parse_preflop; _parse_flop]
             (_parse_street "turn")
             ([_parse_street "river"; _parse_showdown]
              ++ summary_stages ++ final_stages));
      [reflexivity|frames| |frames].
    intros h1 l1 Hs1. unfold _parse_street, try_, bind, get.
    change (Str.upper "turn") with "TURN". rewrite Hs1, Hk. reflexivity.
  - intros Hk.
    apply (Hfrom (fun h => river_actions h = None)
             [_parse_hero; _parse_preflop; _parse_flop; _parse_street "turn"]
             (_parse_street "river")
             ([_parse_showdown] ++ summary_stages ++ final_stages));
      [reflexivity|frames| |frames].
    intros h1 l1 Hs1. unfold _parse_street, try_, bind, get.
    change (Str.upper "river") with "RIVER". rewrite Hs1, Hk. reflexivity.
  - apply (Hfrom (fun h => show_down h
                    = Some (bool_decide (is_Some (sections_ !! "SHOW_DOWN"))))
             [_parse_hero; _parse_preflop; _parse_flop; _parse_street "turn";
              _parse_street "river"]
             _parse_showdown (summary_stages ++ final_stages));
      [reflexivity|frames| |frames].
    intros h1 l1 Hs1. unfold _parse_showdown, try_, bind, get, modify.
    rewrite Hs1. reflexivity.
Qed.

Lemma pot_amounts_are_decimals (line : string) (m : caps) :
  Re.match_ _pot_re line = Some m ->
  exists p r, Dec.of_string (grp m "pot") = Some p
              /\ Dec.of_string (grp m "rake") = Some r.
Proof.
  intros Hm. apply ReFacts.match_sound in Hm as (_ & Hb & Hmust).
  destruct (Hmust "pot") as [wp Hwp]; [simpl; auto 10|].
  destruct (Hmust "rake") as [wr Hwr]; [simpl; auto 10|].
  unfold grp. rewrite Hwp, Hwr.
  destruct (Hb _ _ Hwp) as (gp & Hinp & Lp).
  destruct (Hb _ _ Hwr) as (gr & Hinr & Lr).
  simpl in Hinp, Hinr. destruct Hinp as [<-|[]]. destruct Hinr as [<-|[]].
  destruct (of_string_number _ Lp) as [p Hp].
  destruct (of_string_number _ Lr) as [r Hr]. eauto.
Qed.

(** The pot loop always returns, logs nothing, and what it stores
    depends on the lines only. *)
Lemma pot_loop_values (lines : list string) :
  exists p r, forall h l,
    pot_loop lines h l
    = Ok tt (set_rake (Some r) (set_total_pot (Some p) h)) l.
Proof.
  induction lines as [|line rest (p & r & IH)]; simpl.
  - exists zero2, zero2. reflexivity.
  - destruct (Re.match_ _pot_re (Str.strip line)) as [m|] eqn:Hm;
      [|exists p, r; exact IH].
    destruct (pot_amounts_are_decimals _ _ Hm) as (p' & r' & Hp & Hr).
    exists p', r'. intros h l. unfold bind, Decimal_, modify.
    rewrite Hp. simpl. rewrite Hr. reflexivity.
Qed.

(** X22: the pot stage never raises and never logs, and the total pot
    and the rake it stores depend on the SUMMARY section alone.  It
    replaces whatever rake the hand held, the rake the header stage read
    from a tournament's buy-in included, and no later stage changes the
    two: the rake of a parsed hand is always the one of its summary,
    0.00 when the summary has no pot line. *)
Theorem rake_of_a_parsed_hand_is_the_summary_rake
    (sections_ : gmap string string) :
  exists p r,
    (forall h l,
       sections h = sections_ ->
       _parse_pot h l = Ok tt (set_rake (Some r) (set_total_pot (Some p) h)) l)
    /\ (forall hand_text h l,
          run hand_text sections_ = Ok tt h l ->
          total_pot h = Some p /\ rake h = Some r)
    /\ (sections_ !! "SUMMARY" = None -> p = zero2 /\ r = zero2).
Proof.
  assert (Hpot : exists p r,
            (forall h l, sections h = sections_ ->
               _parse_pot h l
               = Ok tt (set_rake (Some r) (set_total_pot (Some p) h)) l)
            /\ (sections_ !! "SUMMARY" = None -> p = zero2 /\ r = zero2)).
  { destruct (sections_ !! "SUMMARY") as [sec|] eqn:Es.
    - destruct (pot_loop_values (Str.lines (Str.strip sec))) as (p & r & E).
      exists p, r. split; [|discriminate]. intros h l Hs.
      unfold _parse_pot, try_, bind, get. rewrite Hs, Es, E. reflexivity.
    - exists zero2, zero2. split; [|auto]. intros h l Hs.
      unfold _parse_pot, try_, bind, get. rewrite Hs, Es. reflexivity. }
  destruct Hpot as (p & r & Hstage & Hnone).
  exists p, r. split; [exact Hstage|]. split; [|exact Hnone].
  intros hand_text h l Hrun.
  apply returned_late_stages in Hrun as (h0 & l0 & Hs0 & Hst).
  pose proof (triple_stages (fun h => sections h = sections_)
                (fun h => total_pot h = Some p /\ rake h = Some r)
                street_stages _parse_pot
                ([_parse_board; _parse_winners] ++ final_stages)) as T.
  specialize (T ltac:(frames)).
  assert (Hm : triple (fun h => sections h = sections_) _parse_pot
                 (fun _ h => total_pot h = Some p /\ rake h = Some r)
                 (fun _ => True)).
  { intros h1 l1 Hs1. rewrite (Hstage h1 l1 Hs1). split; reflexivity. }
  specialize (T Hm ltac:(frames) h0 l0 Hs0).
  change (street_stages ++ _parse_pot
          :: [_parse_board; _parse_winners] ++ final_stages)
    with late_stages in T.
  rewrite Hst in T. exact T.
Qed.

Lemma opt_dollar_found (dollar : bool) (rest : string) i c k x :
  match rest with
  | String d _ => Ascii.eqb "$" d = false
  | EmptyString => True
  end ->
  k (i + Str.len (if dollar then "$" else EmptyString))%nat rest c = Some x ->
  rmatch (opt (Chr "$")) i ((if dollar then "$" else EmptyString) +:+ rest) c k
  = Some x.
Proof.
  intros Hrest Hk. rewrite rmatch_opt. unfold first_of. destruct dollar.
  - rewrite app_cons, app_empty_l, rmatch_Chr. simpl Ascii.eqb. cbv iota.
    replace (i + Str.len "$")%nat with (S i) in Hk
      by (unfold Str.len; simpl; lia).
    rewrite Hk. reflexivity.
  - rewrite app_empty_l. simpl in Hk. rewrite Nat.add_0_r in Hk.
    destruct rest as [|d rest]; [rewrite rmatch_Chr_nil; exact Hk|].
    rewrite rmatch_Chr, Hrest. exact Hk.
Qed.

Lemma digit_run_head (ip tail : string) :
  digit_run ip ->
  match ip +:+ tail with
  | String d _ => Ascii.eqb "$" d = false
  | EmptyString => True
  end.
Proof.
  intros [Hne Hd]. destruct ip as [|d ip]; [contradiction|].
  rewrite app_cons. simpl in Hd. apply andb_true_iff in Hd as [Hd _].
  rewrite Ascii.eqb_sym. apply numchar_not_dollar, digit_numchar, Hd.
Qed.

Lemma take_len (s : string) : Str.take (Str.len s) s = s.
Proof.
  rewrite <- (app_empty_r s) at 2. apply take_app.
Qed.

Lemma number_munch_right ip fp i tail c k x :
  digit_run ip -> (forall f, fp = Some f -> digit_run f) ->
  stops is_numchar tail ->
  k (i + Str.len (ip +:+ frac_text fp))%nat tail c = Some x ->
  rmatch number i (ip +:+ frac_text fp +:+ tail) c k = Some x.
Proof.
  intros Hip Hfp Ht Hk. rewrite <- app_assoc_s.
  apply number_munch; assumption.
Qed.

Lemma pot_line_match (d1 : bool) (ip1 : string) (fp1 : option string)
    (d2 : bool) (ip2 : string) (fp2 : option string) :
  digit_run ip1 -> (forall f, fp1 = Some f -> digit_run f) ->
  digit_run ip2 -> (forall f, fp2 = Some f -> digit_run f) ->
  Re.match_ _pot_re (pot_line (amount_text d1 ip1 fp1)
                              (amount_text d2 ip2 fp2))
  = Some [("rake", ip2 +:+ frac_text fp2); ("pot", ip1 +:+ frac_text fp1)].
Proof.
  intros Hip1 Hfp1 Hip2 Hfp2.
  unfold Re.match_, _pot_re, cats, pot_line, amount_text.
  rewrite !app_assoc_s.
  rewrite rmatch_Cat, rmatch_Bol. simpl Nat.eqb. cbv iota.
  rewrite rmatch_Cat, rmatch_Lit, drop_prefix_app.
  rewrite rmatch_Cat.
  apply opt_dollar_found; [apply digit_run_head, Hip1|].
  rewrite rmatch_Cat, rmatch_Grp.
  apply number_munch_right; [exact Hip1|exact Hfp1|reflexivity|].
  rewrite rmatch_Cat, rmatch_Lit, drop_prefix_app.
  rewrite rmatch_Cat.
  apply opt_dollar_found; [apply digit_run_head, Hip2|].
  rewrite rmatch_Cat, rmatch_Grp.
  rewrite <- (app_empty_r (frac_text fp2)) at 1.
  apply number_munch_right; [exact Hip2|exact Hfp2|exact I|].
  simpl rmatch. unfold accept.
  repeat match goal with
         | |- context [Str.take (?a + ?b - ?a)%nat _] =>
             replace (a + b - a)%nat with b by lia
         end.
  rewrite take_len, <- (app_assoc_s ip1 (frac_text fp1)), take_app.
  reflexivity.
Qed.

(** X25: what the header stage has read stays as it is.  In a hand
    that parses, the hand identity, the blinds, the game type, the
    tournament number and level, the buy-in, the currency, game, limit,
    date and money type are those the header stage left: the stages
    after it assign none of them (the rake is the one attribute of the
    header that a later stage replaces).  The raw text and the sections
    are the ones the parse was given. *)
Theorem header_fields_survive_the_parse
    (hand_text : string) (sections_ : gmap string string)
    (h : PokerStarsHandHistory) (l : Log) :
  run hand_text sections_ = Ok tt h l ->
  (exists h1 l1,
     parse_header (new hand_text sections_) [] = Ok tt h1 l1
     /\ header_consistent h1
     /\ header_view h = header_view h1)
  /\ raw h = hand_text /\ sections h = sections_.
Proof.
  unfold run. rewrite parse_unfold. simpl header_parsed. cbv iota.
  unfold bind at 1.
  destruct (Re.match_ _header_re (header_line hand_text)) as [m|] eqn:Hm.
  2: { rewrite (header_stage_mismatch (new hand_text sections_) [] Hm).
       discriminate. }
  destruct (header_stage_match (new hand_text sections_) [] m Hm)
    as (h1 & l1 & E1 & Hc & Hs & Hr & _).
  rewrite E1. intros Hrun.
  assert (K : keeps (fun h => header_view h = header_view h1
                              /\ raw h = hand_text /\ sections h = sections_)
                after_header).
  { unfold after_header.
    apply keeps_bind;
      [apply keeps_table; intros ? ? Hkept; exact Hkept|intros _].
    apply keeps_bind;
      [apply keeps_players; intros ? ? Hkept; exact Hkept|intros _].
    apply keeps_bind;
      [apply keeps_button; intros ? ? Hkept; exact Hkept|intros _].
    apply run_stages_keeps. unfold late_stages, street_stages,
      summary_stages. frames. }
  specialize (K h1 l1 (conj eq_refl (conj Hr Hs))). rewrite Hrun in K.
  destruct K as (Hv & Hraw & Hsec).
  split; [|split; [exact Hraw|exact Hsec]].
  exists h1, l1. split; [reflexivity|]. split; [exact Hc|exact Hv].
Qed.

Lemma split_on_no_sep (sep : ascii) (s : string) :
  Forall (fun x => Str.all (fun c => negb (Ascii.eqb c sep)) x = true)
    (Str.split_on sep s).
Proof.
  induction s as [|c s IH]; simpl; [repeat constructor|].
  destruct (Ascii.eqb c sep) eqn:Ec; [constructor; [reflexivity|exact IH]|].
  destruct (Str.split_on sep s) as [|w ws]; [repeat constructor; simpl|].
  - rewrite Ec. reflexivity.
  - inversion IH as [|? ? Hw Hws]; subst. constructor; [|exact Hws].
    simpl. rewrite Ec, Hw. reflexivity.
Qed.

Lemma table_line_has_no_newline (sections_ : gmap string string)
    (text : string) :
  table_line sections_ <> text +:+ String newline EmptyString.
Proof.
  intros E.
  assert (H : Str.all (fun c => negb (Ascii.eqb c newline))
                (table_line sections_) = true).
  { unfold table_line, Str.lines.
    pose proof (split_on_no_sep newline
                  (Str.strip (default EmptyString (sections_ !! "HEADER"))))
      as F.
    destruct (Str.split_on newline _) as [|x xs]; [reflexivity|].
    inversion F; assumption. }
  rewrite E, all_app in H. simpl in H. rewrite andb_false_r in H.
  discriminate.
Qed.

Lemma table_match_shape (line : string) (m : caps) :
  Re.match_ _table_re line = Some m ->
  exists name seats button_ tail,
    line = table_text name seats button_ +:+ tail
    /\ (tail = EmptyString \/ tail = String newline EmptyString)
    /\ name <> EmptyString /\ digit_run seats /\ digit_run button_
    /\ m = [("button", button_); ("max_players", seats);
            ("table_name", name)].
Proof.
  unfold Re.match_, _table_re, cats. intros H.
  rewrite rmatch_Cat, rmatch_Bol in H. simpl Nat.eqb in H. cbv iota in H.
  rewrite rmatch_Cat in H. apply rmatch_lit in H as (s1 & -> & H).
  rewrite rmatch_Cat in H.
  apply rmatch_group in H as (name & s2 & -> & Ln & H); [|reflexivity].
  rewrite rmatch_Cat in H. apply rmatch_lit in H as (s3 & -> & H).
  rewrite rmatch_Cat in H.
  apply rmatch_group in H as (seats & s4 & -> & Ls & H); [|reflexivity].
  rewrite rmatch_Cat in H. apply rmatch_lit in H as (s5 & -> & H).
  rewrite rmatch_Cat in H.
  apply rmatch_group in H as (button_ & s6 & -> & Lb & H); [|reflexivity].
  rewrite rmatch_Cat in H. apply rmatch_lit in H as (tail & -> & H).
  apply rmatch_eol in H as [Htail ->].
  exists name, seats, button_, tail. unfold table_text.
  rewrite !app_assoc_s. split; [reflexivity|]. split; [exact Htail|].
  split; [destruct Ln as [_ Hl]; intros ->; simpl in Hl; lia|].
  split; [destruct Ls as [Ha Hl]; split; [intros ->; simpl in Hl; lia|exact Ha]|].
  split; [destruct Lb as [Ha Hl]; split; [intros ->; simpl in Hl; lia|exact Ha]|].
  reflexivity.
Qed.

(** X26: what the table stage takes and what it keeps.  It returns only
    on a first line of the shape [Table '<name>' <seats>-max Seat
    #<button> is the button], with a name that is not empty and two runs
    of digits; it then stores the name and the number of seats, logs
    nothing, and stores the button seat nowhere: the object is the one
    it was but for those two attributes. *)
Theorem table_stage_stores_name_and_seats_only
    (h h' : PokerStarsHandHistory) (l l' : Log) :
  _parse_table h l = Ok tt h' l' ->
  l' = l
  /\ exists name seats button_,
       table_line (sections h) = table_text name seats button_
       /\ name <> EmptyString /\ digit_run seats /\ digit_run button_
       /\ h' = set_max_players (Some (Str.to_Z seats))
                 (set_table_name (Some name) h)
       /\ (0 <= Str.to_Z seats)%Z.
Proof.
  destruct (Re.match_ _table_re (table_line (sections h))) as [m|] eqn:Hm.
  2: { rewrite (parse_table_no_match h l Hm). discriminate. }
  rewrite (parse_table_match h l m Hm). intros [= <- <-].
  split; [reflexivity|].
  apply table_match_shape in Hm
    as (name & seats & button_ & tail & E & Htail & Hn & Hs & Hb & ->).
  destruct Htail as [-> | ->].
  2: { exfalso. apply (table_line_has_no_newline _ _ E). }
  rewrite app_empty_r in E.
  exists name, seats, button_. split; [exact E|]. split; [exact Hn|].
  split; [exact Hs|]. split; [exact Hb|].
  split; [reflexivity|apply to_Z_nonneg].
Qed.

Lemma rstrip_last (s text : string) (c : ascii) :
  is_space c = true -> Str.rstrip s <> text +:+ String c EmptyString.
Proof.
  intros Hc. revert text. induction s as [|a s IH]; intros text; simpl.
  - destruct text; discriminate.
  - destruct (is_space a && Str.is_empty (Str.rstrip s)) eqn:E.
    + destruct text; discriminate.
    + destruct text as [|t text].
      * rewrite app_empty_l. intros [= -> Hr]. rewrite Hr, Hc in E.
        discriminate.
      * rewrite app_cons. intros [= _ Hr]. apply (IH _ Hr).
Qed.

Lemma lstrip_suffix (s : string) : exists pre, s = pre +:+ Str.lstrip s.
Proof.
  induction s as [|a s (pre & IH)]; [exists EmptyString; reflexivity|].
  simpl. destruct (is_space a).
  - exists (String a pre). rewrite app_cons, <- IH. reflexivity.
  - exists EmptyString. reflexivity.
Qed.

(** A stripped text does not end in a newline. *)
Lemma strip_has_no_final_newline (s text : string) :
  Str.strip s <> text +:+ String newline EmptyString.
Proof.
  unfold Str.strip. intros E.
  destruct (lstrip_suffix (Str.rstrip s)) as (pre & Hpre).
  rewrite E, <- app_assoc_s in Hpre.
  apply (rstrip_last s (pre +:+ text) newline); [reflexivity|exact Hpre].
Qed.

Lemma winner_match_shape (line : string) (m : caps) :
  Re.match_ _winner_re line = Some m ->
  exists seat_ name dollar ip fp tail,
    line = collected_summary seat_ name (amount_text dollar ip fp) +:+ tail
    /\ (tail = EmptyString \/ tail = String newline EmptyString)
    /\ digit_run seat_ /\ name <> EmptyString
    /\ digit_run ip /\ (forall f, fp = Some f -> digit_run f)
    /\ grp m "name" = name.
Proof.
  unfold Re.match_, _winner_re, cats. intros H.
  rewrite rmatch_Cat, rmatch_Bol in H. simpl Nat.eqb in H. cbv iota in H.
  rewrite rmatch_Cat in H. apply rmatch_lit in H as (s1 & -> & H).
  rewrite rmatch_Cat in H.
  apply rmatch_groupless in H as (seat_ & s2 & -> & Ls & H); [|reflexivity].
  rewrite rmatch_Cat in H. apply rmatch_lit in H as (s3 & -> & H).
  rewrite rmatch_Cat in H.
  apply rmatch_group in H as (name & s4 & -> & Ln & H); [|reflexivity].
  rewrite rmatch_Cat in H. apply rmatch_lit in H as (s5 & -> & H).
  rewrite rmatch_Cat in H.
  apply rmatch_groupless in H as (dol & s6 & -> & Ld & H); [|reflexivity].
  rewrite rmatch_Cat in H.
  apply rmatch_group in H as (amt & s7 & -> & La & H); [|reflexivity].
  rewrite rmatch_Cat in H. apply rmatch_chr in H as (tail & -> & H).
  apply rmatch_eol in H as [Htail ->].
  apply lang_number_amount in La as (ip & fp & -> & Hip & Hfp).
  exists seat_, name, (negb (Str.is_empty dol)), ip, fp, tail.
  split.
  { unfold collected_summary, amount_text.
    destruct Ld as [-> | ->]; simpl negb; cbv iota;
      rewrite !app_assoc_s, ?app_empty_l; reflexivity. }
  split; [exact Htail|].
  split; [destruct Ls as [Ha Hl]; split; [intros ->; simpl in Hl; lia|exact Ha]|].
  split; [destruct Ln as [_ Hl]; intros ->; simpl in Hl; lia|].
  split; [exact Hip|]. split; [exact Hfp|]. reflexivity.
Qed.

Lemma showdown_match_shape (line : string) (m : caps) :
  Re.match_ _showdown_re line = Some m ->
  exists seat_ name cards_ tail,
    line = showed_summary seat_ name cards_ +:+ tail
    /\ (tail = EmptyString \/ tail = String newline EmptyString)
    /\ digit_run seat_ /\ name <> EmptyString /\ cards_ <> EmptyString
    /\ grp m "name" = name.
Proof.
  unfold Re.match_, _showdown_re, cats. intros H.
  rewrite rmatch_Cat, rmatch_Bol in H. simpl Nat.eqb in H. cbv iota in H.
  rewrite rmatch_Cat in H. apply rmatch_lit in H as (s1 & -> & H).
  rewrite rmatch_Cat in H.
  apply rmatch_groupless in H as (seat_ & s2 & -> & Ls & H); [|reflexivity].
  rewrite rmatch_Cat in H. apply rmatch_lit in H as (s3 & -> & H).
  rewrite rmatch_Cat in H.
  apply rmatch_group in H as (name & s4 & -> & Ln & H); [|reflexivity].
  rewrite rmatch_Cat in H. apply rmatch_lit in H as (s5 & -> & H).
  rewrite rmatch_Cat in H.
  apply rmatch_groupless in H as (cards_ & s6 & -> & Lc & H); [|reflexivity].
  rewrite rmatch_Cat in H. apply rmatch_lit in H as (tail & -> & H).
  apply rmatch_eol in H as [Htail ->].
  exists seat_, name, cards_, tail.
  split; [unfold showed_summary; rewrite !app_assoc_s; reflexivity|].
  split; [exact Htail|].
  split; [destruct Ls as [Ha Hl]; split; [intros ->; simpl in Hl; lia|exact Ha]|].
  split; [destruct Ln as [_ Hl]; intros ->; simpl in Hl; lia|].
  split; [destruct Lc as [_ Hl]; intros ->; simpl in Hl; lia|].
  reflexivity.
Qed.

(** X27: which summary lines name a winner.  A line adds a name to the
    winners only when, stripped, it is [Seat <digits>: <name> collected
    (<amount>)] or [Seat <digits>: <name> showed [<cards>] and won] and
    ends there: a line that goes on after [and won] or after the closing
    parenthesis names no winner.  The name is never empty. *)
Theorem winners_come_from_two_shapes_of_line (line n : string) :
  winner_of_line line = Some n ->
  n <> EmptyString
  /\ ((exists seat_ dollar ip fp,
         Str.strip line
         = collected_summary seat_ n (amount_text dollar ip fp)
         /\ digit_run seat_ /\ digit_run ip
         /\ (forall f, fp = Some f -> digit_run f))
      \/ (exists seat_ cards_,
            Str.strip line = showed_summary seat_ n cards_
            /\ digit_run seat_ /\ cards_ <> EmptyString)).
Proof.
  assert (Hstrip : forall text,
            Str.strip line <> text +:+ String newline EmptyString).
  { intros text E. exact (strip_has_no_final_newline line text E). }
  unfold winner_of_line.
  destruct (Re.match_ _winner_re (Str.strip line)) as [m|] eqn:Hw.
  - intros [= <-].
    apply winner_match_shape in Hw
      as (seat_ & name & dollar & ip & fp & tail & E & Htail & Hs & Hn
          & Hip & Hfp & ->).
    split; [exact Hn|]. left. exists seat_, dollar, ip, fp.
    destruct Htail as [-> | ->]; [|exfalso; apply (Hstrip _ E)].
    rewrite app_empty_r in E. auto.
  - destruct (Re.match_ _showdown_re (Str.strip line)) as [m|] eqn:Hs;
      [|discriminate].
    intros [= <-].
    apply showdown_match_shape in Hs
      as (seat_ & name & cards_ & tail & E & Htail & Hse & Hn & Hc & ->).
    split; [exact Hn|]. right. exists seat_, cards_.
    destruct Htail as [-> | ->]; [|exfalso; apply (Hstrip _ E)].
    rewrite app_empty_r in E. auto.
Qed.

(** Where the pot pattern matches: on a complete pot line. *)
Lemma pot_match_shape (line : string) (m : caps) :
  Re.match_ _pot_re line = Some m ->
  exists d1 ip1 fp1 d2 ip2 fp2 tail,
    line = pot_line (amount_text d1 ip1 fp1) (amount_text d2 ip2 fp2)
           +:+ tail
    /\ (tail = EmptyString \/ tail = String newline EmptyString)
    /\ digit_run ip1 /\ (forall f, fp1 = Some f -> digit_run f)
    /\ digit_run ip2 /\ (forall f, fp2 = Some f -> digit_run f).
Proof.
  unfold Re.match_, _pot_re, cats. intros H.
  rewrite rmatch_Cat, rmatch_Bol in H. simpl Nat.eqb in H. cbv iota in H.
  rewrite rmatch_Cat in H. apply rmatch_lit in H as (s1 & -> & H).
  rewrite rmatch_Cat in H.
  apply rmatch_groupless in H as (dol1 & s2 & -> & Ld1 & H); [|reflexivity].
  rewrite rmatch_Cat in H.
  apply rmatch_group in H as (amt1 & s3 & -> & La1 & H); [|reflexivity].
  rewrite rmatch_Cat in H. apply rmatch_lit in H as (s4 & -> & H).
  rewrite rmatch_Cat in H.
  apply rmatch_groupless in H as (dol2 & s5 & -> & Ld2 & H); [|reflexivity].
  rewrite rmatch_Cat in H.
  apply rmatch_group in H as (amt2 & tail & -> & La2 & H); [|reflexivity].
  apply rmatch_eol in H as [Htail _].
  apply lang_number_amount in La1 as (ip1 & fp1 & -> & Hip1 & Hfp1).
  apply lang_number_amount in La2 as (ip2 & fp2 & -> & Hip2 & Hfp2).
  exists (negb (Str.is_empty dol1)), ip1, fp1,
         (negb (Str.is_empty dol2)), ip2, fp2, tail.
  split.
  { unfold pot_line, amount_text.
    destruct Ld1 as [-> | ->]; destruct Ld2 as [-> | ->]; simpl negb;
      cbv iota; rewrite !app_assoc_s, ?app_empty_l; reflexivity. }
  auto 10.
Qed.

Lemma not_pot_line_no_match (x : string) :
  ~ is_pot_line (Str.strip x) -> Re.match_ _pot_re (Str.strip x) = None.
Proof.
  intros Hx. destruct (Re.match_ _pot_re (Str.strip x)) as [m|] eqn:Hm;
    [exfalso|reflexivity].
  apply pot_match_shape in Hm
    as (d1 & ip1 & fp1 & d2 & ip2 & fp2 & tail & E & Htail
        & Hip1 & Hfp1 & Hip2 & Hfp2).
  destruct Htail as [-> | ->];
    [|apply (strip_has_no_final_newline _ _ E)].
  rewrite app_empty_r in E. apply Hx.
  exists d1, ip1, fp1, d2, ip2, fp2. auto 10.
Qed.

Lemma no_match_not_pot_line (x : string) :
  Re.match_ _pot_re x = None -> ~ is_pot_line x.
Proof.
  intros Hm (d1 & ip1 & fp1 & d2 & ip2 & fp2 & Hip1 & Hfp1 & Hip2 & Hfp2 & ->).
  rewrite (pot_line_match _ _ _ _ _ _ Hip1 Hfp1 Hip2 Hfp2) in Hm.
  discriminate.
Qed.

Lemma pot_loop_skips (pre rest : list string)
    (h : PokerStarsHandHistory) (l : Log) :
  Forall (fun x => ~ is_pot_line (Str.strip x)) pre ->
  pot_loop (pre ++ rest) h l = pot_loop rest h l.
Proof.
  intros Hpre. induction Hpre as [|x pre Hx _ IH]; [reflexivity|].
  simpl. rewrite (not_pot_line_no_match _ Hx). exact IH.
Qed.

(** X23: the first complete pot line of the summary decides.  A line
    is skipped unless, stripped, it is [Total pot <amount> | Rake
    <amount>] and nothing else, each amount with or without its dollar
    sign: a line that starts with [Total pot ] and goes on with a main
    and a side pot is skipped like any other.  The first line of that
    shape gives the total pot and the rake, with the digits and the
    number of decimals as written, and the lines after it are not
    read; a summary without such a line gives 0.00 for both. *)
Theorem first_pot_line_gives_pot_and_rake
    (h : PokerStarsHandHistory) (l : Log) (sec : string)
    (pre : list string) :
  sections h !! "SUMMARY" = Some sec ->
  Forall (fun x => ~ is_pot_line (Str.strip x)) pre ->
  (Str.lines (Str.strip sec) = pre ->
   _parse_pot h l
   = Ok tt (set_rake (Some zero2) (set_total_pot (Some zero2) h)) l)
  /\ (forall line rest d1 ip1 fp1 d2 ip2 fp2,
        Str.lines (Str.strip sec) = pre ++ line :: rest ->
        Str.strip line
        = pot_line (amount_text d1 ip1 fp1) (amount_text d2 ip2 fp2) ->
        digit_run ip1 -> (forall f, fp1 = Some f -> digit_run f) ->
        digit_run ip2 -> (forall f, fp2 = Some f -> digit_run f) ->
        _parse_pot h l
        = Ok tt (set_rake (Some (amount_value ip2 fp2))
                   (set_total_pot (Some (amount_value ip1 fp1)) h)) l).
Proof.
  intros Hsec Hpre. split.
  - intros Hlines. unfold _parse_pot, try_, bind at 1, get.
    rewrite Hsec, Hlines, <- (app_nil_r pre), (pot_loop_skips _ _ _ _ Hpre).
    reflexivity.
  - intros line rest d1 ip1 fp1 d2 ip2 fp2 Hlines Hline Hip1 Hfp1 Hip2 Hfp2.
    unfold _parse_pot, try_, bind at 1, get.
    rewrite Hsec, Hlines, (pot_loop_skips _ _ _ _ Hpre). simpl.
    rewrite Hline, (pot_line_match _ _ _ _ _ _ Hip1 Hfp1 Hip2 Hfp2).
    unfold bind, Decimal_, modify.
    cbn [grp group String.eqb Ascii.eqb Bool.eqb].
    rewrite (of_string_amount _ _ Hip1 Hfp1). simpl.
    rewrite (of_string_amount _ _ Hip2 Hfp2). reflexivity.
Qed.

(** Where the board pattern matches: at a bracket group. *)
Lemma board_match_shape j s' c :
  rmatch Street.board_re j s' [] accept = Some c ->
  exists body post,
    s' = "[" +:+ body +:+ "]" +:+ post /\ body <> EmptyString
    /\ Str.contains "]" body = false.
Proof.
  intros H. unfold Street.board_re, cats in H.
  rewrite rmatch_Cat in H. apply rmatch_chr in H as (s1 & -> & H).
  rewrite rmatch_Cat in H.
  apply rmatch_group in H as (body & s2 & -> & [Hb Hl] & H); [|reflexivity].
  apply rmatch_chr in H as (post & -> & _).
  exists body, post. split; [reflexivity|].
  split; [intros ->; simpl in Hl; lia|].
  clear Hl. induction body as [|a body IH]; [reflexivity|].
  simpl in Hb. apply andb_true_iff in Hb as [Ha Hb].
  rewrite contains_cons, startswith_char, (IH Hb), orb_false_r.
  unfold not_rbracket in Ha. apply negb_true_iff in Ha.
  rewrite Ascii.eqb_sym. exact Ha.
Qed.

Lemma board_match_found j body post :
  body <> EmptyString -> Str.contains "]" body = false ->
  rmatch Street.board_re j ("[" +:+ body +:+ "]" +:+ post) [] accept
  = Some [("1", body)].
Proof.
  intros Hne Hbody. unfold Street.board_re, cats.
  rewrite app_cons, app_empty_l.
  rewrite rmatch_Cat, rmatch_Chr. simpl Ascii.eqb. cbv iota.
  rewrite rmatch_Cat, rmatch_Grp. unfold plus. rewrite rmatch_Rep.
  apply rep_greedy_munch;
    [apply not_rbracket_all, Hbody|reflexivity
    |destruct body; [contradiction|simpl; lia]|].
  rewrite app_cons, rmatch_Chr. simpl Ascii.eqb. cbv iota. unfold accept.
  match goal with
  | |- context [Str.take (?a + ?b - ?a)%nat _] =>
      replace (a + b - a)%nat with b by lia
  end.
  rewrite take_app. reflexivity.
Qed.

Lemma no_group_no_search (x : string) :
  ~ has_bracket_group x -> Re.search Street.board_re x = None.
Proof.
  intros Hx. destruct (Re.search Street.board_re x) as [m|] eqn:Hm;
    [exfalso|reflexivity].
  unfold Re.search in Hm.
  apply search_from_sound in Hm as (p & s' & -> & Hm).
  apply board_match_shape in Hm as (body & q & -> & Hne & Hbody).
  apply Hx. exists p, body, q. auto.
Qed.

Lemma no_search_no_group (x : string) :
  Re.search Street.board_re x = None -> ~ has_bracket_group x.
Proof.
  intros Hs (p & body & q & -> & Hne & Hbody).
  apply (search_from_complete Street.board_re 0 p
           ("[" +:+ body +:+ "]" +:+ q) [("1", body)]);
    [apply board_match_found; assumption|exact Hs].
Qed.

Lemma no_bracket_opens_no_group (p : string) :
  Str.contains "[" p = false -> opens_no_group p.
Proof.
  intros Hp a b ->. exfalso. revert Hp.
  induction a as [|c a IH].
  - rewrite app_empty_l, app_cons, contains_cons, startswith_char.
    simpl. discriminate.
  - rewrite app_cons, contains_cons.
    intros [_ H]%orb_false_iff. exact (IH H).
Qed.

(** The search passes over text in which no group can start. *)
Lemma board_search_opens (p s : string) (i : nat) :
  opens_no_group p ->
  search_from Street.board_re i (p +:+ s)
  = search_from Street.board_re (i + Str.len p)%nat s.
Proof.
  revert i. induction p as [|c p IH]; intros i Hp.
  - rewrite app_empty_l. simpl. rewrite Nat.add_0_r. reflexivity.
  - assert (Hp' : opens_no_group p).
    { intros a b E. apply (Hp (String c a) b). rewrite E. reflexivity. }
    rewrite app_cons, search_skip.
    + rewrite (IH _ Hp'). unfold Str.len. simpl. rewrite Nat.add_succ_r.
      reflexivity.
    + unfold Street.board_re, cats. rewrite rmatch_Cat, rmatch_Chr.
      destruct (Ascii.eqb_spec "[" c) as [<-|]; [|reflexivity].
      specialize (Hp EmptyString p eq_refl).
      destruct p as [|d p]; [discriminate|].
      rewrite startswith_char in Hp. apply Ascii.eqb_eq in Hp as <-.
      reflexivity.
Qed.

Lemma board_search_first_group (p body q : string) :
  opens_no_group p -> body <> EmptyString ->
  Str.contains "]" body = false ->
  Re.search Street.board_re (board_line p body q) = Some [("1", body)].
Proof.
  intros Hp Hne Hbody. unfold Re.search, board_line.
  rewrite (board_search_opens _ _ _ Hp). apply search_here.
  apply board_match_found; assumption.
Qed.

Lemma board_loop_skips (pre rest : list string)
    (h : PokerStarsHandHistory) (l : Log) :
  Forall (fun x => ~ has_bracket_group x) pre ->
  board_loop (pre ++ rest) h l = board_loop rest h l.
Proof.
  intros Hpre. induction Hpre as [|x pre Hx _ IH]; [reflexivity|].
  simpl. unfold _board_re. rewrite (no_group_no_search _ Hx). exact IH.
Qed.

(** X24: the board is read from the first line of the summary that has
    a bracket group, and from the first group of that line.  A line
    without a bracket group is skipped, a line whose bracket is never
    closed or is closed at once included.  In the first line that has
    a group, the text before the group opens none, and all the tokens
    of the group become the board, each accepted as a card; the lines
    after it are not read.  A summary without any bracket group gives
    no board.  Nothing is logged in either case. *)
Theorem board_is_the_first_bracket_group_of_the_summary
    (h : PokerStarsHandHistory) (l : Log) (sec : string)
    (pre : list string) :
  sections h !! "SUMMARY" = Some sec ->
  Forall (fun x => ~ has_bracket_group x) pre ->
  (Str.lines (Str.strip sec) = pre ->
   _parse_board h l = Ok tt (set_board None h) l)
  /\ (forall p body q rest cs,
        Str.lines (Str.strip sec) = pre ++ board_line p body q :: rest ->
        opens_no_group p -> body <> EmptyString ->
        Str.contains "]" body = false ->
        Forall2 (fun t c => Card t = inr c) (Str.split_ws body) cs ->
        _parse_board h l = Ok tt (set_board (Some cs) h) l).
Proof.
  intros Hsec Hpre. split.
  - intros Hlines. unfold _parse_board, try_, bind at 1, get.
    rewrite Hsec, Hlines, <- (app_nil_r pre), (board_loop_skips _ _ _ _ Hpre).
    reflexivity.
  - intros p body q rest cs Hlines Hp Hne Hbody Hcs.
    unfold _parse_board, try_, bind at 1, get.
    rewrite Hsec, Hlines, (board_loop_skips _ _ _ _ Hpre). simpl.
    unfold _board_re. rewrite (board_search_first_group _ _ _ Hp Hne Hbody).
    cbn [grp group String.eqb Ascii.eqb Bool.eqb].
    unfold bind. rewrite (mapM_cards _ _ _ _ Hcs). reflexivity.
Qed.

Lemma seat_match_shape (line : string) (m : caps) :
  Re.match_ _seat_re line = Some m ->
  exists seat_ name dollar ip fp tail,
    line = seat_text seat_ name (amount_text dollar ip fp) +:+ tail
    /\ (tail = EmptyString \/ tail = String newline EmptyString)
    /\ digit_run seat_ /\ name <> EmptyString
    /\ digit_run ip /\ (forall f, fp = Some f -> digit_run f)
    /\ m = [("stack", ip +:+ frac_text fp); ("name", name);
            ("seat", seat_)].
Proof.
  unfold Re.match_, _seat_re, cats. intros H.
  rewrite rmatch_Cat, rmatch_Bol in H. simpl Nat.eqb in H. cbv iota in H.
  rewrite rmatch_Cat in H. apply rmatch_lit in H as (s1 & -> & H).
  rewrite rmatch_Cat in H.
  apply rmatch_group in H as (seat_ & s2 & -> & Ls & H); [|reflexivity].
  rewrite rmatch_Cat in H. apply rmatch_lit in H as (s3 & -> & H).
  rewrite rmatch_Cat in H.
  apply rmatch_group in H as (name & s4 & -> & Ln & H); [|reflexivity].
  rewrite rmatch_Cat in H. apply rmatch_lit in H as (s5 & -> & H).
  rewrite rmatch_Cat in H.
  apply rmatch_groupless in H as (dol & s6 & -> & Ld & H); [|reflexivity].
  rewrite rmatch_Cat in H.
  apply rmatch_group in H as (amt & s7 & -> & La & H); [|reflexivity].
  rewrite rmatch_Cat in H. apply rmatch_lit in H as (tail & -> & H).
  apply rmatch_eol in H as [Htail ->].
  apply lang_number_amount in La as (ip & fp & -> & Hip & Hfp).
  exists seat_, name, (negb (Str.is_empty dol)), ip, fp, tail.
  split.
  { unfold seat_text, amount_text.
    destruct Ld as [-> | ->]; simpl negb; cbv iota;
      rewrite !app_assoc_s, ?app_empty_l; reflexivity. }
  split; [exact Htail|].
  split; [destruct Ls as [Ha Hl]; split; [intros ->; simpl in Hl; lia|exact Ha]|].
  split; [destruct Ln as [_ Hl]; intros ->; simpl in Hl; lia|].
  split; [exact Hip|]. split; [exact Hfp|]. reflexivity.
Qed.

(** X28: a line is a seat line only when, stripped, it is [Seat
    <digits>: <name> (<amount> in chips)] and ends there; the seat is
    the number of the digits, the stack the amount as written.  Any
    other line, a seat line that goes on after [in chips)] included,
    ends the seat run: the seat lines after it are not read, and nothing
    is logged for it. *)
Theorem seat_line_ends_with_its_chips :
  (forall line m,
     Re.match_ _seat_re (Str.strip line) = Some m ->
     exists seat_ name dollar ip fp,
       Str.strip line = seat_text seat_ name (amount_text dollar ip fp)
       /\ digit_run seat_ /\ name <> EmptyString
       /\ digit_run ip /\ (forall f, fp = Some f -> digit_run f)
       /\ grp m "seat" = seat_ /\ grp m "name" = name
       /\ Dec.of_string (grp m "stack") = Some (amount_value ip fp))
  /\ (forall pre bad rest h l,
        (forall body, Str.strip bad <> body +:+ " in chips)") ->
        seat_loop (pre ++ bad :: rest) h l = seat_loop pre h l).
Proof.
  assert (Hshape : forall line m,
     Re.match_ _seat_re (Str.strip line) = Some m ->
     exists seat_ name dollar ip fp,
       Str.strip line = seat_text seat_ name (amount_text dollar ip fp)
       /\ digit_run seat_ /\ name <> EmptyString
       /\ digit_run ip /\ (forall f, fp = Some f -> digit_run f)
       /\ grp m "seat" = seat_ /\ grp m "name" = name
       /\ Dec.of_string (grp m "stack") = Some (amount_value ip fp)).
  { intros line m Hm.
    apply seat_match_shape in Hm
      as (seat_ & name & dollar & ip & fp & tail & E & Htail & Hs & Hn
          & Hip & Hfp & ->).
    destruct Htail as [-> | ->];
      [|exfalso; apply (strip_has_no_final_newline _ _ E)].
    rewrite app_empty_r in E.
    exists seat_, name, dollar, ip, fp. split; [exact E|].
    split; [exact Hs|]. split; [exact Hn|]. split; [exact Hip|].
    split; [exact Hfp|]. split; [reflexivity|]. split; [reflexivity|].
    cbn [grp group String.eqb Ascii.eqb Bool.eqb].
    apply of_string_amount; assumption. }
  split; [exact Hshape|].
  intros pre bad rest h l Hbad. apply seat_loop_stops.
  destruct (Re.match_ _seat_re (Str.strip bad)) as [m|] eqn:Hm;
    [|reflexivity].
  destruct (Hshape bad m Hm) as (seat_ & name & dollar & ip & fp & E & _).
  exfalso. apply (Hbad ("Seat " +:+ seat_ +:+ ": " +:+ name +:+ " ("
                        +:+ amount_text dollar ip fp)).
  rewrite E. unfold seat_text. rewrite !app_assoc_s. reflexivity.
Qed.

Lemma preflop_loop_prefix (pre rest : list string) :
  Forall (fun x => Str.startswith "***" (Str.upper x) = false) pre ->
  match rest with
  | [] => True
  | mark :: _ => Str.startswith "***" (Str.upper mark) = true
  end ->
  preflop_loop (pre ++ rest) = Str.strip <$> pre.
Proof.
  intros Hpre Hrest. induction Hpre as [|x pre Hx _ IH]; simpl.
  - destruct rest as [|mark rest]; [reflexivity|]. simpl.
    rewrite Hrest. reflexivity.
  - rewrite Hx, IH. reflexivity.
Qed.

(** X29: the preflop actions are text, not actions: the stripped lines
    of the HOLE_CARDS section after its first line, up to the first line
    that starts with three asterisks; the lines from that one on are not
    read, and with no line to keep the attribute is absent, never an
    empty tuple.  The stage logs nothing and cannot fail. *)
Theorem preflop_actions_are_the_lines_before_the_first_marker
    (h : PokerStarsHandHistory) (l : Log) (pre rest : list string) :
  drop 1 (section_lines h "HOLE_CARDS") = pre ++ rest ->
  Forall (fun x => Str.startswith "***" (Str.upper x) = false) pre ->
  match rest with
  | [] => True
  | mark :: _ => Str.startswith "***" (Str.upper mark) = true
  end ->
  _parse_preflop h l
  = Ok tt (set_preflop_actions (stored_lines (Str.strip <$> pre)) h) l.
Proof.
  intros Hlines Hpre Hrest.
  unfold _parse_preflop, try_, bind, get, modify.
  rewrite Hlines, (preflop_loop_prefix _ _ Hpre Hrest).
  destruct pre; reflexivity.
Qed.

End ParsedFacts.

(** ** The log *)

Section LogFacts.
Context {S : Type}.

Lemma grows_ret {A} (a : A) : grows (S := S) (ret a).
Proof. intros s l. exists []. simpl. rewrite app_nil_r. reflexivity. Qed.

Lemma grows_raise {A} e : grows (S := S) (A := A) (raise e).
Proof. intros s l. exists []. simpl. rewrite app_nil_r. reflexivity. Qed.

Lemma grows_get : grows (get (S := S)).
Proof. intros s l. exists []. simpl. rewrite app_nil_r. reflexivity. Qed.

Lemma grows_modify (f : S -> S) : grows (modify f).
Proof. intros s l. exists []. simpl. rewrite app_nil_r. reflexivity. Qed.

Lemma grows_logging sev msg : grows (logging (S := S) sev msg).
Proof. intros s l. exists [(sev, msg)]. reflexivity. Qed.

Lemma grows_expect {A} (o : option A) e : grows (S := S) (expect o e).
Proof. destruct o; [apply grows_ret|apply grows_raise]. Qed.

Lemma grows_of_result {A} (r : exn + A) : grows (S := S) (of_result r).
Proof. destruct r; [apply grows_raise|apply grows_ret]. Qed.

Lemma grows_Decimal text : grows (S := S) (Decimal_ text).
Proof. apply grows_expect. Qed.

Lemma grows_bind {A B} (m : M S A) (f : A -> M S B) :
  grows m -> (forall a, grows (f a)) -> grows (bind m f).
Proof.
  intros Hm Hf s l. unfold bind. destruct (Hm s l) as [l1 E1].
  destruct (m s l) as [a s1 l1'|e s1 l1']; simpl in E1; subst.
  - destruct (Hf a s1 (l ++ l1)) as [l2 E2]. exists (l1 ++ l2).
    rewrite E2, app_assoc. reflexivity.
  - exists l1. reflexivity.
Qed.

Lemma grows_try {A} (body : M S A) handler :
  grows body -> (forall e, grows (handler e)) -> grows (try_ body handler).
Proof.
  intros Hb Hh s l. unfold try_. destruct (Hb s l) as [l1 E1].
  destruct (body s l) as [a s1 l1'|e s1 l1']; simpl in E1; subst.
  - exists l1. reflexivity.
  - destruct (Hh e s1 (l ++ l1)) as [l2 E2]. exists (l1 ++ l2).
    rewrite E2, app_assoc. reflexivity.
Qed.

Lemma grows_mapM {A B} (f : A -> M S B) (xs : list A) :
  (forall x, grows (f x)) -> grows (mapM f xs).
Proof.
  intros Hf. induction xs as [|x xs IH]; simpl; [apply grows_ret|].
  apply grows_bind; [apply Hf|intros y].
  apply grows_bind; [exact IH|intros ys]. apply grows_ret.
Qed.

Lemma grows_stages (ms : list (M S unit)) :
  (forall m, In m ms -> grows m) -> grows (run_stages ms).
Proof.
  induction ms as [|m ms IH]; intros H; simpl; [apply grows_ret|].
  apply grows_bind; [apply H; left; reflexivity|intros _].
  apply IH. intros m' Hm'. apply H. right. exact Hm'.
Qed.

End LogFacts.

#[local] Hint Resolve grows_ret grows_raise grows_get grows_modify
  grows_logging grows_expect grows_of_result grows_Decimal : steps.

Ltac step_grows :=
  repeat first
    [ apply grows_try; [|intros]
    | apply grows_bind; [|intros]
    | apply grows_mapM; intros
    | solve [auto with steps]
    | match goal with
      | |- grows (match ?x with _ => _ end) => destruct x
      | |- grows (if ?b then _ else _) => destruct b
      | |- grows (let '(_, _) := ?x in _) => destruct x
      end ].

Section ParseLog.
Context `{V : Vocabulary}.

Import Hand.

Lemma grows_actions_loop (lines : list string) :
  forall acc, grows (Street.actions_loop lines acc).
Proof.
  induction lines as [|line rest IH]; intros acc; simpl; [apply grows_ret|].
  apply grows_bind.
  - unfold Street.parse_action_line, Street._parse_uncalled,
      Street._parse_collected, Street._parse_muck,
      Street._handle_player_join, Street._parse_player_action, assign.
    step_grows.
  - intros [a|]; apply IH.
Qed.

Lemma grows_new_street (lines : list string) : grows (new_street lines).
Proof.
  assert (G : grows (first <- expect (lines !! 0%nat) list_index_error ;;
                     Street._parse_cards first ;;
                     Street._parse_actions (drop 1 lines))).
  { unfold Street._parse_cards, Street._parse_actions.
    apply grows_bind; [step_grows|intros first].
    apply grows_bind; [step_grows|intros _].
    apply grows_bind; [apply grows_actions_loop|intros acts]. step_grows. }
  intros h l. unfold new_street, Street.new.
  destruct (G (Street.init None) l) as [l'' E]. exists l''.
  revert E.
  match goal with
  | |- log_of ?o = _ -> _ => destruct o; simpl; auto
  end.
Qed.

Lemma grows_late_stage (m : M PokerStarsHandHistory unit) :
  In m late_stages -> grows m.
Proof.
  unfold late_stages. simpl.
  intros [<-|[<-|[<-|[<-|[<-|[<-|[<-|[<-|[<-|[<-|[<-|[]]]]]]]]]]]].
  - unfold _parse_hero. apply grows_try; [|intros; step_grows].
    apply grows_bind; [apply grows_get|intros h].
    induction (section_lines h "HEADER") as [|line rest IH]; simpl;
      [step_grows|].
    destruct (Re.match_ _hero_re (Str.strip line)); [|exact IH].
    unfold _get_hero_from_players, get_players. step_grows.
  - unfold _parse_preflop. step_grows.
  - unfold _parse_flop. apply grows_try; [|intros; step_grows].
    apply grows_bind; [apply grows_get|intros h].
    destruct (sections h !! "FLOP"); [|step_grows].
    apply grows_bind; [apply grows_new_street|intros]. step_grows.
  - unfold _parse_street, set_street_actions. simpl.
    apply grows_try; [|intros; step_grows].
    apply grows_bind; [apply grows_get|intros h].
    destruct (sections h !! Str.upper "turn"); [|step_grows].
    apply grows_bind; [apply grows_new_street|intros]. step_grows.
  - unfold _parse_street, set_street_actions. simpl.
    apply grows_try; [|intros; step_grows].
    apply grows_bind; [apply grows_get|intros h].
    destruct (sections h !! Str.upper "river"); [|step_grows].
    apply grows_bind; [apply grows_new_street|intros]. step_grows.
  - unfold _parse_showdown. step_grows.
  - unfold _parse_pot, set_pot_and_rake.
    apply grows_try; [|intros; step_grows].
    apply grows_bind; [apply grows_get|intros h].
    destruct (sections h !! "SUMMARY") as [sec|]; [|step_grows].
    induction (Str.lines (Str.strip sec)) as [|line rest IH]; simpl.
    + unfold set_pot_and_rake. step_grows.
    + destruct (Re.match_ _pot_re (Str.strip line)); [step_grows|exact IH].
  - unfold _parse_board.
    apply grows_try; [|intros; step_grows].
    apply grows_bind; [apply grows_get|intros h].
    destruct (sections h !! "SUMMARY") as [sec|]; [|step_grows].
    induction (Str.lines (Str.strip sec)) as [|line rest IH]; simpl;
      [step_grows|].
    destruct (Re.search _board_re line); [step_grows|exact IH].
  - unfold _parse_winners. step_grows.
  - unfold _del_split_vars. step_grows.
  - step_grows.
Qed.

(** X30: no parse ends with a clean log.  Every parse that returns a
    hand has logged the error of the button stage, which reads an
    attribute that no stage assigns; the stages after it only add to
    the log. *)
Theorem every_parsed_hand_has_logged_the_button_error
    (hand_text : string) (sections_ : gmap string string)
    (h : PokerStarsHandHistory) (l : Log) :
  run hand_text sections_ = Ok tt h l ->
  In button_error_entry l.
Proof.
  unfold run. rewrite parse_fresh. intros Hup.
  destruct (Re.match_ _header_re (header_line hand_text)) as [mh|] eqn:Hmh.
  2: { rewrite parse_upto_header_fails in Hup by exact Hmh. discriminate. }
  destruct (parse_header_returns hand_text sections_ mh [] Hmh)
    as (h1 & l1 & H1 & Hd).
  destruct (Re.match_ _table_re (table_line sections_)) as [mt|] eqn:Ht.
  2: { rewrite (parse_upto_table_fails _ _ _ _ _ H1 Hd Ht) in Hup.
       discriminate. }
  destruct (_parse_players (with_table mt h1) l1)
    as [[] h3 l3|e h3 l3] eqn:Hp.
  2: { rewrite (parse_upto_roster_fails _ _ _ _ _ _ _ _ _ H1 Hd Ht Hp)
         in Hup. discriminate. }
  destruct (parse_upto_returns _ _ (length late_stages) _ _ _ _ _
              H1 Hd Ht Hp) as (r3 & h' & l' & _ & _ & Hst & Hup' & _ & _).
  rewrite Hup' in Hup. injection Hup as -> ->.
  rewrite firstn_all in Hst.
  destruct (grows_stages late_stages grows_late_stage (set_button None h3)
              (l3 ++ [button_error_entry])) as [l'' E].
  unfold button_error_entry in E at 1. rewrite Hst in E. simpl in E.
  rewrite E. apply in_or_app. left. apply in_or_app. right. left.
  reflexivity.
Qed.

End ParseLog.

(** ** The further properties at concrete lines and transcripts *)

Section MoreExamples.

Import Hand.

Lemma boardline_without_bracket_witness :
  Str.contains "[" "*** FLOP ***" = false
  /\ Street._parse_cards "*** FLOP ***" bare_street []
     = Ok tt (with_cards [] bare_street) [].
Proof.
  assert (H : Str.contains "[" "*** FLOP ***" = false) by reflexivity.
  split; [exact H|].
  exact (boardline_without_bracket_gives_no_cards _ bare_street [] H).
Defined.

Lemma street_shape_witness :
  Street._parse_cards five_card_line bare_street []
  = Ok tt (with_cards ["4c"; "Js"; "7c"; "Kd"; "2h"] bare_street) []
  /\ exists cs,
       Street.cards (with_cards ["4c"; "Js"; "7c"; "Kd"; "2h"] bare_street)
       = Some cs /\ (length cs <= 3)%nat.
Proof.
  assert (H : Street._parse_cards five_card_line bare_street []
              = Ok tt (with_cards ["4c"; "Js"; "7c"; "Kd"; "2h"] bare_street)
                  []) by (vm_compute; reflexivity).
  split; [exact H|].
  destruct (parse_cards_keeps_the_street_shape _ _ _ _ _ H)
    as (_ & _ & _ & _ & cs & Hcs & Hlen & _).
  exists cs. split; [exact Hcs|exact Hlen].
Defined.

Lemma turn_line_witness :
  Str.contains "[" "*** TURN *** " = false
  /\ "4c Js 7c" <> EmptyString
  /\ Str.contains "]" "4c Js 7c" = false
  /\ board_line "*** TURN *** " "4c Js 7c" " [Kd]" = turn_line
  /\ Street._parse_cards turn_line bare_street []
     = Ok tt (with_cards ["4c"; "Js"; "7c"] bare_street) [].
Proof.
  assert (H1 : Str.contains "[" "*** TURN *** " = false) by reflexivity.
  assert (H2 : "4c Js 7c" <> EmptyString) by discriminate.
  assert (H3 : Str.contains "]" "4c Js 7c" = false) by reflexivity.
  assert (H4 : Forall2 (fun t c => Card t = inr c)
                 (take 5 (Str.split_ws "4c Js 7c")) ["4c"; "Js"; "7c"]).
  { vm_compute. repeat constructor. }
  split; [exact H1|]. split; [exact H2|]. split; [exact H3|].
  split; [reflexivity|].
  exact (first_bracket_group_gives_the_cards
           "*** TURN *** " "4c Js 7c" " [Kd]" ["4c"; "Js"; "7c"]
           bare_street [] H1 H2 H3 H4).
Defined.

Lemma collected_line_witness :
  word_run "EsAyy" /\ digit_run "0"
  /\ collected_line "EsAyy" ("0" +:+ frac_text (Some "37")) EmptyString
     = "EsAyy collected $0.37 from pot"
  /\ Street._parse_collected "EsAyy collected $0.37 from pot" bare_street []
     = Ok (Some ("EsAyy", WIN, Some (Fin false 37 (-2))))
          (Street.set_pot (Some (Fin false 37 (-2))) bare_street) [].
Proof.
  assert (H1 : word_run "EsAyy") by (split; [discriminate|reflexivity]).
  assert (H2 : digit_run "0") by (split; [discriminate|reflexivity]).
  assert (H3 : forall f, Some "37" = Some f -> digit_run f).
  { intros f [= <-]. split; [discriminate|reflexivity]. }
  split; [exact H1|]. split; [exact H2|]. split; [reflexivity|].
  exact (collected_line_is_a_win "EsAyy" "0" (Some "37") EmptyString
           bare_street [] H1 H2 H3).
Defined.

Lemma blind_line_witness :
  Str.contains ": " "Hero" = false /\ token "posts" /\ token "small"
  /\ Street._parse_player_action "Hero: posts small blind $0.01"
       bare_street []
     = Ok (Some ("Hero", POSTS, None)) bare_street [].
Proof.
  assert (H1 : Str.contains ": " "Hero" = false) by reflexivity.
  assert (H2 : token "posts") by (split; [discriminate|reflexivity]).
  assert (H3 : token "small") by (split; [discriminate|reflexivity]).
  split; [exact H1|]. split; [exact H2|]. split; [exact H3|].
  exact (proj1 (amount_is_read_from_the_token_after_the_keyword
                  "Hero" "posts" bare_street [] H1 H2)
           POSTS "small" " blind $0.01" eq_refl H3 eq_refl).
Defined.

Lemma dropped_action_witness :
  Str.contains ": " "Hero:folds" = false
  /\ Street._parse_player_action "Hero:folds" bare_street []
     = Ok None bare_street [index_error_entry "Hero:folds"].
Proof.
  assert (H : Str.contains ": " "Hero:folds" = false) by reflexivity.
  split; [exact H|].
  exact (proj1 (action_line_without_keyword_is_dropped
                  "Hero:folds" bare_street []) H).
Defined.

Lemma grouped_amount_witness :
  Str.contains ": " "Hero" = false /\ token "bet"
  /\ Str.all is_groupchar "1,000" = true
  /\ digit_run (Str.remove_char "," "1,000")
  /\ Street._parse_player_action "Hero: bet $1,000.50 and is all-in"
       bare_street []
     = Ok (Some ("Hero", BET, Some (Fin false 100050 (-2)))) bare_street [].
Proof.
  assert (H1 : Str.contains ": " "Hero" = false) by reflexivity.
  assert (H2 : token "bet") by (split; [discriminate|reflexivity]).
  assert (H3 : Str.all is_groupchar "1,000" = true) by reflexivity.
  assert (H4 : digit_run (Str.remove_char "," "1,000"))
    by (split; [discriminate|reflexivity]).
  assert (H5 : forall f, Some "50" = Some f -> digit_run f).
  { intros f [= <-]. split; [discriminate|reflexivity]. }
  split; [exact H1|]. split; [exact H2|]. split; [exact H3|].
  split; [exact H4|].
  exact (grouped_amount_is_read_without_its_commas
           "Hero" "bet" BET true "1,000" (Some "50") " and is all-in"
           bare_street [] H1 H2 eq_refl H3 H4 H5 eq_refl).
Defined.

Lemma header_date_witness :
  match Re.match_ _header_re packed_header with
  | Some m =>
      exists d, group m "date" = Some d
                /\ Str.len d = 20%nat /\ Str.all not_space d = true
  | None => False
  end.
Proof.
  destruct (Re.match_ _header_re packed_header) as [m|] eqn:Hm.
  - exact (accepted_header_has_a_date_without_blanks packed_header m Hm).
  - vm_compute in Hm. discriminate.
Defined.

Lemma header_first_witness :
  header_parsed fresh_hand = false
  /\ (parse_header ;; parse)%py fresh_hand [] = parse fresh_hand [].
Proof.
  assert (H : header_parsed fresh_hand = false) by reflexivity.
  split; [exact H|].
  exact (header_first_then_parse_is_parse fresh_hand [] H).
Defined.

Lemma seat_lines_witness :
  players three_seat_hand = Some (_init_seats 3)
  /\ seats_aligned (_init_seats 3)
  /\ exists r',
       players (state_of (seat_loop ["Seat 0: Z ($1 in chips)";
                                     "Seat 2: B ($5 in chips)"]
                            three_seat_hand []))
       = Some r'
       /\ length r' = 3%nat /\ seats_aligned r'.
Proof.
  assert (H1 : players three_seat_hand = Some (_init_seats 3))
    by reflexivity.
  assert (H2 : seats_aligned (_init_seats 3)).
  { intros i p Hp. left.
    destruct i as [|[|[|i]]]; simpl in Hp; [| | |discriminate];
      injection Hp as <-; reflexivity. }
  split; [exact H1|]. split; [exact H2|].
  destruct (seat_lines_keep_players_at_their_seats
              ["Seat 0: Z ($1 in chips)"; "Seat 2: B ($5 in chips)"]
              three_seat_hand [] (_init_seats 3) H1 H2)
    as (r' & Hr' & Hlen & Hal & _).
  exists r'. split; [exact Hr'|]. split; [exact Hlen|exact Hal].
Defined.


Lemma parsed_hand_witness :
  run good_text good_sections
  = Ok tt (state_of parsed_outcome) (log_of parsed_outcome)
  /\ button (state_of parsed_outcome) = None
  /\ hero (state_of parsed_outcome) = None.
Proof.
  assert (H : run good_text good_sections
              = Ok tt (state_of parsed_outcome) (log_of parsed_outcome))
    by (vm_compute; reflexivity).
  split; [exact H|].
  exact (parsed_hand_has_neither_button_nor_hero _ _ _ _ H).
Defined.

Lemma missing_streets_witness :
  run good_text good_sections
  = Ok tt (state_of parsed_outcome) (log_of parsed_outcome)
  /\ good_sections !! "FLOP" = None
  /\ flop (state_of parsed_outcome) = None
  /\ show_down (state_of parsed_outcome) = Some false.
Proof.
  assert (H : run good_text good_sections
              = Ok tt (state_of parsed_outcome) (log_of parsed_outcome))
    by (vm_compute; reflexivity).
  assert (Hf : good_sections !! "FLOP" = None) by (vm_compute; reflexivity).
  split; [exact H|]. split; [exact Hf|].
  destruct (missing_street_sections_leave_their_fields_empty _ _ _ _ H)
    as (_ & Hflop & _ & _ & Hshow).
  split; [exact (Hflop Hf)|].
  rewrite Hshow. vm_compute. reflexivity.
Defined.

Lemma pot_line_witness :
  sections side_pot_hand !! "SUMMARY" = Some side_pot_text
  /\ Str.lines (Str.strip side_pot_text)
     = ["*** SUMMARY ***";
        "Total pot $0.37 Main pot $0.20. Side pot $0.17. | Rake $0.02";
        "Seat 1: A [button"; "Board [4c Js 7c]"]
  /\ _parse_pot side_pot_hand []
     = Ok tt (set_rake (Some zero2)
                (set_total_pot (Some zero2) side_pot_hand)) []
  /\ _parse_pot summary_hand []
     = Ok tt (set_rake (Some (Fin false 2 (-2)))
                (set_total_pot (Some (Fin false 37 (-2))) summary_hand)) [].
Proof.
  assert (H1 : sections side_pot_hand !! "SUMMARY" = Some side_pot_text)
    by (vm_compute; reflexivity).
  assert (H2 : Str.lines (Str.strip side_pot_text)
               = ["*** SUMMARY ***";
                  "Total pot $0.37 Main pot $0.20. Side pot $0.17. | Rake $0.02";
                  "Seat 1: A [button"; "Board [4c Js 7c]"])
    by (vm_compute; reflexivity).
  assert (H3 : Forall (fun x => ~ is_pot_line (Str.strip x))
                 ["*** SUMMARY ***";
                  "Total pot $0.37 Main pot $0.20. Side pot $0.17. | Rake $0.02";
                  "Seat 1: A [button"; "Board [4c Js 7c]"]).
  { repeat constructor; apply no_match_not_pot_line; vm_compute; reflexivity. }
  assert (G1 : sections summary_hand !! "SUMMARY" = Some summary_text)
    by (vm_compute; reflexivity).
  assert (G2 : Str.lines (Str.strip summary_text)
               = ["*** SUMMARY ***"]
                 ++ "Total pot $0.37 | Rake $0.02"
                    :: ["Board [4c Js 7c]"; "Seat 1: A collected ($0.35)"])
    by (vm_compute; reflexivity).
  assert (G3 : Forall (fun x => ~ is_pot_line (Str.strip x))
                 ["*** SUMMARY ***"]).
  { repeat constructor; apply no_match_not_pot_line; vm_compute; reflexivity. }
  assert (G4 : Str.strip "Total pot $0.37 | Rake $0.02"
               = pot_line (amount_text true "0" (Some "37"))
                          (amount_text true "0" (Some "02")))
    by (vm_compute; reflexivity).
  assert (G5 : digit_run "0") by (split; [discriminate|reflexivity]).
  assert (G6 : forall f, Some "37" = Some f -> digit_run f).
  { intros f [= <-]. split; [discriminate|reflexivity]. }
  assert (G7 : forall f, Some "02" = Some f -> digit_run f).
  { intros f [= <-]. split; [discriminate|reflexivity]. }
  split; [exact H1|]. split; [exact H2|]. split.
  - exact (proj1 (first_pot_line_gives_pot_and_rake side_pot_hand []
                    side_pot_text _ H1 H3) H2).
  - exact (proj2 (first_pot_line_gives_pot_and_rake summary_hand []
                    summary_text ["*** SUMMARY ***"] G1 G3)
             "Total pot $0.37 | Rake $0.02"
             ["Board [4c Js 7c]"; "Seat 1: A collected ($0.35)"]
             true "0" (Some "37") true "0" (Some "02")
             G2 G4 G5 G6 G5 G7).
Defined.

Lemma board_line_witness :
  sections side_pot_hand !! "SUMMARY" = Some side_pot_text
  /\ Str.lines (Str.strip side_pot_text)
     = ["*** SUMMARY ***";
        "Total pot $0.37 Main pot $0.20. Side pot $0.17. | Rake $0.02";
        "Seat 1: A [button"]
       ++ board_line "Board " "4c Js 7c" EmptyString :: []
  /\ _parse_board side_pot_hand []
     = Ok tt (set_board (Some ["4c"; "Js"; "7c"]) side_pot_hand) [].
Proof.
  assert (H1 : sections side_pot_hand !! "SUMMARY" = Some side_pot_text)
    by (vm_compute; reflexivity).
  assert (H2 : Forall (fun x => ~ has_bracket_group x)
                 ["*** SUMMARY ***";
                  "Total pot $0.37 Main pot $0.20. Side pot $0.17. | Rake $0.02";
                  "Seat 1: A [button"]).
  { repeat constructor; apply no_search_no_group; vm_compute; reflexivity. }
  assert (H3 : Str.lines (Str.strip side_pot_text)
               = ["*** SUMMARY ***";
                  "Total pot $0.37 Main pot $0.20. Side pot $0.17. | Rake $0.02";
                  "Seat 1: A [button"]
                 ++ board_line "Board " "4c Js 7c" EmptyString :: [])
    by (vm_compute; reflexivity).
  assert (H4 : Forall2 (fun t c => Card t = inr c)
                 (Str.split_ws "4c Js 7c") ["4c"; "Js"; "7c"]).
  { vm_compute. repeat constructor. }
  assert (H5 : opens_no_group "Board ").
  { apply no_bracket_opens_no_group. reflexivity. }
  split; [exact H1|]. split; [exact H3|].
  exact (proj2 (board_is_the_first_bracket_group_of_the_summary
                  side_pot_hand [] side_pot_text _ H1 H2)
           "Board " "4c Js 7c" EmptyString [] ["4c"; "Js"; "7c"]
           H3 H5 ltac:(discriminate) eq_refl H4).
Defined.

Lemma header_fields_witness :
  run good_text good_sections
  = Ok tt (state_of parsed_outcome) (log_of parsed_outcome)
  /\ ident (state_of parsed_outcome) = Some "1"
  /\ exists h1 l1,
       parse_header fresh_hand [] = Ok tt h1 l1
       /\ header_view (state_of parsed_outcome) = header_view h1.
Proof.
  assert (H : run good_text good_sections
              = Ok tt (state_of parsed_outcome) (log_of parsed_outcome))
    by (vm_compute; reflexivity).
  split; [exact H|]. split; [vm_compute; reflexivity|].
  destruct (header_fields_survive_the_parse _ _ _ _ H)
    as ((h1 & l1 & E & _ & Hv) & _).
  exists h1, l1. split; [exact E|exact Hv].
Defined.

Lemma table_stage_witness :
  _parse_table fresh_hand []
  = Ok tt (set_max_players (Some 6%Z)
             (set_table_name (Some "T1") fresh_hand)) []
  /\ exists name seats button_,
       table_line (sections fresh_hand) = table_text name seats button_
       /\ digit_run button_.
Proof.
  assert (H : _parse_table fresh_hand []
              = Ok tt (set_max_players (Some 6%Z)
                         (set_table_name (Some "T1") fresh_hand)) [])
    by (vm_compute; reflexivity).
  split; [exact H|].
  destruct (table_stage_stores_name_and_seats_only _ _ _ _ H)
    as (_ & name & seats & button_ & E & _ & _ & Hb & _).
  exists name, seats, button_. split; [exact E|exact Hb].
Defined.

Lemma winner_line_witness :
  winner_of_line "Seat 1: A collected ($0.35)" = Some "A"
  /\ "A" <> EmptyString.
Proof.
  assert (H : winner_of_line "Seat 1: A collected ($0.35)" = Some "A")
    by (vm_compute; reflexivity).
  split; [exact H|].
  exact (proj1 (winners_come_from_two_shapes_of_line _ _ H)).
Defined.

Lemma button_error_witness :
  run good_text good_sections
  = Ok tt (state_of parsed_outcome) (log_of parsed_outcome)
  /\ In button_error_entry (log_of parsed_outcome).
Proof.
  assert (H : run good_text good_sections
              = Ok tt (state_of parsed_outcome) (log_of parsed_outcome))
    by (vm_compute; reflexivity).
  split; [exact H|].
  exact (every_parsed_hand_has_logged_the_button_error _ _ _ _ H).
Defined.

Lemma preflop_lines_witness :
  drop 1 (section_lines preflop_hand "HOLE_CARDS")
  = ["Dealt to Hero [Ah Kd]"; "  P1: folds "] ++ ["*** FLOP *** [4c Js 7c]"]
  /\ _parse_preflop preflop_hand []
     = Ok tt (set_preflop_actions
                (Some ["Dealt to Hero [Ah Kd]"; "P1: folds"]) preflop_hand)
          [].
Proof.
  assert (H1 : drop 1 (section_lines preflop_hand "HOLE_CARDS")
               = ["Dealt to Hero [Ah Kd]"; "  P1: folds "]
                 ++ ["*** FLOP *** [4c Js 7c]"])
    by (vm_compute; reflexivity).
  assert (H2 : Forall (fun x => Str.startswith "***" (Str.upper x) = false)
                 ["Dealt to Hero [Ah Kd]"; "  P1: folds "])
    by (repeat constructor).
  split; [exact H1|].
  exact (preflop_actions_are_the_lines_before_the_first_marker
           preflop_hand [] _ _ H1 H2 eq_refl).
Defined.

End MoreExamples.
